(** * Z-Anatomy exporter: bilateral mirroring pipeline (export_anatomy.py, V11)

    A shallow embedding of [scripts/python/export_anatomy.py] and the
    properties of its name analysis, bilateral de-duplication, identifier
    allocation, classification and per-structure processing.

    Conventions of the embedding:
    - Python [str] is [string]; [str.lower] is modelled on ASCII letters.
    - Python [dict] is an association list in insertion order, updated in
      place by [PyDict.set]; a Python [set] of strings is a list used through
      membership and [set_add] only.
    - Python [float] is the kernel's binary64 [float].
    - Blender ([bpy], [mathutils]) is an interface, [Host]; every operator is
      a state transformer on the scene that may raise. *)

From Stdlib Require Import List String Ascii Bool Arith Lia FinFun.
From Stdlib Require Import Floats.PrimFloat.
From Stdlib Require Floats.FloatAxioms.
From Stdlib Require Import DecimalString Decimal DecimalNat.
Import ListNotations.
Local Open Scope string_scope.
Local Open Scope list_scope.

Set Implicit Arguments.

(** ** Python strings *)

Module PyStr.

(** [c.lower()] for one ASCII character. *)
Definition lower_ascii (c : ascii) : ascii :=
  let n := nat_of_ascii c in
  if ((65 <=? n)%nat && (n <=? 90)%nat)%bool then ascii_of_nat (n + 32) else c.

(** [s.lower()] *)
Fixpoint lower (s : string) : string :=
  match s with
  | EmptyString => EmptyString
  | String c s' => String (lower_ascii c) (lower s')
  end.

(** [s.startswith(p)] *)
Fixpoint startswith (s p : string) {struct p} : bool :=
  match p, s with
  | EmptyString, _ => true
  | String _ _, EmptyString => false
  | String a p', String b s' => Ascii.eqb a b && startswith s' p'
  end.

(** [s.endswith(suf)] *)
Fixpoint endswith (s suf : string) : bool :=
  if String.eqb s suf then true
  else match s with
       | EmptyString => false
       | String _ s' => endswith s' suf
       end.

(** [s[:-n]] for [n > 0] *)
Definition drop_last (n : nat) (s : string) : string :=
  substring 0 (String.length s - n) s.

(** [w in s] *)
Fixpoint contains (s w : string) : bool :=
  startswith s w ||
  match s with
  | EmptyString => false
  | String _ s' => contains s' w
  end.

(** [any(w in s for w in ws)] *)
Definition any_in (s : string) (ws : list string) : bool :=
  existsb (contains s) ws.

(** [s.replace(old, new)] for a non-empty [old]: non-overlapping
    occurrences, leftmost first.  [skip] counts the characters of a match
    still to be consumed. *)
Fixpoint replace_go (old new : string) (skip : nat) (s : string) : string :=
  match s with
  | EmptyString => EmptyString
  | String c s' =>
      match skip with
      | S k => replace_go old new k s'
      | O =>
          if startswith s old
          then new ++ replace_go old new (String.length old - 1) s'
          else String c (replace_go old new 0 s')
      end
  end.

Definition replace (s old new : string) : string := replace_go old new 0 s.

(** [s.lstrip(c)], [s.rstrip(c)], [s.strip(c)] for a one-character set *)
Fixpoint lstrip (c : ascii) (s : string) : string :=
  match s with
  | EmptyString => EmptyString
  | String a s' => if Ascii.eqb a c then lstrip c s' else s
  end.

Fixpoint rstrip (c : ascii) (s : string) : string :=
  match s with
  | EmptyString => EmptyString
  | String a s' =>
      match rstrip c s' with
      | EmptyString => if Ascii.eqb a c then EmptyString else String a EmptyString
      | r => String a r
      end
  end.

Definition strip (c : ascii) (s : string) : string := rstrip c (lstrip c s).

(** [str(n)] / [f"{n}"] for a non-negative integer *)
Definition of_nat (n : nat) : string := NilZero.string_of_uint (Nat.to_uint n).

(** Truth value of a string: empty is false. *)
Definition truthy (s : string) : bool :=
  match s with EmptyString => false | _ => true end.

End PyStr.

(** ** Python dictionaries and sets *)

Module PyDict.

Definition dict (V : Type) : Type := list (string * V).

Definition keys {V} (d : dict V) : list string := map fst d.

(** [d.get(k)] *)
Fixpoint get {V} (d : dict V) (k : string) : option V :=
  match d with
  | [] => None
  | (k', v) :: d' => if String.eqb k' k then Some v else get d' k
  end.

(** [k in d] *)
Definition mem {V} (d : dict V) (k : string) : bool :=
  match get d k with Some _ => true | None => false end.

(** [d[k] = v]: an existing key keeps its position, a new key goes last. *)
Fixpoint set {V} (d : dict V) (k : string) (v : V) : dict V :=
  match d with
  | [] => [(k, v)]
  | (k', v') :: d' =>
      if String.eqb k' k then (k', v) :: d' else (k', v') :: set d' k v
  end.

(** A dictionary holds each key once. *)
Definition wf {V} (d : dict V) : Prop := NoDup (keys d).

(** [x in s] and [s.add(x)] on a set of strings *)
Definition set_mem (s : list string) (x : string) : bool :=
  existsb (String.eqb x) s.

Definition set_add (s : list string) (x : string) : list string :=
  if set_mem s x then s else s ++ [x].

End PyDict.

Import PyDict.

(** ** Bilateral structure analysis *)

(** [extract_side_and_base]: Returns (base_name, side). *)
Definition extract_side_and_base (name : string) : string * string :=
  if PyStr.endswith name ".l" then (PyStr.drop_last 2 name, "left")
  else if PyStr.endswith name ".r" then (PyStr.drop_last 2 name, "right")
  else (name, "midline").

(** The value type of [by_base]: [{"left": .., "right": .., "region": ..}]. *)
Record pair_info : Type := mk_pair_info {
  info_left : option string;
  info_right : option string;
  info_region : option string
}.

Definition default_info : pair_info := mk_pair_info None None None.

Definition with_left (name : string) (i : pair_info) : pair_info :=
  mk_pair_info (Some name) (info_right i) (info_region i).
Definition with_right (name : string) (i : pair_info) : pair_info :=
  mk_pair_info (info_left i) (Some name) (info_region i).
Definition with_region (r : string) (i : pair_info) : pair_info :=
  mk_pair_info (info_left i) (info_right i) (Some r).

(** [by_base[base][field] = v] on the [defaultdict]: a missing [base] is
    created with the default record on access, then the record is updated. *)
Definition by_base_update (by_base : dict pair_info) (base : string)
    (f : pair_info -> pair_info) : dict pair_info :=
  match get by_base base with
  | Some info => set by_base base (f info)
  | None => set by_base base (f default_info)
  end.

Definition find_pairs_step (by_base : dict pair_info) (item : string * string)
  : dict pair_info :=
  let '(name, region) := item in
  let '(base, side) := extract_side_and_base name in
  if String.eqb side "left" then
    by_base_update (by_base_update by_base base (with_left name))
                   base (with_region region)
  else if String.eqb side "right" then
    by_base_update (by_base_update by_base base (with_right name))
                   base (with_region region)
  else by_base.

Definition opt_truthy (o : option string) : bool :=
  match o with Some s => PyStr.truthy s | None => false end.

(** [find_bilateral_pairs] *)
Definition find_bilateral_pairs (structure_names : dict string) : dict pair_info :=
  let by_base := fold_left find_pairs_step structure_names [] in
  fold_left
    (fun bilateral_pairs (item : string * pair_info) =>
       let '(base, info) := item in
       if opt_truthy (info_left info) && opt_truthy (info_right info)
       then set bilateral_pairs base info
       else bilateral_pairs)
    by_base [].

Definition filter_step (bilateral_pairs : dict pair_info)
    (acc : dict string * list string) (item : string * string)
  : dict string * list string :=
  let '(filtered, skipped) := acc in
  let '(name, region) := item in
  let '(base, side) := extract_side_and_base name in
  if String.eqb side "right" then
    if mem bilateral_pairs base then (filtered, skipped ++ [name])
    else (set filtered name region, skipped)
  else (set filtered name region, skipped).

(** [filter_for_export]: Returns (filtered_structures, skipped_right_names). *)
Definition filter_for_export (structure_names : dict string)
    (bilateral_pairs : dict pair_info) : dict string * list string :=
  fold_left (filter_step bilateral_pairs) structure_names ([], []).

(** ** Registry *)

(** The parsed JSON value of one region of the registry, by the shapes that
    [get_all_structure_names] tells apart. *)
Inductive region_data : Type :=
| RegionStructures (names : list string)
    (* an object with a "structures" list *)
| RegionKeys (names : list string)
    (* an object with neither "structures" nor "description": its keys *)
| RegionDescribed
    (* an object with "description" and no "structures" *)
| RegionList (names : list string)
    (* a plain list of names *)
| RegionOther.
    (* any other JSON value *)

Definition registry : Type := list (string * region_data).

Definition add_names (region : string) (structures : dict string)
    (names : list string) : dict string :=
  fold_left (fun d name => set d name region) names structures.

(** [get_all_structure_names]: dict mapping structure_name -> region *)
Definition get_all_structure_names (reg : registry) : dict string :=
  fold_left
    (fun structures (item : string * region_data) =>
       let '(region, data) := item in
       if PyStr.startswith region "_" then structures
       else match data with
            | RegionStructures names => add_names region structures names
            | RegionKeys names => add_names region structures names
            | RegionDescribed => structures
            | RegionList names => add_names region structures names
            | RegionOther => structures
            end)
    reg [].

(** ** Anatomical type detection *)

Definition fascia_keywords : list string :=
    ["fascia"; "aponeurosis"; "tract"; "retinaculum"; "tendinous arch"].

Definition muscle_keywords : list string :=
    ["muscle"; "muscul"; "abdominis"; "dorsi"; "oblique"; "diaphragm";
     "levator"; "rotator"; "brachii"; "brachialis"; "coracobrachialis";
     "deltoid"; "supinator"; "pronator"; "pollicis"; "indicis"; "digiti";
     "interossei"; "lumbrical"; "opponens"; "flexor carpi"; "extensor carpi";
     "flexor digitorum"; "extensor digitorum"; "femoris"; "gastrocnemius";
     "soleus"; "adductor"; "obturator"; "sphincter"; "hallucis"; "psoas";
     "frontalis"; "occipitalis"; "temporoparietalis"; "orbicularis";
     "corrugator"; "procerus"; "nasalis"; "depressor"; "zygomaticus";
     "risorius"; "mentalis"; "buccinator"; "platysma"; "masseter";
     "temporalis"; "pterygoid"; "genioglossus"; "hyoglossus"; "styloglossus";
     "palatoglossus"; "digastric"; "mylohyoid"; "geniohyoid"; "stylohyoid";
     "sternohyoid"; "sternothyroid"; "thyrohyoid"; "omohyoid"; "constrictor";
     "palatopharyngeus"; "stylopharyngeus"; "salpingopharyngeus";
     "cricothyroid"; "thyroarytenoid"; "thyro-arytenoid"; "cricoarytenoid";
     "crico-arytenoid"; "aryepiglottic"; "ary-epiglottic"; "vocalis";
     "sternocleidomastoid"; "scalenus"; "longus colli"; "longus capitis";
     "splenius"; "semispinalis"; "rectus capitis"; "obliquus capitis";
     "rectus superior"; "rectus inferior"; "rectus medialis";
     "rectus lateralis"; "oblique muscle"; "levator palpebrae"].

Definition bone_keywords : list string :=
    ["bone"; "vertebra"; "rib"; "sternum"; "sacrum"; "coccyx"; "ilium";
     "ischium"; "pubis"; "hip bone"; "atlas"; "axis"; "xiphoid"; "humerus";
     "radius"; "ulna"; "scapula"; "clavicle"; "capitate"; "hamate"; "lunate";
     "pisiform"; "scaphoid"; "trapezium"; "trapezoid"; "triquetrum";
     "metacarpal"; "phalanx"; "phalang"; "femur"; "tibia"; "fibula";
     "patella"; "talus"; "calcaneus"; "navicular"; "cuboid"; "cuneiform";
     "metatarsal"; "frontal bone"; "parietal bone"; "temporal bone";
     "occipital bone"; "sphenoid"; "ethmoid"; "mandible"; "maxilla";
     "zygomatic"; "nasal bone"; "nasal concha"; "lacrimal"; "palatine";
     "vomer"; "hyoid"].

Definition ligament_keywords : list string :=
    ["ligament"; "ligamentum"; "zona orbicularis"].

Definition cartilage_keywords : list string :=
    ["cartilage"; "disc"; "meniscus"; "labrum"; "symphysis";
     "nucleus pulposus"; "thyroid cartilage"; "cricoid"; "arytenoid";
     "epiglott"; "nasal septal"].


(** [get_anatomical_type] (V11): fascia, then tendon, then capsule, then
    muscle, bone, ligament, cartilage, membrane, bursa, capsule-of. *)
Definition get_anatomical_type (name : string) : string :=
  let name_lower := PyStr.lower name in
  if PyStr.any_in name_lower fascia_keywords then "fascia"
  else if PyStr.any_in name_lower ["tendon"; "sheath"] then "tendon"
  else if PyStr.contains name_lower "articular capsule"
          || PyStr.contains name_lower "capsule" then "capsule"
  else if PyStr.any_in name_lower muscle_keywords then "muscle"
  else if PyStr.any_in name_lower bone_keywords then "bone"
  else if PyStr.any_in name_lower ligament_keywords then "ligament"
  else if PyStr.any_in name_lower cartilage_keywords then "cartilage"
  else if PyStr.contains name_lower "membrane" then "membrane"
  else if PyStr.any_in name_lower ["bursa"; "bursae"] then "bursa"
  else if PyStr.any_in name_lower ["frenula capsulae"; "capsule of"] then "capsule"
  else "other".

(** The ten values of the [type] field. *)
Definition anatomical_types : list string :=
  ["bone"; "muscle"; "ligament"; "tendon"; "fascia"; "cartilage";
   "membrane"; "bursa"; "capsule"; "other"].

(** The classifier of the previous exporter, [scripts/export_anatomy.py]
    (V10.4): tendon and capsule first, fascia only after ligament. *)
Module V10.

Definition fascia_keywords : list string :=
    ["fascia"; "aponeurosis"; "tract"; "retinaculum"; "tendinous arch";
     "linea alba"].

Definition BROKEN_PARENT_CHAIN_PATTERNS : list string :=
  ["inferior pubic ligament"; "superior pubic ligament"; "interpubic disc"].

Definition needs_location_sum_fix (obj_name : string) : bool :=
  let name_lower := PyStr.lower obj_name in
  PyStr.any_in name_lower BROKEN_PARENT_CHAIN_PATTERNS.

Definition get_anatomical_type (name : string) : string :=
  let name_lower := PyStr.lower name in
  if PyStr.any_in name_lower ["tendon"; "sheath"] then "tendon"
  else if PyStr.contains name_lower "articular capsule"
          || PyStr.contains name_lower "capsule" then "capsule"
  else if PyStr.any_in name_lower muscle_keywords then "muscle"
  else if PyStr.any_in name_lower bone_keywords then "bone"
  else if PyStr.any_in name_lower ligament_keywords then "ligament"
  else if PyStr.any_in name_lower fascia_keywords then "fascia"
  else if PyStr.any_in name_lower cartilage_keywords then "cartilage"
  else if PyStr.any_in name_lower ["membrane"] then "membrane"
  else if PyStr.any_in name_lower ["bursa"; "bursae"] then "bursa"
  else if PyStr.any_in name_lower ["frenula capsulae"; "capsule of"] then "capsule"
  else "other".

End V10.

(** ** Special handling (V11) *)

Definition BROKEN_PARENT_CHAIN_PATTERNS : list string := [].

(** [needs_location_sum_fix] *)
Definition needs_location_sum_fix (obj_name : string) : bool :=
  let name_lower := PyStr.lower obj_name in
  PyStr.any_in name_lower BROKEN_PARENT_CHAIN_PATTERNS.

(** ** Layer computation *)

Definition deep_muscle_keywords : list string :=
    ["multifid"; "rotat"; "interspinal"; "intertransvers";
     "transversus thoracis"; "innermost"; "diaphragm"; "pelvic floor";
     "coccygeus"; "levator ani"; "pubo"; "obturator internus"; "piriformis";
     "gemell"].

Definition intermediate_muscle_keywords : list string :=
    ["internal"; "erector"; "spinalis"; "longissimus"; "iliocostalis";
     "semispinal"; "oblique"; "quadratus"; "psoas"; "iliacus";
     "obturator externus"].


(** [x in xs] for a list of strings *)
Definition str_in (x : string) (xs : list string) : bool :=
  existsb (String.eqb x) xs.

(** The body of the loop of [compute_structure_layers] for one name. *)
Definition base_layer (name : string) : nat :=
  let anat_type := get_anatomical_type name in
  let name_lower := PyStr.lower name in
  if str_in anat_type ["bone"; "cartilage"] then 0
  else if str_in anat_type ["ligament"; "membrane"] then 1
  else if String.eqb anat_type "fascia" then 4
  else if str_in anat_type ["bursa"] then 3
  else if String.eqb anat_type "muscle" then
    if PyStr.any_in name_lower deep_muscle_keywords then 1
    else if PyStr.any_in name_lower intermediate_muscle_keywords then 2
    else 3
  else 3.

(** [compute_structure_layers], over the keys of [found_objects]; the
    source does not use its [registry] argument. *)
Definition compute_structure_layers {O : Type} (objects : dict O) : dict nat :=
  fold_left (fun layers (item : string * O) => set layers (fst item) (base_layer (fst item)))
            objects [].

(** ** Mesh ID generation *)

(** [while "__" in clean: clean = clean.replace("__", "_")].  Every round
    shortens [clean], so its length bounds the number of rounds. *)
Fixpoint collapse_loop (fuel : nat) (clean : string) : string :=
  match fuel with
  | O => clean
  | S fuel' =>
      if PyStr.contains clean "__"
      then collapse_loop fuel' (PyStr.replace clean "__" "_")
      else clean
  end.

Definition collapse (clean : string) : string :=
  collapse_loop (String.length clean) clean.

(** The block under [# Normalize characters], which the source has twice. *)
Definition normalize_characters (clean : string) : string :=
  let clean := PyStr.replace (PyStr.replace (PyStr.replace clean " " "_") "-" "_") "." "_" in
  let clean := PyStr.replace (PyStr.replace clean "(" "") ")" "" in
  let clean := collapse clean in
  PyStr.strip "_"%char clean.

(** [for suffix in [".l", ".r"]: if clean.endswith(suffix): ...; break] *)
Definition strip_side_suffix (clean : string) : string :=
  if PyStr.endswith clean ".l" then PyStr.drop_last (String.length ".l") clean
  else if PyStr.endswith clean ".r" then PyStr.drop_last (String.length ".r") clean
  else clean.

(** The loop over [(".l", "_l"), (".r", "_r")]: the shortened name and
    [side_suffix]. *)
Definition split_side_suffix (clean : string) : string * option string :=
  if PyStr.endswith clean ".l"
  then (PyStr.drop_last (String.length ".l") clean, Some "_l")
  else if PyStr.endswith clean ".r"
  then (PyStr.drop_last (String.length ".r") clean, Some "_r")
  else (clean, None).

(** [normalize_mesh_id] *)
Definition normalize_mesh_id (name : string) (is_bilateral : bool) : string :=
  let clean := PyStr.lower name in
  if is_bilateral then normalize_characters (strip_side_suffix clean)
  else
    let '(clean, side_suffix) := split_side_suffix clean in
    match side_suffix with
    | Some sfx => normalize_characters clean ++ sfx
    | None => normalize_characters clean
    end.

(** [mesh_id = base_id; counter = 1;
     while mesh_id in used_ids: mesh_id = f"{base_id}_{counter}"; counter += 1].
    At most [len(used_ids)] candidates can be taken, so that many rounds and
    one more reach a free id. *)
Fixpoint alloc_loop (fuel : nat) (used_ids : list string) (base_id mesh_id : string)
    (counter : nat) : string :=
  match fuel with
  | O => mesh_id
  | S fuel' =>
      if set_mem used_ids mesh_id
      then alloc_loop fuel' used_ids base_id
             (base_id ++ "_" ++ PyStr.of_nat counter) (S counter)
      else mesh_id
  end.

Definition allocate_mesh_id (used_ids : list string) (base_id : string) : string :=
  alloc_loop (S (List.length used_ids)) used_ids base_id base_id 1.

(** ** Metadata records *)

(** A center as written to the metadata: a list of three floats. *)
Definition point : Type := (float * float * float)%type.

(** [mirror_center_x] *)
Definition mirror_center_x (center : point) : point :=
  let '(c0, c1, c2) := center in ((- c0)%float, c1, c2).

(** [structure_meta]; an absent [mirroredCenter] key is [None]. *)
Record structure_meta : Type := mk_meta {
  meshId : string;
  originalName : string;
  baseName : string;
  type_ : string;
  layer : nat;
  region : string;
  bilateral : bool;
  center : point;
  mirroredCenter : option point
}.

(** The part of [metadata] that varies with the run. *)
Record metadata : Type := mk_metadata {
  md_bilateral_count : nat;
  md_midline_count : nat;
  md_structures : dict structure_meta
}.

(** [stats] *)
Record stats_t : Type := mk_stats {
  st_bilateral : nat;
  st_midline : nat;
  st_orphan : nat;
  st_failed : nat
}.

(** [ExportReport], as [export_torso] fills it. *)
Record ExportReport : Type := mk_report {
  total_in_registry : nat;
  found_in_blender : nat;
  exported : nat;
  bilateral_count : nat;
  midline_count : nat;
  missing : list string;
  skipped_right : list string
}.

(** ** The host: Blender's data, operators and mathutils *)

Inductive outcome (A : Type) : Type :=
| Ok (a : A)
| Raised.

Arguments Raised {A}.

Class Host : Type := {
  Scene : Type;        (* the state of the Blender session *)
  Obj : Type;          (* a reference to a bpy.types.Object *)
  Collection : Type;   (* a reference to a bpy.types.Collection *)
  Vector : Type;       (* mathutils.Vector *)
  Matrix : Type;       (* mathutils.Matrix, 4x4 *)
  Rotation : Type;     (* the 3x3 matrix of rotation_euler.to_matrix() *)

  (* mathutils *)
  vec_zero : Vector;
  vec_of : float -> float -> float -> Vector;
  vec_get : Vector -> nat -> float;
  vec_add : Vector -> Vector -> Vector;
  vec_sub : Vector -> Vector -> Vector;
  vec_div : Vector -> nat -> Vector;
  vec_length : Vector -> float;
  mat_translation : Matrix -> Vector;
  mat_apply : Matrix -> Vector -> Vector;
  rot_apply : Rotation -> Vector -> Vector;

  (* the interpreter's round(x, ndigits) *)
  py_round : float -> nat -> float;

  (* reading the session *)
  data_objects : Scene -> list Obj;
  obj_name : Scene -> Obj -> string;
  obj_is_mesh : Scene -> Obj -> bool;
  obj_vertices : Scene -> Obj -> option (list Vector);
  obj_data_users : Scene -> Obj -> option nat;
  obj_matrix_world : Scene -> Obj -> Matrix;
  obj_location : Scene -> Obj -> Vector;
  obj_scale : Scene -> Obj -> Vector;
  obj_rotation : Scene -> Obj -> Rotation;
  obj_parent : Scene -> Obj -> option Obj;
  obj_users_collection : Scene -> Obj -> list Collection;
  active_object : Scene -> option Obj;
  find_collection : Scene -> string -> option Collection;
  collection_objects : Scene -> Collection -> list Obj;

  (* operators and assignments; each may raise *)
  view_layer_update : Scene -> Scene * outcome unit;
  select_all_deselect : Scene -> Scene * outcome unit;
  select_set : Obj -> Scene -> Scene * outcome unit;
  set_active : Obj -> Scene -> Scene * outcome unit;
  duplicate : Scene -> Scene * outcome unit;
  set_name : Obj -> string -> Scene -> Scene * outcome unit;
  collection_unlink : Collection -> Obj -> Scene -> Scene * outcome unit;
  collection_link : Collection -> Obj -> Scene -> Scene * outcome unit;
  data_make_copy : Obj -> Scene -> Scene * outcome unit;
  set_parent_none : Obj -> Scene -> Scene * outcome unit;
  set_matrix_world : Obj -> Matrix -> Scene -> Scene * outcome unit;
  parent_clear_keep_transform : Scene -> Scene * outcome unit;
  transform_apply : Scene -> Scene * outcome unit;
  origin_set_center_of_volume : Scene -> Scene * outcome unit;
  set_location : Obj -> Vector -> Scene -> Scene * outcome unit;
  set_rotation_zero : Obj -> Scene -> Scene * outcome unit;
  set_scale_one : Obj -> Scene -> Scene * outcome unit;
  set_vertex_co : Obj -> nat -> Vector -> Scene -> Scene * outcome unit;
  mesh_update : Obj -> Scene -> Scene * outcome unit;
  objects_remove : Obj -> Scene -> Scene * outcome unit;
  collections_remove : Collection -> Scene -> Scene * outcome unit;
  collections_new : string -> Scene -> Scene * outcome Collection;
  scene_link_collection : Collection -> Scene -> Scene * outcome unit;
  makedirs : string -> Scene -> Scene * outcome unit;
  export_gltf : string -> list Obj -> Scene -> Scene * outcome unit;
  write_metadata : string -> metadata -> Scene -> Scene * outcome unit
}.

(** Configuration *)
Definition OUTPUT_DIR : string := "~/Code/anatomylens/public/models".
Definition METADATA_OUTPUT_DIR : string := "~/Code/anatomylens/data".
Definition GLTF_FILENAME : string := "body.glb".
Definition METADATA_FILENAME : string := "body_metadata.json".
Definition EXPORT_COLLECTION_NAME : string := "_EXPORT_TEMP_".

(** [os.path.join] of a directory and a file name *)
Definition path_join (dir file : string) : string := dir ++ "/" ++ file.

Section Exporter.

Context {H : Host}.

(** *** Statements that act on the session *)

Definition bpy (A : Type) : Type := Scene -> Scene * outcome A.

Definition ret {A} (a : A) : bpy A := fun s => (s, Ok a).

Definition bind {A B} (m : bpy A) (k : A -> bpy B) : bpy B :=
  fun s =>
    match m s with
    | (s', Ok a) => k a s'
    | (s', Raised) => (s', Raised)
    end.

Definition raise {A} : bpy A := fun s => (s, Raised).

(** Reading an attribute of the session. *)
Definition read {A} (f : Scene -> A) : bpy A := fun s => (s, Ok (f s)).

(** [try: m except Exception: print(..)] *)
Definition try_except (m : bpy unit) : bpy unit :=
  fun s => (fst (m s), Ok tt).

Notation "x <- m ;; k" := (bind m (fun x => k))
  (at level 61, m at next level, right associativity).
Notation "m ;;; k" := (bind m (fun _ => k))
  (at level 61, right associativity).

(** [for x in xs: body(x)] *)
Fixpoint for_each {A} (xs : list A) (body : A -> bpy unit) : bpy unit :=
  match xs with
  | [] => ret tt
  | x :: xs' => body x ;;; for_each xs' body
  end.

Definition when (b : bool) (m : bpy unit) : bpy unit :=
  if b then m else ret tt.

(** *** Finding the registry structures *)

(** [name.lower().replace(" ", "_").replace("-", "_")] *)
Definition lookup_normalized (name : string) : string :=
  PyStr.replace (PyStr.replace (PyStr.lower name) " " "_") "-" "_".

(** [find_structure_in_blender] *)
Definition find_structure_in_blender (s : Scene) (name : string) : option Obj :=
  let by_normalized :=
    let name_normalized := lookup_normalized name in
    find (fun obj =>
            obj_is_mesh s obj &&
            String.eqb (lookup_normalized (obj_name s obj)) name_normalized)
         (data_objects s) in
  match find (fun obj => String.eqb (obj_name s obj) name) (data_objects s) with
  | Some obj => if obj_is_mesh s obj then Some obj else by_normalized
  | None => by_normalized
  end.

(** [find_all_registry_objects] *)
Definition find_all_registry_objects (s : Scene) (registry_names : dict string)
  : dict Obj * list string :=
  fold_left
    (fun (acc : dict Obj * list string) (item : string * string) =>
       let '(found, missing) := acc in
       let name := fst item in
       match find_structure_in_blender s name with
       | Some obj => (set found name obj, missing)
       | None => (found, missing ++ [name])
       end)
    registry_names ([], []).

(** *** Transform functions *)

(** [get_world_geometry_center] *)
Definition get_world_geometry_center (s : Scene) (obj : Obj) : Vector :=
  match obj_vertices s obj with
  | Some (v :: vs) =>
      if obj_is_mesh s obj then
        let world_center :=
          fold_left (fun wc co => vec_add wc (mat_apply (obj_matrix_world s obj) co))
                    (v :: vs) vec_zero in
        vec_div world_center (List.length (v :: vs))
      else mat_translation (obj_matrix_world s obj)
  | _ => mat_translation (obj_matrix_world s obj)
  end.

(** One entry of [precompute_world_transforms]. *)
Record transform : Type := mk_transform {
  t_matrix : Matrix;
  t_center : Vector
}.

(** [precompute_world_transforms] *)
Definition precompute_world_transforms (s : Scene) (objects : dict Obj)
  : dict transform :=
  fold_left
    (fun transforms (item : string * Obj) =>
       let '(name, obj) := item in
       set transforms name
           (mk_transform (obj_matrix_world s obj) (get_world_geometry_center s obj)))
    objects [].

(** [sum_parent_locations]; a parent chain has no cycle, so the number of
    objects bounds its length. *)
Fixpoint sum_parent_loop (fuel : nat) (s : Scene) (total : Vector)
    (current : option Obj) : Vector :=
  match fuel, current with
  | S fuel', Some c =>
      sum_parent_loop fuel' s (vec_add total (obj_location s c)) (obj_parent s c)
  | _, _ => total
  end.

Definition sum_parent_locations (s : Scene) (obj : Obj) : Vector :=
  sum_parent_loop (List.length (data_objects s)) s (obj_location s obj) (obj_parent s obj).

Definition scale_by (scale co : Vector) : Vector :=
  vec_of (vec_get co 0 * vec_get scale 0)%float
         (vec_get co 1 * vec_get scale 1)%float
         (vec_get co 2 * vec_get scale 2)%float.

(** [compute_world_center_via_location_sum] *)
Definition compute_world_center_via_location_sum (s : Scene) (obj : Obj) : Vector :=
  match obj_vertices s obj with
  | Some (v :: vs) =>
      if obj_is_mesh s obj then
        let local_center :=
          vec_div (fold_left vec_add (v :: vs) vec_zero) (List.length (v :: vs)) in
        let scaled_center := scale_by (obj_scale s obj) local_center in
        let rotated_center := rot_apply (obj_rotation s obj) scaled_center in
        vec_add (sum_parent_locations s obj) rotated_center
      else sum_parent_locations s obj
  | _ => sum_parent_locations s obj
  end.

(** [blender_to_threejs] *)
Definition blender_to_threejs (loc : Vector) : point :=
  (py_round (vec_get loc 0) 4,
   py_round (vec_get loc 2) 4,
   py_round (- vec_get loc 1)%float 4).

(** *** Collection management *)

Definition remove_collection (col : Collection) : bpy unit :=
  objs <- read (fun s => collection_objects s col) ;;
  for_each objs objects_remove ;;;
  collections_remove col.

(** [create_export_collection] *)
Definition create_export_collection : bpy Collection :=
  old <- read (fun s => find_collection s EXPORT_COLLECTION_NAME) ;;
  match old with Some c => remove_collection c | None => ret tt end ;;;
  col <- collections_new EXPORT_COLLECTION_NAME ;;
  scene_link_collection col ;;;
  ret col.

(** [cleanup_export_collection] *)
Definition cleanup_export_collection : bpy unit :=
  col <- read (fun s => find_collection s EXPORT_COLLECTION_NAME) ;;
  match col with Some c => remove_collection c | None => ret tt end.

(** *** Object processing *)

(** The tolerance of the corruption test, [0.001]. *)
#[warnings="-inexact-float"]
Definition MATRIX_FIX_TOLERANCE : float := 0.001%float.

(** [position_diff > 0.001] *)
Definition exceeds_tolerance (position_diff : float) : bool :=
  PrimFloat.ltb MATRIX_FIX_TOLERANCE position_diff.

(** [needs_matrix_fix], from the current world matrix of the original and
    the snapshot, if there is one ([if precomputed_matrix:] holds for every
    4x4 matrix, whose truth value is that of its row count). *)
Definition needs_matrix_fix (current_matrix : Matrix)
    (precomputed_matrix : option Matrix) : bool :=
  match precomputed_matrix with
  | Some pm =>
      let current_pos := mat_translation current_matrix in
      let precomputed_pos := mat_translation pm in
      let position_diff := vec_length (vec_sub current_pos precomputed_pos) in
      exceeds_tolerance position_diff
  | None => false
  end.

(** The duplication that both processing functions start with: the copy is
    the active object after [bpy.ops.object.duplicate]. *)
Definition duplicate_for_export (original : Obj) (export_collection : Collection)
  : bpy Obj :=
  select_all_deselect ;;;
  select_set original ;;;
  set_active original ;;;
  duplicate ;;;
  active <- read active_object ;;
  match active with
  | None => raise
  | Some copy =>
      name <- read (fun s => obj_name s original) ;;
      set_name copy (name ++ "_export") ;;;
      cols <- read (fun s => obj_users_collection s copy) ;;
      for_each cols (fun col => collection_unlink col copy) ;;;
      collection_link export_collection copy ;;;
      users <- read (fun s => obj_data_users s copy) ;;
      when (match users with Some n => (1 <? n)%nat | None => false end)
           (data_make_copy copy) ;;;
      ret copy
  end.

(** The branch under [if needs_matrix_fix:]. *)
Definition corrective_path (copy : Obj) (precomputed_matrix : Matrix) : bpy unit :=
  set_parent_none copy ;;;
  set_matrix_world copy precomputed_matrix ;;;
  view_layer_update.

(** The branch under [else:]. *)
Definition standard_path (copy : Obj) : bpy unit :=
  parent <- read (fun s => obj_parent s copy) ;;
  when (match parent with Some _ => true | None => false end)
       (select_all_deselect ;;;
        select_set copy ;;;
        set_active copy ;;;
        parent_clear_keep_transform) ;;;
  view_layer_update.

(** The baking that both processing functions end with. *)
Definition bake_and_center (copy : Obj) : bpy (option Obj * Vector) :=
  select_all_deselect ;;;
  select_set copy ;;;
  set_active copy ;;;
  try_except (transform_apply ;;; origin_set_center_of_volume) ;;;
  world_center <- read (fun s => obj_location s copy) ;;
  ret (Some copy, world_center).

(** [process_standard_object] *)
Definition process_standard_object (original : Obj) (export_collection : Collection)
    (precomputed_transform : option transform) : bpy (option Obj * Vector) :=
  current_matrix <- read (fun s => obj_matrix_world s original) ;;
  let precomputed_matrix := option_map t_matrix precomputed_transform in
  let fix_needed := needs_matrix_fix current_matrix precomputed_matrix in
  copy <- duplicate_for_export original export_collection ;;
  match fix_needed, precomputed_matrix with
  | true, Some pm => corrective_path copy pm
  | _, _ => standard_path copy
  end ;;;
  bake_and_center copy.

(** The loop over [mesh.vertices] of [process_broken_parent_object]. *)
Definition relocate_vertices (original copy : Obj) (world_center : Vector) : bpy unit :=
  verts <- read (fun s => obj_vertices s copy) ;;
  mesh <- read (fun s => obj_is_mesh s copy) ;;
  match verts with
  | Some vs =>
      when mesh
        (scale <- read (fun s => obj_scale s original) ;;
         rot <- read (fun s => obj_rotation s original) ;;
         offset <- read (fun s => sum_parent_locations s original) ;;
         for_each (seq 0 (List.length vs))
           (fun i =>
              co <- read (fun s => nth i (match obj_vertices s copy with
                                          | Some l => l | None => [] end) vec_zero) ;;
              let rotated := rot_apply rot (scale_by scale co) in
              set_vertex_co copy i (vec_sub (vec_add rotated offset) world_center)) ;;;
         mesh_update copy)
  | None => ret tt
  end.

(** [process_broken_parent_object] *)
Definition process_broken_parent_object (original : Obj) (export_collection : Collection)
  : bpy (option Obj * Vector) :=
  world_center <- read (fun s => compute_world_center_via_location_sum s original) ;;
  copy <- duplicate_for_export original export_collection ;;
  set_parent_none copy ;;;
  set_location copy world_center ;;;
  set_rotation_zero copy ;;;
  set_scale_one copy ;;;
  relocate_vertices original copy world_center ;;;
  bake_and_center copy.

(** The choice of processing function at [# Process mesh]. *)
Definition process_mesh (original : Obj) (export_collection : Collection)
    (precomputed_transform : option transform) : bpy (option Obj * Vector) :=
  name <- read (fun s => obj_name s original) ;;
  if needs_location_sum_fix name
  then process_broken_parent_object original export_collection
  else process_standard_object original export_collection precomputed_transform.

(** *** The main export function *)

(** The variables of the loop of [export_torso] that change per structure. *)
Record run_state : Type := mk_run {
  export_objects : list Obj;
  structures : dict structure_meta;
  used_ids : list string;
  stats : stats_t;
  type_stats : dict nat
}.

Definition initial_run : run_state :=
  mk_run [] [] [] (mk_stats 0 0 0 0) [].

(** [stats["failed"] += 1] *)
Definition count_failed (rs : run_state) : run_state :=
  let st := stats rs in
  mk_run (export_objects rs) (structures rs) (used_ids rs)
         (mk_stats (st_bilateral st) (st_midline st) (st_orphan st) (S (st_failed st)))
         (type_stats rs).

(** The three-way count at the end of the loop body. *)
Definition count_side (is_bilateral : bool) (side : string) (st : stats_t) : stats_t :=
  if is_bilateral
  then mk_stats (S (st_bilateral st)) (st_midline st) (st_orphan st) (st_failed st)
  else if String.eqb side "midline"
  then mk_stats (st_bilateral st) (S (st_midline st)) (st_orphan st) (st_failed st)
  else mk_stats (st_bilateral st) (st_midline st) (S (st_orphan st)) (st_failed st).

(** [type_stats[anat_type] += 1] on a [defaultdict(int)] *)
Definition count_type (anat_type : string) (ts : dict nat) : dict nat :=
  match get ts anat_type with
  | Some n => set ts anat_type (S n)
  | None => set ts anat_type 1
  end.

Section Loop.

Variable bilateral_pairs : dict pair_info.
Variable export_structure_names : dict string.
Variable layers : dict nat.
Variable precomputed_transforms : dict transform.
Variable export_collection : Collection.

(** [structure_meta] of one structure, with [mirroredCenter] when bilateral. *)
Definition build_structure_meta (registry_name mesh_id base_name region : string)
    (is_bilateral : bool) (world_center : Vector) : structure_meta :=
  let center_threejs := blender_to_threejs world_center in
  let anat_type := get_anatomical_type registry_name in
  let layer := match get layers registry_name with Some l => l | None => 3 end in
  mk_meta mesh_id registry_name base_name anat_type layer region is_bilateral
          center_threejs
          (if is_bilateral then Some (mirror_center_x center_threejs) else None).

(** The body of [for registry_name, original in found_objects.items()],
    with its [try]/[except Exception]. *)
Definition process_entry (rs : run_state) (entry : string * Obj) (s : Scene)
  : Scene * run_state :=
  let '(registry_name, original) := entry in
  let precomputed_transform := get precomputed_transforms registry_name in
  match process_mesh original export_collection precomputed_transform s with
  | (s1, Raised) => (s1, count_failed rs)
  | (s1, Ok (None, _)) => (s1, count_failed rs)
  | (s1, Ok (Some copy, _)) =>
      let world_center :=
        match precomputed_transform with
        | Some t => t_center t
        | None => obj_location s1 copy
        end in
      let '(base_name, side) := extract_side_and_base registry_name in
      let is_bilateral := mem bilateral_pairs base_name in
      let base_id := normalize_mesh_id registry_name is_bilateral in
      let mesh_id := allocate_mesh_id (used_ids rs) base_id in
      let rs1 := mk_run (export_objects rs) (structures rs)
                        (set_add (used_ids rs) mesh_id) (stats rs) (type_stats rs) in
      match set_name copy mesh_id s1 with
      | (s2, Raised) => (s2, count_failed rs1)
      | (s2, Ok _) =>
          match get export_structure_names registry_name with
          | None =>
              (* KeyError at [export_structure_names[registry_name]] *)
              (s2, count_failed rs1)
          | Some region =>
              let meta := build_structure_meta registry_name mesh_id base_name
                            region is_bilateral world_center in
              (s2, mk_run (export_objects rs1 ++ [copy])
                          (set (structures rs1) mesh_id meta)
                          (used_ids rs1)
                          (count_side is_bilateral side (stats rs1))
                          (count_type (type_ meta) (type_stats rs1)))
          end
      end
  end.

(** The whole loop over [found_objects]. *)
Definition export_loop (found_objects : dict Obj) (rs : run_state) (s : Scene)
  : Scene * run_state :=
  fold_left (fun (acc : Scene * run_state) entry =>
               process_entry (snd acc) entry (fst acc))
            found_objects (s, rs).

End Loop.

(** What a complete run hands back: the report it returns, the metadata it
    writes and the statistics it prints. *)
Definition run_result : Type := (ExportReport * metadata * stats_t)%type.

(** The part of [export_torso] after the registry structures are found. *)
Definition export_found (all_structure_names : dict string)
    (bilateral_pairs : dict pair_info) (export_structure_names : dict string)
    (skipped_right : list string) (found_objects : dict Obj)
    (missing_names : list string) : bpy (option run_result) :=
  let layers := compute_structure_layers found_objects in
  makedirs OUTPUT_DIR ;;;
  makedirs METADATA_OUTPUT_DIR ;;;
  precomputed_transforms <- read (fun s => precompute_world_transforms s found_objects) ;;
  export_collection <- create_export_collection ;;
  rs <- (fun s =>
           let r := export_loop bilateral_pairs export_structure_names layers
                                precomputed_transforms export_collection
                                found_objects initial_run s in
           (fst r, Ok (snd r))) ;;
  let md := mk_metadata (st_bilateral (stats rs)) (st_midline (stats rs))
                        (structures rs) in
  match export_objects rs with
  | [] => cleanup_export_collection ;;; ret None
  | first :: _ =>
      select_all_deselect ;;;
      for_each (export_objects rs) select_set ;;;
      set_active first ;;;
      export_gltf (path_join OUTPUT_DIR GLTF_FILENAME) (export_objects rs) ;;;
      write_metadata (path_join METADATA_OUTPUT_DIR METADATA_FILENAME) md ;;;
      cleanup_export_collection ;;;
      ret (Some (mk_report (List.length all_structure_names)
                           (List.length found_objects)
                           (List.length (structures rs))
                           (st_bilateral (stats rs))
                           (st_midline (stats rs))
                           missing_names
                           skipped_right,
                 md, stats rs))
  end.

(** [export_torso]; [loaded] is the registry that [load_registry] returns,
    [None] when it raises [FileNotFoundError]. *)
Definition export_torso (loaded : option registry) : bpy (option run_result) :=
  match loaded with
  | None => ret None
  | Some reg =>
      let all_structure_names := get_all_structure_names reg in
      let bilateral_pairs := find_bilateral_pairs all_structure_names in
      let '(export_structure_names, skipped_right) :=
        filter_for_export all_structure_names bilateral_pairs in
      view_layer_update ;;;
      found <- read (fun s => find_all_registry_objects s export_structure_names) ;;
      let '(found_objects, missing_names) := found in
      match found_objects with
      | [] => ret None
      | _ :: _ =>
          export_found all_structure_names bilateral_pairs export_structure_names
                       skipped_right found_objects missing_names
      end
  end.

End Exporter.

(** ** The normalization rule in words *)

(** The rule that [normalize_mesh_id] implements, written character by
    character: spaces, hyphens and periods become the separator,
    parentheses disappear, runs of separators shrink to one, separators at
    both ends go, and a side tag is put back last. *)
Module Words.

Definition rewrite_char (c : ascii) : string :=
  if Ascii.eqb c " " || Ascii.eqb c "-" || Ascii.eqb c "." then "_"
  else if Ascii.eqb c "(" || Ascii.eqb c ")" then ""
  else String c "".

Fixpoint rewrite_chars (s : string) : string :=
  match s with
  | EmptyString => EmptyString
  | String c s' => rewrite_char c ++ rewrite_chars s'
  end.

Fixpoint squeeze (s : string) : string :=
  match s with
  | EmptyString => EmptyString
  | String a s' =>
      match s' with
      | EmptyString => String a EmptyString
      | String b _ =>
          if Ascii.eqb a "_" && Ascii.eqb b "_" then squeeze s'
          else String a (squeeze s')
      end
  end.

Definition tidy (s : string) : string :=
  PyStr.strip "_"%char (squeeze (rewrite_chars s)).

Definition normalize_id (name : string) (is_bilateral : bool) : string :=
  let low := PyStr.lower name in
  let sided := PyStr.endswith low ".l" || PyStr.endswith low ".r" in
  let body := if sided then PyStr.drop_last 2 low else low in
  let tag :=
    if is_bilateral then ""
    else if PyStr.endswith low ".l" then "_l"
    else if PyStr.endswith low ".r" then "_r"
    else "" in
  tidy body ++ tag.

End Words.

(** The rule as the specification words it: whitespace, hyphens, periods
    and parentheses all become the separator. *)
Module SpecWords.

Definition is_whitespace (c : ascii) : bool :=
  let n := nat_of_ascii c in
  ((n =? 32) || ((9 <=? n) && (n <=? 13)))%nat.

Definition rewrite_char (c : ascii) : ascii :=
  if is_whitespace c || Ascii.eqb c "-" || Ascii.eqb c "."
     || Ascii.eqb c "(" || Ascii.eqb c ")"
  then "_"%char else c.

Fixpoint rewrite_chars (s : string) : string :=
  match s with
  | EmptyString => EmptyString
  | String c s' => String (rewrite_char c) (rewrite_chars s')
  end.

Definition normalizeId (name : string) (isBilateral : bool) : string :=
  let low := PyStr.lower name in
  let sided := PyStr.endswith low ".l" || PyStr.endswith low ".r" in
  let body := if sided then PyStr.drop_last 2 low else low in
  let tagged :=
    if isBilateral then body
    else if PyStr.endswith low ".l" then (body ++ "_l")%string
    else if PyStr.endswith low ".r" then (body ++ "_r")%string
    else body in
  PyStr.strip "_"%char (Words.squeeze (rewrite_chars tagged)).

End SpecWords.

(** ** A small host to run the exporter on

    Objects are numbered; a world matrix is a translation; operators that
    the examples do not depend on leave the session as it is, and [round]
    keeps its argument. *)
Module Toy.

Record object : Type := mk_object {
  o_name : string;
  o_mesh : bool;
  o_world : point;
  o_parent : option nat;
  o_verts : list point
}.

Record scene : Type := mk_scene {
  s_objects : list object;
  s_active : option nat
}.

Definition blank : object := mk_object "" false (0, 0, 0)%float None [].

Definition padd (a b : point) : point :=
  let '(a0, a1, a2) := a in let '(b0, b1, b2) := b in
  (a0 + b0, a1 + b1, a2 + b2)%float.

Definition psub (a b : point) : point :=
  let '(a0, a1, a2) := a in let '(b0, b1, b2) := b in
  (a0 - b0, a1 - b1, a2 - b2)%float.

Fixpoint float_of_nat (n : nat) : float :=
  match n with
  | O => 0%float
  | S k => (float_of_nat k + 1)%float
  end.

Definition pdiv (a : point) (n : nat) : point :=
  let '(a0, a1, a2) := a in
  let d := float_of_nat n in (a0 / d, a1 / d, a2 / d)%float.

Definition plength (a : point) : float :=
  let '(a0, a1, a2) := a in PrimFloat.sqrt (a0 * a0 + a1 * a1 + a2 * a2)%float.

Definition pget (a : point) (i : nat) : float :=
  let '(a0, a1, a2) := a in
  match i with 0 => a0 | 1 => a1 | _ => a2 end.

Definition object_at (s : scene) (i : nat) : object := nth i (s_objects s) blank.

Fixpoint update_at (i : nat) (f : object -> object) (l : list object) : list object :=
  match l, i with
  | [], _ => []
  | o :: l', O => f o :: l'
  | o :: l', S j => o :: update_at j f l'
  end.

Definition modify (i : nat) (f : object -> object) (s : scene) : scene * outcome unit :=
  (mk_scene (update_at i f (s_objects s)) (s_active s), Ok tt).

Definition keep (s : scene) : scene * outcome unit := (s, Ok tt).

Definition toy_duplicate (s : scene) : scene * outcome unit :=
  match s_active s with
  | Some i =>
      match nth_error (s_objects s) i with
      | Some o => (mk_scene (s_objects s ++ [o]) (Some (List.length (s_objects s))), Ok tt)
      | None => (s, Raised)
      end
  | None => (s, Raised)
  end.

#[export] Instance host : Host := {|
  Scene := scene;
  Obj := nat;
  Collection := unit;
  Vector := point;
  Matrix := point;
  Rotation := unit;
  vec_zero := (0, 0, 0)%float;
  vec_of := fun x y z => (x, y, z);
  vec_get := pget;
  vec_add := padd;
  vec_sub := psub;
  vec_div := pdiv;
  vec_length := plength;
  mat_translation := fun m => m;
  mat_apply := fun m v => padd v m;
  rot_apply := fun _ v => v;
  py_round := fun x _ => x;
  data_objects := fun s => seq 0 (List.length (s_objects s));
  obj_name := fun s i => o_name (object_at s i);
  obj_is_mesh := fun s i => o_mesh (object_at s i);
  obj_vertices := fun s i => Some (o_verts (object_at s i));
  obj_data_users := fun _ _ => Some 1;
  obj_matrix_world := fun s i => o_world (object_at s i);
  obj_location := fun s i => o_world (object_at s i);
  obj_scale := fun _ _ => (1, 1, 1)%float;
  obj_rotation := fun _ _ => tt;
  obj_parent := fun s i => o_parent (object_at s i);
  obj_users_collection := fun _ _ => [];
  active_object := s_active;
  find_collection := fun _ _ => None;
  collection_objects := fun _ _ => [];
  view_layer_update := keep;
  select_all_deselect := keep;
  select_set := fun _ => keep;
  set_active := fun i s => (mk_scene (s_objects s) (Some i), Ok tt);
  duplicate := toy_duplicate;
  set_name := fun i n =>
    modify i (fun o => mk_object n (o_mesh o) (o_world o) (o_parent o) (o_verts o));
  collection_unlink := fun _ _ => keep;
  collection_link := fun _ _ => keep;
  data_make_copy := fun _ => keep;
  set_parent_none := fun i =>
    modify i (fun o => mk_object (o_name o) (o_mesh o) (o_world o) None (o_verts o));
  set_matrix_world := fun i m =>
    modify i (fun o => mk_object (o_name o) (o_mesh o) m (o_parent o) (o_verts o));
  parent_clear_keep_transform := keep;
  transform_apply := keep;
  origin_set_center_of_volume := keep;
  set_location := fun i v =>
    modify i (fun o => mk_object (o_name o) (o_mesh o) v (o_parent o) (o_verts o));
  set_rotation_zero := fun _ => keep;
  set_scale_one := fun _ => keep;
  set_vertex_co := fun _ _ _ => keep;
  mesh_update := fun _ => keep;
  objects_remove := fun _ => keep;
  collections_remove := fun _ => keep;
  collections_new := fun _ s => (s, Ok tt);
  scene_link_collection := fun _ => keep;
  makedirs := fun _ => keep;
  export_gltf := fun _ _ => keep;
  write_metadata := fun _ _ => keep
|}.

(** A pelvis: one midline bone and a complete left/right pair. *)
Definition pelvis_registry : registry :=
  [("_meta", RegionOther);
   ("pelvis", RegionStructures ["sacrum"; "gluteus maximus.l"; "gluteus maximus.r"])].

Definition pelvis_scene : scene :=
  mk_scene
    [mk_object "sacrum" true (0, 0, 1)%float None [];
     mk_object "gluteus maximus.l" true (2, 3, 4)%float (Some 0) [(1, 1, 1)%float];
     mk_object "gluteus maximus.r" true (-2, 3, 4)%float (Some 0) []]
    None.

(** An orphan left structure among midline ones. *)
Definition orphan_registry : registry :=
  [("thorax", RegionList ["sternum"; "cervical rib.l"])].

Definition orphan_scene : scene :=
  mk_scene
    [mk_object "sternum" true (0, 1, 5)%float None [];
     mk_object "cervical rib.l" true (1, 0, 6)%float None []]
    None.

(** The left member of the pair is not in the scene, the right one is. *)
Definition left_missing_scene : scene :=
  mk_scene
    [mk_object "sacrum" true (0, 0, 1)%float None [];
     mk_object "gluteus maximus.r" true (-2, 3, 4)%float None []]
    None.

(** Two names that normalize to the same id. *)
Definition psoas_registry : registry :=
  [("abdomen", RegionList ["Psoas Major"; "psoas_major"])].

Definition psoas_scene : scene :=
  mk_scene
    [mk_object "Psoas Major" true (1, 2, 3)%float None [];
     mk_object "psoas_major" true (4, 5, 6)%float None []]
    None.

(** The same two names after a third one whose own id is [psoas_major_1]. *)
Definition crowded_registry : registry :=
  [("abdomen", RegionList ["psoas major 1"; "Psoas Major"; "psoas_major"])].

Definition crowded_scene : scene :=
  mk_scene
    [mk_object "psoas major 1" true (7, 8, 9)%float None [];
     mk_object "Psoas Major" true (1, 2, 3)%float None [];
     mk_object "psoas_major" true (4, 5, 6)%float None []]
    None.

(** Left and right spelled with capitals. *)
Definition capitals_registry : registry :=
  [("arm", RegionKeys ["biceps.L"; "biceps.R"])].

(** An object one millimeter along X, and two millimeters along X, away
    from a snapshot taken at the origin. *)
#[warnings="-inexact-float"]
Definition at_tolerance_scene : scene :=
  mk_scene [mk_object "sacrum" true (0.001, 0, 0)%float None []] None.

#[warnings="-inexact-float"]
Definition beyond_tolerance_scene : scene :=
  mk_scene [mk_object "sacrum" true (0.002, 0, 0)%float None []] None.

Definition origin_snapshot : transform :=
  mk_transform (0, 0, 0)%float (0, 0, 0)%float.

(** A child whose world matrix has moved away from the snapshot. *)
#[warnings="-inexact-float"]
Definition moved_child_scene : scene :=
  mk_scene
    [mk_object "pelvis" true (0, 0, 0)%float None [];
     mk_object "sacrum" true (0.5, 0, 0)%float (Some 0) []]
    None.

End Toy.

(** ** Predicates used in the statements *)

(** What [by_base] holds for a base name after the first loop of
    [find_bilateral_pairs] has gone through [names]. *)
Definition by_base_entry_ok (names : dict string) (b : string)
    (entry : option pair_info) : Prop :=
  match entry with
  | Some i =>
      info_left i = (if set_mem (keys names) (b ++ ".l") then Some (b ++ ".l")%string else None) /\
      info_right i = (if set_mem (keys names) (b ++ ".r") then Some (b ++ ".r")%string else None)
  | None =>
      set_mem (keys names) (b ++ ".l") = false /\
      set_mem (keys names) (b ++ ".r") = false
  end.

(** Whether [filter_for_export] keeps a name: everything but the right
    member of a complete pair. *)
Definition kept_for_export (bilateral_pairs : dict pair_info) (name : string) : bool :=
  let '(base, side) := extract_side_and_base name in
  negb (String.eqb side "right" && mem bilateral_pairs base).

(** The ids that the allocation loop tries for a base id, in order:
    the base id itself, then [base_1], [base_2], ... *)
Definition candidate (base_id : string) (k : nat) : string :=
  match k with
  | O => base_id
  | S _ => (base_id ++ "_" ++ PyStr.of_nat k)%string
  end.

Section RunSpec.

Context {H : Host}.

(** The distance that [process_standard_object] compares with the
    tolerance: between the translation of the current world matrix of the
    original and the translation of the snapshot. *)
Definition position_diff (s : Scene) (original : Obj) (snapshot : transform) : float :=
  vec_length (vec_sub (mat_translation (obj_matrix_world s original))
                      (mat_translation (t_matrix snapshot))).

(** [process_standard_object] with the branch chosen beforehand. *)
Definition process_on_path (corrective : bool) (original : Obj)
    (export_collection : Collection) (precomputed_matrix : Matrix)
  : bpy (option Obj * Vector) :=
  bind (duplicate_for_export original export_collection)
       (fun copy =>
          bind (if corrective
                then corrective_path copy precomputed_matrix
                else standard_path copy)
               (fun _ => bake_and_center copy)).

Variable bilateral_pairs : dict pair_info.
Variable export_structure_names : dict string.
Variable layers : dict nat.
Variable precomputed_transforms : dict transform.

(** The id that [normalize_mesh_id] gives the structure of a record. *)
Definition record_base_id (m : structure_meta) : string :=
  normalize_mesh_id (originalName m) (bilateral m).

Definition record_side (m : structure_meta) : string :=
  snd (extract_side_and_base (originalName m)).

(** What the loop guarantees of the record stored under [id], the entries
    [found_objects] having been processed. *)
Definition record_ok (found_objects : dict Obj) (id : string)
    (m : structure_meta) : Prop :=
  meshId m = id /\
  In (originalName m) (keys found_objects) /\
  exists region world_center,
    get export_structure_names (originalName m) = Some region /\
    (forall t, get precomputed_transforms (originalName m) = Some t ->
               world_center = t_center t) /\
    m = build_structure_meta layers (originalName m) id
          (fst (extract_side_and_base (originalName m))) region
          (mem bilateral_pairs (fst (extract_side_and_base (originalName m))))
          world_center.

Definition is_midline_record (m : structure_meta) : bool :=
  negb (bilateral m) && String.eqb (record_side m) "midline".

Definition is_orphan_record (m : structure_meta) : bool :=
  negb (bilateral m) && negb (String.eqb (record_side m) "midline").

Definition count_records (p : structure_meta -> bool) (d : dict structure_meta) : nat :=
  List.length (filter p (map snd d)).

(** Every record was issued the id that the allocation loop returns for
    its base id, against a set of used ids that holds the ids of all the
    records before it (and nothing else, when no structure failed). *)
Definition issued_in_order (rs : run_state) : Prop :=
  forall pre id m post,
    structures rs = pre ++ (id, m) :: post ->
    exists used,
      incl (keys pre) used /\
      (st_failed (stats rs) = 0 -> used = keys pre) /\
      id = allocate_mesh_id used (record_base_id m).

(** The invariant of the loop of [export_torso]. *)
Definition run_ok (found_objects : dict Obj) (rs : run_state) : Prop :=
  incl (keys (structures rs)) (used_ids rs) /\
  (st_failed (stats rs) = 0 -> used_ids rs = keys (structures rs)) /\
  wf (structures rs) /\
  (st_failed (stats rs) = 0 ->
   map (fun e => originalName (snd e)) (structures rs) = keys found_objects) /\
  (forall id m, In (id, m) (structures rs) -> record_ok found_objects id m) /\
  issued_in_order rs /\
  List.length (export_objects rs) = List.length (structures rs) /\
  st_bilateral (stats rs) = count_records bilateral (structures rs) /\
  st_midline (stats rs) = count_records is_midline_record (structures rs) /\
  st_orphan (stats rs) = count_records is_orphan_record (structures rs).

End RunSpec.

Section Sessions.

Context {H : Host}.

(** The session in which [export_torso] looks the structures up: after its
    first [view_layer.update()]. *)
Definition lookup_session (s : Scene) : Scene := fst (view_layer_update s).

(** The session in which it captures the transforms: after the two
    [os.makedirs], before the export collection is created. *)
Definition capture_session (s : Scene) : Scene :=
  fst (makedirs METADATA_OUTPUT_DIR (fst (makedirs OUTPUT_DIR (lookup_session s)))).

(** The export set of a registry, and its structures found in the session. *)
Definition export_set (reg : registry) : dict string :=
  fst (filter_for_export (get_all_structure_names reg)
                         (find_bilateral_pairs (get_all_structure_names reg))).

Definition found_in (reg : registry) (s : Scene) : dict Obj :=
  fst (find_all_registry_objects (lookup_session s) (export_set reg)).

Definition missing_in (reg : registry) (s : Scene) : list string :=
  snd (find_all_registry_objects (lookup_session s) (export_set reg)).

(** The snapshot of a run. *)
Definition snapshot_of (reg : registry) (s : Scene) : dict transform :=
  precompute_world_transforms (capture_session s) (found_in reg s).

End Sessions.

(** The names and the mesh ids of the records that a run returns, in the
    order of the metadata. *)
Definition issued_ids (r : outcome (option run_result)) : list (string * string) :=
  match r with
  | Ok (Some (_, md, _)) =>
      map (fun e => (originalName (snd e), meshId (snd e))) (md_structures md)
  | _ => []
  end.

(** ** More of the source, and what the further theorems speak of *)

(** The names that a region of the registry lists. *)
Definition region_names (data : region_data) : list string :=
  match data with
  | RegionStructures names => names
  | RegionKeys names => names
  | RegionList names => names
  | RegionDescribed => []
  | RegionOther => []
  end.

(** The suffix that [extract_side_and_base] takes off for a side. *)
Definition side_suffix (side : string) : string :=
  if String.eqb side "left" then ".l"
  else if String.eqb side "right" then ".r"
  else "".

(** [all(p(c) for c in s)] *)
Fixpoint all_chars (p : ascii -> bool) (s : string) : bool :=
  match s with
  | EmptyString => true
  | String c s' => p c && all_chars p s'
  end.

(** A character that [normalize_mesh_id] never leaves in an id: a space, a
    hyphen, a period, a parenthesis or an ASCII capital. *)
Definition is_rewritten_char (c : ascii) : bool :=
  Ascii.eqb c " " || Ascii.eqb c "-" || Ascii.eqb c "." ||
  Ascii.eqb c "(" || Ascii.eqb c ")" ||
  ((65 <=? nat_of_ascii c)%nat && (nat_of_ascii c <=? 90)%nat).

(** More of the previous exporter, [scripts/export_anatomy.py] (V10.4). *)
Module V10Registry.

(** An element of the lists of [by_base]:
    [{"name": .., "side": .., "region": ..}]. *)
Record side_item : Type := mk_item {
  item_name : string;
  item_side : string;
  item_region : string
}.

(** An element of [incomplete]. *)
Record incomplete_pair : Type := mk_incomplete {
  base_name : string;
  missing_side : string;
  found : list string;
  pair_region : string
}.

(** [by_base[base].append(item)] on a [defaultdict(list)] *)
Definition by_base_append (by_base : dict (list side_item)) (base : string)
    (item : side_item) : dict (list side_item) :=
  match get by_base base with
  | Some items => set by_base base (items ++ [item])
  | None => set by_base base ([] ++ [item])
  end.

Definition group_step (by_base : dict (list side_item)) (entry : string * string)
  : dict (list side_item) :=
  let '(name, region) := entry in
  let '(base, side) := extract_side_and_base name in
  if negb (String.eqb side "midline")
  then by_base_append by_base base (mk_item name side region)
  else by_base.

(** [sides != {"left", "right"}] for the set of the sides of [items] *)
Definition sides_incomplete (sides : list string) : bool :=
  negb (str_in "left" sides && str_in "right" sides &&
        forallb (fun s => String.eqb s "left" || String.eqb s "right") sides).

(** The body of the second loop; [items[0]] raises on an empty list. *)
Definition check_step (incomplete : option (list incomplete_pair))
    (entry : string * list side_item) : option (list incomplete_pair) :=
  let '(base, items) := entry in
  match incomplete with
  | None => None
  | Some acc =>
      let sides := map item_side items in
      if sides_incomplete sides then
        let missing := if str_in "left" sides then "right" else "left" in
        match items with
        | [] => None
        | first :: _ =>
            Some (acc ++ [mk_incomplete base missing (map item_name items)
                                        (item_region first)])
        end
      else Some acc
  end.

(** [validate_bilateral_pairs]; [None] when it raises. *)
Definition validate_bilateral_pairs (reg : registry) : option (list incomplete_pair) :=
  let structures := get_all_structure_names reg in
  let by_base := fold_left group_step structures [] in
  fold_left check_step by_base (Some []).

(** [normalize_mesh_id] of V10.4, which has no [is_bilateral]. *)
Definition normalize_mesh_id (name : string) : string :=
  let clean := PyStr.lower name in
  let '(clean, side_suffix) := split_side_suffix clean in
  let clean := normalize_characters clean in
  if opt_truthy side_suffix
  then match side_suffix with
       | Some sfx => (clean ++ sfx)%string
       | None => clean
       end
  else clean.

(** What [by_base] holds for a base name after the first loop of
    [validate_bilateral_pairs] has gone through [names]. *)
Definition group_ok (names : dict string) (b : string)
    (entry : option (list side_item)) : Prop :=
  match entry with
  | Some items =>
      items <> [] /\
      (forall it, In it items ->
         (item_name it = (b ++ ".l")%string /\ item_side it = "left"%string /\
          In (b ++ ".l")%string (keys names)) \/
         (item_name it = (b ++ ".r")%string /\ item_side it = "right"%string /\
          In (b ++ ".r")%string (keys names))) /\
      (In (b ++ ".l")%string (keys names) -> In "left"%string (map item_side items)) /\
      (In (b ++ ".r")%string (keys names) -> In "right"%string (map item_side items))
  | None =>
      ~ In (b ++ ".l")%string (keys names) /\ ~ In (b ++ ".r")%string (keys names)
  end.

(** The element of [incomplete] for a group. *)
Definition report_of (entry : string * list side_item) : incomplete_pair :=
  mk_incomplete (fst entry)
    (if str_in "left" (map item_side (snd entry)) then "right" else "left")
    (map item_name (snd entry))
    (match snd entry with [] => ""%string | first :: _ => item_region first end).

End V10Registry.

(** Whether [find_structure_in_blender] finds an object for a name. *)
Definition resolves {H : Host} (s : Scene) (name : string) : bool :=
  match find_structure_in_blender s name with
  | Some _ => true
  | None => false
  end.

(** ** One structure in the loop *)

Section StepSpec.

Context {H : Host}.

Variable bilateral_pairs : dict pair_info.
Variable precomputed_transforms : dict transform.
Variable export_collection : Collection.

(** [base_id] of the loop body for a registry name. *)
Definition entry_base_id (registry_name : string) : string :=
  normalize_mesh_id registry_name
    (mem bilateral_pairs (fst (extract_side_and_base registry_name))).

(** [mesh_id] of the loop body, the run being in state [rs]. *)
Definition entry_mesh_id (rs : run_state) (registry_name : string) : string :=
  allocate_mesh_id (used_ids rs) (entry_base_id registry_name).

(** The copy of a structure whose round of the loop raises nothing up to
    [copy.name = mesh_id]: the processing function returns it, and it takes
    its mesh id as name.  [None] when one of the two raises. *)
Definition entry_processed (rs : run_state) (entry : string * Obj) (s : Scene)
  : option Obj :=
  let '(registry_name, original) := entry in
  match process_mesh original export_collection
          (get precomputed_transforms registry_name) s with
  | (s1, Ok (Some copy, _)) =>
      match set_name copy (entry_mesh_id rs registry_name) s1 with
      | (_, Ok _) => Some copy
      | (_, Raised) => None
      end
  | (_, Ok (None, _)) => None
  | (_, Raised) => None
  end.

End StepSpec.

Section RunSteps.

Context {H : Host}.

Variable reg : registry.
Variable s : Scene.
Variable export_collection : Collection.
Variable s0 : Scene.

(** The loop of [export_torso] for the registry [reg] and the session [s]
    of the call, run over [entries] from the session [s0] with the export
    collection [export_collection]. *)
Definition loop_on (entries : dict Obj) : Scene * run_state :=
  export_loop (find_bilateral_pairs (get_all_structure_names reg)) (export_set reg)
              (compute_structure_layers (found_in reg s)) (snapshot_of reg s)
              export_collection entries initial_run s0.

(** [base_id] and [mesh_id] of a name in that loop. *)
Definition base_id_of (registry_name : string) : string :=
  entry_base_id (find_bilateral_pairs (get_all_structure_names reg)) registry_name.

Definition id_for (rs : run_state) (registry_name : string) : string :=
  entry_mesh_id (find_bilateral_pairs (get_all_structure_names reg)) rs registry_name.

(** The copy of [(registry_name, original)] when its round, which comes
    after the rounds of [pre], raises nothing. *)
Definition processed (pre : dict Obj) (registry_name : string) (original : Obj)
  : option Obj :=
  entry_processed (find_bilateral_pairs (get_all_structure_names reg))
                  (snapshot_of reg s) export_collection
                  (snd (loop_on pre)) (registry_name, original) (fst (loop_on pre)).

End RunSteps.

(** * Properties *)

Unset Implicit Arguments.

(** ** Strings *)

Module PyStrFacts.
Import PyStr.

Lemma length_app (s1 s2 : string) :
  String.length (s1 ++ s2) = String.length s1 + String.length s2.
Proof. induction s1 as [|a s1 IH]; simpl; [reflexivity | now rewrite IH]. Qed.

Lemma append_assoc (s1 s2 s3 : string) :
  ((s1 ++ s2) ++ s3 = s1 ++ (s2 ++ s3))%string.
Proof. induction s1 as [|a s1 IH]; simpl; [reflexivity | now rewrite IH]. Qed.

Lemma append_inj (p q s1 s2 : string) :
  String.length s1 = String.length s2 ->
  (p ++ s1 = q ++ s2)%string -> p = q /\ s1 = s2.
Proof.
  revert q. induction p as [|a p IH]; intros q Hlen Heq.
  - destruct q as [|b q]; simpl in *.
    + auto.
    + exfalso. apply (f_equal String.length) in Heq. simpl in Heq.
      rewrite length_app in Heq. lia.
  - destruct q as [|b q]; simpl in *.
    + exfalso. apply (f_equal String.length) in Heq. simpl in Heq.
      rewrite length_app in Heq. lia.
    + injection Heq as Hab Hrest. destruct (IH q Hlen Hrest) as [-> ->].
      subst. auto.
Qed.

Lemma endswith_nil (suf : string) :
  endswith "" suf = String.eqb "" suf.
Proof. simpl. now destruct suf. Qed.

Lemma endswith_cons (a : ascii) (s suf : string) :
  endswith (String a s) suf =
  if String.eqb (String a s) suf then true else endswith s suf.
Proof. reflexivity. Qed.

Lemma endswith_app (p suf : string) : endswith (p ++ suf) suf = true.
Proof.
  induction p as [|a p IH].
  - change ("" ++ suf)%string with suf. destruct suf as [|b suf].
    + reflexivity.
    + rewrite endswith_cons. now rewrite String.eqb_refl.
  - change (String a p ++ suf)%string with (String a (p ++ suf)).
    rewrite endswith_cons.
    destruct (String.eqb (String a (p ++ suf)) suf); [reflexivity | exact IH].
Qed.

Lemma endswith_inv (s suf : string) :
  endswith s suf = true -> exists p, s = (p ++ suf)%string.
Proof.
  induction s as [|a s IH].
  - rewrite endswith_nil. intros Heq. apply String.eqb_eq in Heq. subst.
    exists "". reflexivity.
  - rewrite endswith_cons.
    destruct (String.eqb_spec (String a s) suf) as [<- | _].
    + intros _. exists "". reflexivity.
    + intros Hs. destruct (IH Hs) as [p ->]. exists (String a p). reflexivity.
Qed.

Lemma endswith_iff (s suf : string) :
  endswith s suf = true <-> exists p, s = (p ++ suf)%string.
Proof.
  split; [apply endswith_inv | intros [p ->]; apply endswith_app].
Qed.

Lemma substring_prefix (p s : string) :
  substring 0 (String.length p) (p ++ s) = p.
Proof.
  induction p as [|a p IH]; simpl.
  - destruct s; reflexivity.
  - now rewrite IH.
Qed.

Lemma drop_last_app (p suf : string) :
  drop_last (String.length suf) (p ++ suf) = p.
Proof.
  unfold drop_last. rewrite length_app.
  replace (String.length p + String.length suf - String.length suf)
    with (String.length p) by lia.
  apply substring_prefix.
Qed.

Lemma startswith_iff (s p : string) :
  startswith s p = true <-> exists r, s = (p ++ r)%string.
Proof.
  revert s. induction p as [|a p IH]; intros s; simpl.
  - split; [intros _; exists s; reflexivity | intros _; destruct s; reflexivity].
  - destruct s as [|b s]; simpl.
    + split; [discriminate | intros [r Hr]; discriminate].
    + rewrite andb_true_iff, IH. split.
      * intros [Hab [r ->]]. apply Ascii.eqb_eq in Hab. subst. now exists r.
      * intros [r Hr]. injection Hr as -> ->. split.
        -- apply Ascii.eqb_refl.
        -- now exists r.
Qed.

Lemma contains_nil (w : string) : contains "" w = startswith "" w.
Proof. simpl. apply orb_false_r. Qed.

Lemma contains_cons (a : ascii) (s w : string) :
  contains (String a s) w = startswith (String a s) w || contains s w.
Proof. reflexivity. Qed.

(** [w in s] holds exactly when [s] is [p ++ w ++ r]. *)
Lemma contains_iff (s w : string) :
  contains s w = true <-> exists p r, s = (p ++ w ++ r)%string.
Proof.
  induction s as [|a s IH].
  - rewrite contains_nil, startswith_iff. split.
    + intros [r Hr]. exists "", r. exact Hr.
    + intros [p [r Hr]]. destruct p; simpl in Hr.
      * now exists r.
      * discriminate.
  - rewrite contains_cons, orb_true_iff, startswith_iff, IH. split.
    + intros [[r Hr] | [p [r Hr]]].
      * exists "", r. exact Hr.
      * exists (String a p), r. simpl. now rewrite Hr.
    + intros [p [r Hr]]. destruct p as [|b p]; simpl in Hr.
      * left. now exists r.
      * right. injection Hr as _ Hr. now exists p, r.
Qed.

Lemma any_in_true (s : string) (ws : list string) :
  any_in s ws = true <-> exists w, In w ws /\ contains s w = true.
Proof. unfold any_in. apply existsb_exists. Qed.

End PyStrFacts.

(** ** Dictionaries *)

Module PyDictFacts.

Section Dict.
Context {V : Type}.
Implicit Types (d : dict V) (k : string) (v : V).

Lemma get_set_same d k v : get (set d k v) k = Some v.
Proof.
  induction d as [|[k' v'] d IH]; simpl.
  - now rewrite String.eqb_refl.
  - destruct (String.eqb_spec k' k) as [-> | Hne]; simpl.
    + now rewrite String.eqb_refl.
    + destruct (String.eqb_spec k' k); [contradiction | exact IH].
Qed.

Lemma get_set_other d k k' v : k <> k' -> get (set d k v) k' = get d k'.
Proof.
  intros Hne. induction d as [|[k0 v0] d IH]; simpl.
  - destruct (String.eqb_spec k k'); [contradiction | reflexivity].
  - destruct (String.eqb_spec k0 k) as [-> | Hk]; simpl.
    + destruct (String.eqb_spec k k'); [contradiction | reflexivity].
    + now rewrite IH.
Qed.

Lemma mem_in d k : mem d k = true <-> In k (keys d).
Proof.
  unfold mem. induction d as [|[k' v'] d IH]; simpl.
  - split; [discriminate | contradiction].
  - destruct (String.eqb_spec k' k) as [-> | Hne].
    + split; auto.
    + rewrite IH. split; [auto | intros [H | H]; [contradiction | exact H]].
Qed.

Lemma mem_false d k : mem d k = false <-> ~ In k (keys d).
Proof.
  rewrite <- mem_in. destruct (mem d k); split; intros; congruence.
Qed.

Lemma get_none d k : get d k = None <-> ~ In k (keys d).
Proof.
  rewrite <- mem_false. unfold mem. destruct (get d k); split; intros; congruence.
Qed.

Lemma get_some_in d k v : get d k = Some v -> In (k, v) d.
Proof.
  induction d as [|[k' v'] d IH]; simpl; [discriminate|].
  destruct (String.eqb_spec k' k) as [-> | Hne].
  - intros [= ->]. now left.
  - intros Hg. right. now apply IH.
Qed.

Lemma in_get_some d k v : wf d -> In (k, v) d -> get d k = Some v.
Proof.
  unfold wf. induction d as [|[k' v'] d IH]; simpl; [contradiction|].
  intros Hnd [Heq | Hin].
  - injection Heq as -> ->. now rewrite String.eqb_refl.
  - inversion Hnd as [|? ? Hnotin Hnd']; subst.
    destruct (String.eqb_spec k' k) as [-> | Hne].
    + exfalso. apply Hnotin. change k with (fst (k, v)). now apply in_map.
    + now apply IH.
Qed.

Lemma set_absent d k v : mem d k = false -> set d k v = d ++ [(k, v)].
Proof.
  unfold mem. induction d as [|[k' v'] d IH]; simpl; [reflexivity|].
  destruct (String.eqb_spec k' k) as [-> | Hne]; [discriminate|].
  intros Hm. now rewrite IH.
Qed.

Lemma keys_set_present d k v : mem d k = true -> keys (set d k v) = keys d.
Proof.
  unfold mem. induction d as [|[k' v'] d IH]; simpl; [discriminate|].
  destruct (String.eqb_spec k' k) as [-> | Hne]; simpl; [reflexivity|].
  intros Hm. now rewrite IH.
Qed.

Lemma keys_set d k v :
  keys (set d k v) = if mem d k then keys d else keys d ++ [k].
Proof.
  destruct (mem d k) eqn:Hm.
  - now apply keys_set_present.
  - rewrite set_absent by exact Hm. unfold keys. now rewrite map_app.
Qed.

Lemma in_keys_set d k v k' : In k' (keys (set d k v)) <-> k' = k \/ In k' (keys d).
Proof.
  rewrite keys_set. destruct (mem d k) eqn:Hm.
  - apply mem_in in Hm. split; [auto | intros [-> | H]; auto].
  - rewrite in_app_iff. simpl. split.
    + intros [H | [H | []]]; auto.
    + intros [H | H]; auto.
Qed.

Lemma wf_set d k v : wf d -> wf (set d k v).
Proof.
  unfold wf. rewrite keys_set. destruct (mem d k) eqn:Hm; [auto|].
  intros Hnd. apply mem_false in Hm.
  apply NoDup_app; [exact Hnd | repeat constructor; simpl; tauto |].
  intros x Hx [<- | []]. contradiction.
Qed.

Lemma in_set_inv d k v k' v' :
  In (k', v') (set d k v) -> (k' = k /\ v' = v) \/ In (k', v') d.
Proof.
  induction d as [|[k0 v0] d IH]; simpl.
  - intros [[= <- <-] | []]. now left.
  - destruct (String.eqb_spec k0 k) as [-> | Hne]; simpl.
    + intros [[= <- <-] | Hin]; [now left | right; now right].
    + intros [Heq | Hin]; [right; now left|].
      destruct (IH Hin) as [Hl | Hr]; [now left | right; now right].
Qed.

Lemma wf_nil : wf (@nil (string * V)).
Proof. constructor. Qed.

End Dict.

Lemma set_mem_in (s : list string) (x : string) : set_mem s x = true <-> In x s.
Proof.
  unfold set_mem. rewrite existsb_exists. split.
  - intros [y [Hy Heq]]. apply String.eqb_eq in Heq. now subst.
  - intros Hin. exists x. split; [exact Hin | apply String.eqb_refl].
Qed.

Lemma set_mem_false (s : list string) (x : string) : set_mem s x = false <-> ~ In x s.
Proof.
  rewrite <- set_mem_in. destruct (set_mem s x); split; intros; congruence.
Qed.

Lemma set_mem_snoc (l : list string) (x y : string) :
  set_mem (l ++ [y]) x = set_mem l x || String.eqb x y.
Proof. unfold set_mem. rewrite existsb_app. simpl. now rewrite orb_false_r. Qed.

Lemma keys_snoc {V} (l : dict V) (kv : string * V) :
  keys (l ++ [kv]) = keys l ++ [fst kv].
Proof. unfold keys. now rewrite map_app. Qed.

Lemma keys_snoc_cons {V} (pre post : dict V) (k : string) (v : V) :
  keys (pre ++ (k, v) :: post) = keys pre ++ k :: keys post.
Proof. unfold keys. now rewrite map_app. Qed.

End PyDictFacts.

(** ** Side analysis, pairs and the export filter *)

Module Bilateral.
Import PyStrFacts PyDictFacts.

Lemma extract_left (b : string) :
  extract_side_and_base (b ++ ".l") = (b, "left").
Proof.
  unfold extract_side_and_base. rewrite endswith_app.
  f_equal. exact (drop_last_app b ".l").
Qed.

Lemma suffix_l_not_r (b : string) : PyStr.endswith (b ++ ".r") ".l" = false.
Proof.
  destruct (PyStr.endswith (b ++ ".r") ".l") eqn:He; [|reflexivity].
  apply endswith_inv in He. destruct He as [p Hp].
  apply append_inj in Hp; [|reflexivity]. destruct Hp as [_ Hp]. discriminate.
Qed.

Lemma extract_right (b : string) :
  extract_side_and_base (b ++ ".r") = (b, "right").
Proof.
  unfold extract_side_and_base. rewrite suffix_l_not_r, endswith_app.
  f_equal. exact (drop_last_app b ".r").
Qed.

Lemma extract_midline (name : string) :
  PyStr.endswith name ".l" = false -> PyStr.endswith name ".r" = false ->
  extract_side_and_base name = (name, "midline").
Proof. unfold extract_side_and_base. now intros -> ->. Qed.

(** The three outcomes of [extract_side_and_base]. *)
Lemma extract_cases (name : string) :
  (exists b, name = (b ++ ".l")%string /\ extract_side_and_base name = (b, "left")) \/
  (exists b, name = (b ++ ".r")%string /\ extract_side_and_base name = (b, "right")) \/
  (PyStr.endswith name ".l" = false /\ PyStr.endswith name ".r" = false /\
   extract_side_and_base name = (name, "midline")).
Proof.
  destruct (PyStr.endswith name ".l") eqn:Hl.
  - left. apply endswith_inv in Hl. destruct Hl as [b ->].
    exists b. split; [reflexivity | apply extract_left].
  - destruct (PyStr.endswith name ".r") eqn:Hr.
    + right; left. apply endswith_inv in Hr. destruct Hr as [b ->].
      exists b. split; [reflexivity | apply extract_right].
    + right; right. repeat split; auto. now apply extract_midline.
Qed.

Lemma sided_neq (b b' : string) : (b ++ ".l")%string <> (b' ++ ".r")%string.
Proof.
  intros Heq. apply append_inj in Heq; [|reflexivity].
  destruct Heq as [_ Heq]. discriminate.
Qed.

Lemma left_inj (b b' : string) : (b ++ ".l" = b' ++ ".l")%string -> b = b'.
Proof. intros Heq. now apply append_inj in Heq. Qed.

Lemma right_inj (b b' : string) : (b ++ ".r" = b' ++ ".r")%string -> b = b'.
Proof. intros Heq. now apply append_inj in Heq. Qed.

(** *** [by_base] *)

Lemma get_by_base_update_same (bb : dict pair_info) b f :
  get (by_base_update bb b f) b =
  Some (f (match get bb b with Some i => i | None => default_info end)).
Proof. unfold by_base_update. destruct (get bb b); apply get_set_same. Qed.

Lemma get_by_base_update_other (bb : dict pair_info) b b' f :
  b <> b' -> get (by_base_update bb b f) b' = get bb b'.
Proof. intros Hne. unfold by_base_update. destruct (get bb b); now apply get_set_other. Qed.

Lemma wf_by_base_update (bb : dict pair_info) b f :
  wf bb -> wf (by_base_update bb b f).
Proof. intros Hwf. unfold by_base_update. destruct (get bb b); now apply wf_set. Qed.




Lemma eqb_ll (b b' : string) :
  String.eqb (b ++ ".l") (b' ++ ".l") = String.eqb b b'.
Proof.
  destruct (String.eqb_spec b b') as [-> | Hne].
  - apply String.eqb_refl.
  - apply String.eqb_neq. intros Heq. now apply left_inj in Heq.
Qed.

Lemma eqb_rr (b b' : string) :
  String.eqb (b ++ ".r") (b' ++ ".r") = String.eqb b b'.
Proof.
  destruct (String.eqb_spec b b') as [-> | Hne].
  - apply String.eqb_refl.
  - apply String.eqb_neq. intros Heq. now apply right_inj in Heq.
Qed.

Lemma eqb_lr (b b' : string) : String.eqb (b ++ ".l") (b' ++ ".r") = false.
Proof. apply String.eqb_neq. apply sided_neq. Qed.

Lemma eqb_rl (b b' : string) : String.eqb (b ++ ".r") (b' ++ ".l") = false.
Proof. apply String.eqb_neq. intros Heq. symmetry in Heq. now apply sided_neq in Heq. Qed.

Lemma eqb_suffix_absent (b name suf : string) :
  PyStr.endswith name suf = false -> String.eqb (b ++ suf) name = false.
Proof.
  intros Hno. apply String.eqb_neq. intros <-.
  now rewrite endswith_app in Hno.
Qed.

Lemma find_pairs_step_left (bb : dict pair_info) b region :
  find_pairs_step bb ((b ++ ".l")%string, region) =
  by_base_update (by_base_update bb b (with_left (b ++ ".l")))
                 b (with_region region).
Proof. unfold find_pairs_step. now rewrite extract_left. Qed.

Lemma find_pairs_step_right (bb : dict pair_info) b region :
  find_pairs_step bb ((b ++ ".r")%string, region) =
  by_base_update (by_base_update bb b (with_right (b ++ ".r")))
                 b (with_region region).
Proof. unfold find_pairs_step. now rewrite extract_right. Qed.

Lemma find_pairs_step_midline (bb : dict pair_info) name region :
  PyStr.endswith name ".l" = false -> PyStr.endswith name ".r" = false ->
  find_pairs_step bb (name, region) = bb.
Proof.
  intros Hl Hr. unfold find_pairs_step. now rewrite extract_midline.
Qed.

(** After the first loop of [find_bilateral_pairs], [by_base] is a
    dictionary that records, for every base name, which of its two sided
    names the registry has. *)
Lemma by_base_inv (names : dict string) :
  wf (fold_left find_pairs_step names []) /\
  forall b, by_base_entry_ok names b (get (fold_left find_pairs_step names []) b).
Proof.
  induction names as [|[name region] l IH] using rev_ind.
  - split; [apply wf_nil | intros b; simpl; auto].
  - rewrite fold_left_app. cbn [fold_left].
    destruct IH as [Hwf IH].
    set (bb := fold_left find_pairs_step l []) in *.
    destruct (extract_cases name) as [[b0 [-> Hext]] | [[b0 [-> Hext]] | [Hl [Hr Hext]]]].
    + rewrite find_pairs_step_left. split.
      { now repeat apply wf_by_base_update. }
      intros b. unfold by_base_entry_ok. rewrite keys_snoc. simpl fst.
      rewrite !set_mem_snoc, eqb_ll, eqb_rl.
      destruct (String.eqb_spec b b0) as [-> | Hne].
      * rewrite !get_by_base_update_same. simpl.
        rewrite orb_true_r, orb_false_r. split; [reflexivity|].
        specialize (IH b0). unfold by_base_entry_ok in IH.
        destruct (get bb b0) as [i|]; simpl.
        -- apply IH.
        -- destruct IH as [_ ->]. reflexivity.
      * rewrite !get_by_base_update_other by congruence.
        rewrite !orb_false_r. apply IH.
    + rewrite find_pairs_step_right. split.
      { now repeat apply wf_by_base_update. }
      intros b. unfold by_base_entry_ok. rewrite keys_snoc. simpl fst.
      rewrite !set_mem_snoc, eqb_rr, eqb_lr.
      destruct (String.eqb_spec b b0) as [-> | Hne].
      * rewrite !get_by_base_update_same. simpl.
        rewrite orb_true_r, orb_false_r. split; [|reflexivity].
        specialize (IH b0). unfold by_base_entry_ok in IH.
        destruct (get bb b0) as [i|]; simpl.
        -- apply IH.
        -- destruct IH as [-> _]. reflexivity.
      * rewrite !get_by_base_update_other by congruence.
        rewrite !orb_false_r. apply IH.
    + rewrite find_pairs_step_midline by assumption. split; [exact Hwf|].
      intros b. unfold by_base_entry_ok. rewrite keys_snoc. simpl fst.
      rewrite !set_mem_snoc.
      rewrite (eqb_suffix_absent b name ".l" Hl), (eqb_suffix_absent b name ".r" Hr).
      rewrite !orb_false_r. apply IH.
Qed.

(** *** The complete pairs *)

Lemma pairs_fold_mem (by_base : dict pair_info) (acc : dict pair_info) (b : string) :
  mem (fold_left
         (fun bilateral_pairs (item : string * pair_info) =>
            let '(base, info) := item in
            if opt_truthy (info_left info) && opt_truthy (info_right info)
            then set bilateral_pairs base info
            else bilateral_pairs)
         by_base acc) b = true <->
  mem acc b = true \/
  exists info, In (b, info) by_base /\
               opt_truthy (info_left info) && opt_truthy (info_right info) = true.
Proof.
  revert acc. induction by_base as [|[b' i'] l IH]; intros acc; simpl.
  - split; [auto | intros [H | [info [[] _]]]; exact H].
  - rewrite IH. clear IH.
    destruct (opt_truthy (info_left i') && opt_truthy (info_right i')) eqn:Hc.
    + rewrite !mem_in, in_keys_set. split.
      * intros [[-> | Hin] | [info [Hin Hok]]].
        -- right. exists i'. auto.
        -- now left.
        -- right. exists info. auto.
      * intros [Hin | [info [[Heq | Hin] Hok]]].
        -- left. now right.
        -- injection Heq as -> ->. left. now left.
        -- right. exists info. auto.
    + split.
      * intros [Hin | [info [Hin Hok]]]; [now left|].
        right. exists info. auto.
      * intros [Hin | [info [[Heq | Hin] Hok]]]; [now left | |].
        -- injection Heq as -> ->. congruence.
        -- right. exists info. auto.
Qed.

Lemma truthy_sided (b suf : string) :
  suf <> ""%string -> PyStr.truthy (b ++ suf) = true.
Proof.
  intros Hs. destruct b; simpl; [|reflexivity].
  destruct suf; [contradiction | reflexivity].
Qed.

(** A base name is a key of [find_bilateral_pairs] exactly when the
    registry has both its left and its right name. *)
Lemma pairs_mem_iff (names : dict string) (b : string) :
  mem (find_bilateral_pairs names) b = true <->
  In (b ++ ".l")%string (keys names) /\ In (b ++ ".r")%string (keys names).
Proof.
  unfold find_bilateral_pairs. rewrite pairs_fold_mem.
  destruct (by_base_inv names) as [Hwf Hinv].
  specialize (Hinv b). unfold by_base_entry_ok in Hinv.
  rewrite <- !set_mem_in. split.
  - intros [Hm | [info [Hin Hok]]]; [discriminate|].
    apply in_get_some in Hin; [|exact Hwf]. rewrite Hin in Hinv.
    destruct Hinv as [Hl Hr]. apply andb_true_iff in Hok. destruct Hok as [Ho1 Ho2].
    rewrite Hl in Ho1. rewrite Hr in Ho2.
    destruct (set_mem (keys names) (b ++ ".l")); [|discriminate].
    destruct (set_mem (keys names) (b ++ ".r")); [|discriminate]. auto.
  - intros [Hl Hr]. right. rewrite Hl, Hr in Hinv.
    destruct (get (fold_left find_pairs_step names []) b) as [info|] eqn:Hg.
    + exists info. split; [now apply get_some_in|].
      destruct Hinv as [-> ->]. simpl.
      rewrite !truthy_sided by discriminate. reflexivity.
    + destruct Hinv; discriminate.
Qed.

Lemma pairs_fold_in (by_base acc : dict pair_info) (b : string) (info : pair_info) :
  In (b, info)
     (fold_left
        (fun bilateral_pairs (item : string * pair_info) =>
           let '(base, info) := item in
           if opt_truthy (info_left info) && opt_truthy (info_right info)
           then set bilateral_pairs base info
           else bilateral_pairs)
        by_base acc) ->
  In (b, info) acc \/
  (In (b, info) by_base /\
   opt_truthy (info_left info) && opt_truthy (info_right info) = true).
Proof.
  revert acc. induction by_base as [|[b' i'] l IH]; intros acc; simpl.
  - auto.
  - intros Hin. apply IH in Hin. destruct Hin as [Hin | [Hin Hok]].
    + destruct (opt_truthy (info_left i') && opt_truthy (info_right i')) eqn:Hc.
      * apply in_set_inv in Hin. destruct Hin as [[-> ->] | Hin]; auto.
      * auto.
    + auto.
Qed.

(** Every pair that [find_bilateral_pairs] returns names the left and the
    right name of its base. *)
Lemma pairs_entry (names : dict string) (b : string) (info : pair_info) :
  In (b, info) (find_bilateral_pairs names) ->
  info_left info = Some (b ++ ".l")%string /\
  info_right info = Some (b ++ ".r")%string.
Proof.
  unfold find_bilateral_pairs. intros Hin.
  apply pairs_fold_in in Hin. destruct Hin as [[] | [Hin Hok]].
  destruct (by_base_inv names) as [Hwf Hinv].
  apply in_get_some in Hin; [|exact Hwf].
  specialize (Hinv b). rewrite Hin in Hinv. destruct Hinv as [Hl Hr].
  apply andb_true_iff in Hok. destruct Hok as [Ho1 Ho2].
  rewrite Hl in Ho1. rewrite Hr in Ho2. rewrite Hl, Hr.
  destruct (set_mem (keys names) (b ++ ".l")); [|discriminate].
  destruct (set_mem (keys names) (b ++ ".r")); [|discriminate]. auto.
Qed.

(** *** [filter_for_export] *)

Lemma filter_step_kept (pairs : dict pair_info) acc name region :
  filter_step pairs acc (name, region) =
  if kept_for_export pairs name
  then (set (fst acc) name region, snd acc)
  else (fst acc, snd acc ++ [name]).
Proof.
  unfold filter_step, kept_for_export. destruct acc as [filtered skipped].
  destruct (extract_side_and_base name) as [base side]. simpl.
  destruct (String.eqb side "right"); simpl; [|reflexivity].
  destruct (mem pairs base); reflexivity.
Qed.

(** The export set is a dictionary with exactly the kept names of the
    registry, and the skipped list has exactly the others. *)
Lemma filter_for_export_spec (names : dict string) (pairs : dict pair_info) :
  wf (fst (filter_for_export names pairs)) /\
  (forall k, In k (keys (fst (filter_for_export names pairs))) <->
             In k (keys names) /\ kept_for_export pairs k = true) /\
  (forall k, In k (snd (filter_for_export names pairs)) <->
             In k (keys names) /\ kept_for_export pairs k = false).
Proof.
  unfold filter_for_export.
  induction names as [|[name region] l IH] using rev_ind.
  - simpl. split; [apply wf_nil|]. split; intros k; split; try tauto; intros [[] _].
  - rewrite fold_left_app. cbn [fold_left]. rewrite filter_step_kept.
    destruct IH as [Hwf [Hf Hs]].
    set (acc := fold_left (filter_step pairs) l ([], [])) in *.
    rewrite keys_snoc. simpl fst.
    destruct (kept_for_export pairs name) eqn:Hk; simpl.
    + split; [now apply wf_set|]. split; intros k.
      * rewrite in_keys_set, Hf, in_app_iff. simpl. split.
        -- intros [-> | [H1 H2]]; auto.
        -- intros [[H1 | [<- | []]] H2]; auto.
      * rewrite Hs, in_app_iff. simpl. split.
        -- intros [H1 H2]; auto.
        -- intros [[H1 | [<- | []]] H2]; [auto | congruence].
    + split; [exact Hwf|]. split; intros k.
      * rewrite Hf, in_app_iff. simpl. split.
        -- intros [H1 H2]; auto.
        -- intros [[H1 | [<- | []]] H2]; [auto | congruence].
      * rewrite !in_app_iff, Hs. simpl. split.
        -- intros [[H1 H2] | [<- | []]]; auto.
        -- intros [[H1 | [<- | []]] H2]; auto.
Qed.

Lemma kept_left (pairs : dict pair_info) (b : string) :
  kept_for_export pairs (b ++ ".l") = true.
Proof. unfold kept_for_export. now rewrite extract_left. Qed.

Lemma kept_right (pairs : dict pair_info) (b : string) :
  kept_for_export pairs (b ++ ".r") = negb (mem pairs b).
Proof. unfold kept_for_export. now rewrite extract_right. Qed.

Lemma kept_midline (pairs : dict pair_info) (name : string) :
  PyStr.endswith name ".l" = false -> PyStr.endswith name ".r" = false ->
  kept_for_export pairs name = true.
Proof. intros Hl Hr. unfold kept_for_export. now rewrite extract_midline. Qed.

(** Of a complete pair the filter keeps the left member and skips the
    right one. *)
Lemma complete_pair_filtered (names : dict string) (base : string) :
  In (base ++ ".l")%string (keys names) ->
  In (base ++ ".r")%string (keys names) ->
  mem (find_bilateral_pairs names) base = true /\
  In (base ++ ".l")%string
     (keys (fst (filter_for_export names (find_bilateral_pairs names)))) /\
  ~ In (base ++ ".r")%string
       (keys (fst (filter_for_export names (find_bilateral_pairs names)))) /\
  In (base ++ ".r")%string
     (snd (filter_for_export names (find_bilateral_pairs names))).
Proof.
  intros Hl Hr.
  assert (Hpair : mem (find_bilateral_pairs names) base = true)
    by (apply pairs_mem_iff; auto).
  destruct (filter_for_export_spec names (find_bilateral_pairs names))
    as [_ [Hkept Hskip]].
  split; [exact Hpair|]. split; [|split].
  - apply Hkept. split; [exact Hl | apply kept_left].
  - intros Hin. apply Hkept in Hin. destruct Hin as [_ Hk].
    rewrite kept_right, Hpair in Hk. discriminate.
  - apply Hskip. split; [exact Hr|]. now rewrite kept_right, Hpair.
Qed.

(** *** The registry *)

Lemma wf_add_names (region : string) (d : dict string) (names : list string) :
  wf d -> wf (add_names region d names).
Proof.
  unfold add_names. revert d. induction names as [|n l IH]; intros d Hwf; simpl.
  - exact Hwf.
  - apply IH. now apply wf_set.
Qed.

(** [get_all_structure_names] returns a dictionary. *)
Lemma wf_get_all_structure_names (reg : registry) : wf (get_all_structure_names reg).
Proof.
  unfold get_all_structure_names.
  induction reg as [|[region data] l IH] using rev_ind.
  - apply wf_nil.
  - rewrite fold_left_app. cbn [fold_left].
    destruct (PyStr.startswith region "_"); [exact IH|].
    destruct data; auto using wf_add_names.
Qed.

End Bilateral.

(** ** Identifier allocation *)

Module Allocator.
Import PyStrFacts PyDictFacts.

Lemma unorm_nonnil (d : Decimal.uint) : Decimal.unorm d <> Decimal.Nil.
Proof. unfold Decimal.unorm. destruct (Decimal.nzhead d); discriminate. Qed.

Lemma to_uint_nonnil (n : nat) : Nat.to_uint n <> Decimal.Nil.
Proof.
  rewrite <- (DecimalNat.Unsigned.of_to n) at 1.
  rewrite DecimalNat.Unsigned.to_of. apply unorm_nonnil.
Qed.

(** Decimal numerals of different numbers differ. *)
Lemma of_nat_inj (n m : nat) : PyStr.of_nat n = PyStr.of_nat m -> n = m.
Proof.
  unfold PyStr.of_nat. intros Heq.
  apply (f_equal NilZero.uint_of_string) in Heq.
  rewrite !NilZero.usu in Heq by apply to_uint_nonnil.
  injection Heq as Heq. now apply DecimalNat.Unsigned.to_uint_inj.
Qed.

Lemma append_cancel_l (p x y : string) : (p ++ x = p ++ y)%string -> x = y.
Proof.
  induction p as [|a p IH]; simpl; intros Heq; [exact Heq|].
  injection Heq as Heq. now apply IH.
Qed.

Lemma candidate_inj (b : string) (j k : nat) :
  candidate b j = candidate b k -> j = k.
Proof.
  destruct j as [|j], k as [|k]; simpl; intros Heq.
  - reflexivity.
  - exfalso. apply (f_equal String.length) in Heq.
    rewrite length_app in Heq. simpl in Heq. lia.
  - exfalso. apply (f_equal String.length) in Heq.
    rewrite length_app in Heq. simpl in Heq. lia.
  - apply append_cancel_l in Heq. injection Heq as Heq.
    now apply of_nat_inj.
Qed.

Lemma NoDup_candidates (b : string) (k n : nat) :
  NoDup (map (candidate b) (seq k n)).
Proof.
  apply Injective_map_NoDup.
  - intros x y. apply candidate_inj.
  - apply seq_NoDup.
Qed.

(** The loop tries the candidates in order and stops at the first one that
    is not in use, or when the fuel is spent. *)
Lemma alloc_loop_spec (used : list string) (b : string) (fuel k : nat) :
  exists m, m <= fuel /\
    alloc_loop fuel used b (candidate b k) (S k) = candidate b (k + m) /\
    (forall j, k <= j < k + m -> In (candidate b j) used) /\
    (m < fuel -> ~ In (candidate b (k + m)) used).
Proof.
  revert k. induction fuel as [|fuel IH]; intros k.
  - exists 0. rewrite Nat.add_0_r. simpl. repeat split; try lia.
  - cbn [alloc_loop]. destruct (set_mem used (candidate b k)) eqn:Hm.
    + destruct (IH (S k)) as [m [Hle [Hres [Hin Hfree]]]].
      exists (S m). change (b ++ "_" ++ PyStr.of_nat (S k))%string with (candidate b (S k)).
      replace (k + S m) with (S k + m) by lia.
      repeat split; [lia | exact Hres | | intros; apply Hfree; lia].
      intros j Hj. destruct (Nat.eq_dec j k) as [-> | Hne].
      * now apply set_mem_in.
      * apply Hin. lia.
    + exists 0. rewrite Nat.add_0_r. repeat split; try lia.
      intros _. now apply set_mem_false.
Qed.

(** The fuel of [allocate_mesh_id] is enough: the loop ends on the first
    candidate that is not in use. *)
Lemma allocate_least (used : list string) (b : string) :
  exists m,
    allocate_mesh_id used b = candidate b m /\
    (forall j, j < m -> In (candidate b j) used) /\
    ~ In (candidate b m) used.
Proof.
  unfold allocate_mesh_id.
  destruct (alloc_loop_spec used b (S (List.length used)) 0)
    as [m [Hle [Hres [Hin Hfree]]]].
  simpl in Hres, Hin, Hfree. exists m. split; [exact Hres|].
  split; [intros j Hj; apply Hin; lia|].
  apply Hfree.
  destruct (Nat.eq_dec m (S (List.length used))) as [-> | Hne]; [|lia].
  exfalso.
  assert (Hincl : incl (map (candidate b) (seq 0 (S (List.length used)))) used).
  { intros x Hx. apply in_map_iff in Hx. destruct Hx as [j [<- Hj]].
    apply in_seq in Hj. apply Hin. lia. }
  apply NoDup_incl_length in Hincl; [|apply NoDup_candidates].
  rewrite length_map, length_seq in Hincl. lia.
Qed.

Lemma allocate_fresh (used : list string) (b : string) :
  ~ In (allocate_mesh_id used b) used.
Proof.
  destruct (allocate_least used b) as [m [-> [_ Hfree]]]. exact Hfree.
Qed.

Lemma allocate_unused (used : list string) (b : string) :
  ~ In b used -> allocate_mesh_id used b = b.
Proof.
  intros Hb. destruct (allocate_least used b) as [m [-> [Hin _]]].
  destruct m as [|m]; [reflexivity|].
  exfalso. apply Hb. apply (Hin 0). lia.
Qed.

Lemma allocate_first_suffix (used : list string) (b : string) :
  In b used -> ~ In (b ++ "_1")%string used ->
  allocate_mesh_id used b = (b ++ "_1")%string.
Proof.
  intros Hb H1. destruct (allocate_least used b) as [m [-> [Hin Hfree]]].
  destruct m as [|[|m]].
  - contradiction.
  - reflexivity.
  - exfalso. apply H1. apply (Hin 1). lia.
Qed.

End Allocator.

(** ** Anatomical type detection *)

Module Classifier.
Import PyStrFacts.

(** Takes the cascade of [get_anatomical_type] apart, one test at a time. *)
Ltac cascade :=
  repeat match goal with
         | |- context [if ?c then _ else _] => destruct c eqn:?
         end.

(** Every name gets one of the ten types. *)
Lemma get_anatomical_type_total (name : string) :
  In (get_anatomical_type name) anatomical_types.
Proof.
  unfold get_anatomical_type.
  generalize (PyStr.lower name). intros name_lower.
  cascade; simpl; tauto.
Qed.

(** The first three tests, in their order. *)
Lemma fascia_first (name : string) :
  PyStr.any_in (PyStr.lower name) fascia_keywords = true ->
  get_anatomical_type name = "fascia".
Proof. unfold get_anatomical_type. now intros ->. Qed.

Lemma tendon_second (name : string) :
  PyStr.any_in (PyStr.lower name) fascia_keywords = false ->
  PyStr.any_in (PyStr.lower name) ["tendon"; "sheath"] = true ->
  get_anatomical_type name = "tendon".
Proof. unfold get_anatomical_type. now intros -> ->. Qed.

Lemma capsule_third (name : string) :
  PyStr.any_in (PyStr.lower name) fascia_keywords = false ->
  PyStr.any_in (PyStr.lower name) ["tendon"; "sheath"] = false ->
  PyStr.contains (PyStr.lower name) "capsule" = true ->
  get_anatomical_type name = "capsule".
Proof.
  unfold get_anatomical_type. intros -> -> ->. now rewrite orb_true_r.
Qed.

(** [muscle] is answered only when none of the three earlier tests holds. *)
Lemma muscle_only_after (name : string) :
  get_anatomical_type name = "muscle" ->
  PyStr.any_in (PyStr.lower name) fascia_keywords = false /\
  PyStr.any_in (PyStr.lower name) ["tendon"; "sheath"] = false /\
  PyStr.contains (PyStr.lower name) "capsule" = false /\
  PyStr.any_in (PyStr.lower name) muscle_keywords = true.
Proof.
  unfold get_anatomical_type.
  generalize (PyStr.lower name). intros n.
  destruct (PyStr.any_in n fascia_keywords); [discriminate|].
  destruct (PyStr.any_in n ["tendon"; "sheath"]); [discriminate|].
  destruct (PyStr.contains n "articular capsule"); cbn [orb]; [discriminate|].
  destruct (PyStr.contains n "capsule"); [discriminate|].
  destruct (PyStr.any_in n muscle_keywords); [auto|].
  cascade; discriminate.
Qed.

(** All the keywords that the cascade looks for. *)
Lemma other_iff_no_keyword (name : string) :
  get_anatomical_type name = "other" <->
  PyStr.any_in (PyStr.lower name)
    (fascia_keywords ++ ["tendon"; "sheath"; "articular capsule"; "capsule"] ++
     muscle_keywords ++ bone_keywords ++ ligament_keywords ++
     cartilage_keywords ++
     ["membrane"; "bursa"; "bursae"; "frenula capsulae"; "capsule of"]) = false.
Proof.
  unfold get_anatomical_type, PyStr.any_in.
  generalize (PyStr.lower name). intros n.
  rewrite !existsb_app. cbn [existsb]. rewrite !orb_false_r.
  destruct (existsb (PyStr.contains n) fascia_keywords); [split; discriminate|].
  destruct (PyStr.contains n "tendon"); [split; discriminate|].
  destruct (PyStr.contains n "sheath"); [split; discriminate|].
  destruct (PyStr.contains n "articular capsule"); [split; discriminate|].
  destruct (PyStr.contains n "capsule"); [split; discriminate|].
  destruct (existsb (PyStr.contains n) muscle_keywords); [split; discriminate|].
  destruct (existsb (PyStr.contains n) bone_keywords); [split; discriminate|].
  destruct (existsb (PyStr.contains n) ligament_keywords); [split; discriminate|].
  destruct (existsb (PyStr.contains n) cartilage_keywords); [split; discriminate|].
  destruct (PyStr.contains n "membrane"); [split; discriminate|].
  destruct (PyStr.contains n "bursa"); [split; discriminate|].
  destruct (PyStr.contains n "bursae"); [split; discriminate|].
  destruct (PyStr.contains n "frenula capsulae"); [split; discriminate|].
  destruct (PyStr.contains n "capsule of"); [split; discriminate|].
  split; reflexivity.
Qed.

(** In the previous exporter a tendon or sheath keyword decides at once. *)
Lemma V10_tendon_first (name : string) :
  PyStr.any_in (PyStr.lower name) ["tendon"; "sheath"] = true ->
  V10.get_anatomical_type name = "tendon".
Proof. unfold V10.get_anatomical_type. now intros ->. Qed.

(** There a muscle keyword wins over a fascia keyword. *)
Example V10_muscle_before_fascia :
  V10.get_anatomical_type "Fascia of levator ani" = "muscle" /\
  get_anatomical_type "Fascia of levator ani" = "fascia".
Proof. split; vm_compute; reflexivity. Qed.

End Classifier.

(** ** Mesh id normalization *)

Module Normalizer.
Import PyStrFacts.

Lemma append_nil_r (s : string) : (s ++ "")%string = s.
Proof. induction s as [|a s IH]; simpl; [reflexivity | now rewrite IH]. Qed.

(** *** Replacing one character *)

Lemma replace_char_cons (c a : ascii) (new s : string) :
  PyStr.replace (String a s) (String c "") new =
  ((if Ascii.eqb c a then new else String a "") ++
   PyStr.replace s (String c "") new)%string.
Proof.
  unfold PyStr.replace. cbn [PyStr.replace_go PyStr.startswith String.length Nat.sub].
  destruct (Ascii.eqb c a); cbn [andb].
  - now destruct s.
  - reflexivity.
Qed.

Lemma replace_char_app (c : ascii) (new x y : string) :
  PyStr.replace (x ++ y) (String c "") new =
  (PyStr.replace x (String c "") new ++ PyStr.replace y (String c "") new)%string.
Proof.
  induction x as [|a x IH].
  - reflexivity.
  - change (String a x ++ y)%string with (String a (x ++ y)).
    rewrite !replace_char_cons, IH. now rewrite append_assoc.
Qed.

(** The five replacements of [normalize_characters], in a row. *)
Local Abbreviation chain s :=
  (PyStr.replace
     (PyStr.replace
        (PyStr.replace (PyStr.replace (PyStr.replace s " " "_") "-" "_") "." "_")
        "(" "")
     ")" "").

Lemma chain_one (a : ascii) : chain (String a "") = Words.rewrite_char a.
Proof.
  unfold Words.rewrite_char.
  rewrite (replace_char_cons " " a "_" "").
  destruct (Ascii.eqb_spec " "%char a) as [<- | H1]; [reflexivity|].
  rewrite (proj2 (Ascii.eqb_neq a " ")) by congruence.
  change (String a "" ++ PyStr.replace "" " " "_")%string with (String a "").
  rewrite (replace_char_cons "-" a "_" "").
  destruct (Ascii.eqb_spec "-"%char a) as [<- | H2]; [reflexivity|].
  rewrite (proj2 (Ascii.eqb_neq a "-")) by congruence.
  change (String a "" ++ PyStr.replace "" "-" "_")%string with (String a "").
  rewrite (replace_char_cons "." a "_" "").
  destruct (Ascii.eqb_spec "."%char a) as [<- | H3]; [reflexivity|].
  rewrite (proj2 (Ascii.eqb_neq a ".")) by congruence.
  change (String a "" ++ PyStr.replace "" "." "_")%string with (String a "").
  rewrite (replace_char_cons "(" a "" "").
  destruct (Ascii.eqb_spec "("%char a) as [<- | H4]; [reflexivity|].
  rewrite (proj2 (Ascii.eqb_neq a "(")) by congruence.
  change (String a "" ++ PyStr.replace "" "(" "")%string with (String a "").
  rewrite (replace_char_cons ")" a "" "").
  destruct (Ascii.eqb_spec ")"%char a) as [<- | H5]; [reflexivity|].
  rewrite (proj2 (Ascii.eqb_neq a ")")) by congruence.
  reflexivity.
Qed.

Lemma chain_app (x y : string) : chain (x ++ y) = (chain x ++ chain y)%string.
Proof. now rewrite !replace_char_app. Qed.

(** The replacements rewrite the name character by character. *)
Lemma chain_rewrite_chars (s : string) : chain s = Words.rewrite_chars s.
Proof.
  induction s as [|a s IH].
  - reflexivity.
  - change (String a s) with (String a "" ++ s)%string at 1.
    rewrite chain_app, chain_one, IH. reflexivity.
Qed.


(** *** Collapsing repeated separators *)

Local Abbreviation R0 := (PyStr.replace_go "__" "_" 0).

Lemma starts_dd (a : ascii) (s : string) :
  PyStr.startswith (String a s) "__" = true <->
  a = "_"%char /\ exists t, s = String "_" t.
Proof.
  rewrite startswith_iff. split.
  - intros [r Hr]. injection Hr as -> ->. split; [reflexivity | now exists r].
  - intros [-> [t ->]]. now exists t.
Qed.

Lemma R0_double (t : string) : R0 (String "_" (String "_" t)) = String "_" (R0 t).
Proof. reflexivity. Qed.

Lemma R0_single (a : ascii) (s : string) :
  PyStr.startswith (String a s) "__" = false ->
  R0 (String a s) = String a (R0 s).
Proof. intros Hs. cbn [PyStr.replace_go]. now rewrite Hs. Qed.

(** The first character survives a round of replacement. *)
Lemma R0_head (s : string) :
  (s = ""%string /\ R0 s = ""%string) \/
  (exists b t u, s = String b t /\ R0 s = String b u).
Proof.
  destruct s as [|b t]; [left; auto | right].
  destruct (PyStr.startswith (String b t) "__") eqn:Hs.
  - apply starts_dd in Hs. destruct Hs as [-> [t' ->]].
    exists "_"%char, (String "_" t'), (R0 t'). auto.
  - exists b, t, (R0 t). split; [reflexivity | now apply R0_single].
Qed.

Lemma squeeze_cons_congr (a : ascii) (u v : string) :
  Words.squeeze u = Words.squeeze v ->
  (u = ""%string /\ v = ""%string) \/
  (exists b u' v', u = String b u' /\ v = String b v') ->
  Words.squeeze (String a u) = Words.squeeze (String a v).
Proof.
  intros Heq [[-> ->] | [b [u' [v' [-> ->]]]]]; [reflexivity|].
  cbn [Words.squeeze] in *.
  destruct (Ascii.eqb a "_" && Ascii.eqb b "_"); [exact Heq | now rewrite Heq].
Qed.

Lemma head_swap (s : string) :
  (R0 s = ""%string /\ s = ""%string) \/
  (exists b u' v', R0 s = String b u' /\ s = String b v').
Proof.
  destruct (R0_head s) as [[-> ->] | [b [t [u [-> ->]]]]]; [left; auto | right].
  now exists b, u, t.
Qed.

(** One round of replacement does not change what [squeeze] returns. *)
Lemma squeeze_R0 (s : string) : Words.squeeze (R0 s) = Words.squeeze s.
Proof.
  remember (String.length s) as n eqn:Hn.
  revert s Hn. induction n as [n IH] using lt_wf_ind. intros s Hn.
  destruct s as [|a s]; [reflexivity|].
  destruct (PyStr.startswith (String a s) "__") eqn:Hs.
  - apply starts_dd in Hs. destruct Hs as [-> [t ->]].
    rewrite R0_double.
    transitivity (Words.squeeze (String "_" t)).
    + apply squeeze_cons_congr.
      * apply (IH (String.length t)); [simpl in Hn; lia | reflexivity].
      * apply head_swap.
    + reflexivity.
  - rewrite R0_single by exact Hs.
    apply squeeze_cons_congr.
    + apply (IH (String.length s)); [simpl in Hn; lia | reflexivity].
    + apply head_swap.
Qed.

Lemma contains_dd_cons (a : ascii) (s : string) :
  PyStr.contains (String a s) "__" =
  PyStr.startswith (String a s) "__" || PyStr.contains s "__".
Proof. reflexivity. Qed.

(** Without a doubled separator there is nothing to squeeze. *)
Lemma squeeze_fixed (s : string) :
  PyStr.contains s "__" = false -> Words.squeeze s = s.
Proof.
  induction s as [|a s IH]; [reflexivity|].
  rewrite contains_dd_cons. intros Hc.
  apply orb_false_iff in Hc. destruct Hc as [Hs Hc].
  specialize (IH Hc). destruct s as [|b s]; [reflexivity|].
  cbn [Words.squeeze] in *.
  destruct (Ascii.eqb_spec a "_") as [-> | Ha]; cbn [andb].
  - destruct (Ascii.eqb_spec b "_") as [-> | Hb].
    + discriminate Hs.
    + now rewrite IH.
  - now rewrite IH.
Qed.

(** A round of replacement shortens a string that has a doubled
    separator, and never lengthens one. *)
Lemma R0_length (s : string) :
  String.length (R0 s) <= String.length s /\
  (PyStr.contains s "__" = true -> String.length (R0 s) < String.length s).
Proof.
  remember (String.length s) as n eqn:Hn.
  revert s Hn. induction n as [n IH] using lt_wf_ind. intros s Hn.
  destruct s as [|a s].
  - subst. split; [simpl; lia | discriminate].
  - destruct (PyStr.startswith (String a s) "__") eqn:Hs.
    + apply starts_dd in Hs. destruct Hs as [-> [t ->]].
      rewrite R0_double. simpl in Hn. subst n.
      destruct (IH (String.length t) ltac:(lia) t eq_refl) as [Hle _].
      simpl. split; [lia | intros _; lia].
    + rewrite R0_single by exact Hs. rewrite contains_dd_cons, Hs. simpl in Hn.
      subst n.
      destruct (IH (String.length s) ltac:(lia) s eq_refl) as [Hle Hlt].
      simpl. split; [lia | intros Hc; specialize (Hlt Hc); lia].
Qed.

(** With fuel for every character, the loop ends with no doubled separator
    left, on the string that [squeeze] returns. *)
Lemma collapse_loop_spec (fuel : nat) (s : string) :
  String.length s <= fuel ->
  PyStr.contains (collapse_loop fuel s) "__" = false /\
  Words.squeeze (collapse_loop fuel s) = Words.squeeze s.
Proof.
  revert s. induction fuel as [|fuel IH]; intros s Hlen.
  - destruct s; [split; reflexivity | simpl in Hlen; lia].
  - cbn [collapse_loop]. destruct (PyStr.contains s "__") eqn:Hc.
    + destruct (R0_length s) as [_ Hlt]. specialize (Hlt Hc).
      destruct (IH (PyStr.replace s "__" "_")) as [Hno Hsq].
      { unfold PyStr.replace. lia. }
      split; [exact Hno|]. rewrite Hsq. apply squeeze_R0.
    + split; [exact Hc | reflexivity].
Qed.

Lemma collapse_squeeze (s : string) : collapse s = Words.squeeze s.
Proof.
  unfold collapse.
  destruct (collapse_loop_spec (String.length s) s (le_n _)) as [Hno Hsq].
  now rewrite <- Hsq, squeeze_fixed.
Qed.

(** More fuel changes nothing. *)
Lemma collapse_loop_enough (fuel : nat) (s : string) :
  String.length s <= fuel -> collapse_loop fuel s = collapse s.
Proof.
  intros Hlen. rewrite collapse_squeeze.
  destruct (collapse_loop_spec fuel s Hlen) as [Hno Hsq].
  now rewrite <- Hsq, squeeze_fixed.
Qed.

Lemma collapse_no_double (s : string) : PyStr.contains (collapse s) "__" = false.
Proof. unfold collapse. apply collapse_loop_spec. apply le_n. Qed.

(** *** The whole function *)

Lemma normalize_characters_tidy (clean : string) :
  normalize_characters clean = Words.tidy clean.
Proof.
  unfold normalize_characters, Words.tidy.
  now rewrite chain_rewrite_chars, collapse_squeeze.
Qed.

End Normalizer.

(** ** Processing one object *)

Module Processing.

Section WithHost.
Context {H : Host}.

Lemma needs_location_sum_fix_false (name : string) :
  needs_location_sum_fix name = false.
Proof. reflexivity. Qed.

(** With the empty pattern list the choice at [# Process mesh] is always
    [process_standard_object]. *)
Lemma process_mesh_standard (original : Obj) (col : Collection)
    (pt : option transform) (s : Scene) :
  process_mesh original col pt s = process_standard_object original col pt s.
Proof. reflexivity. Qed.

Lemma needs_matrix_fix_snapshot (s : Scene) (original : Obj) (snapshot : transform) :
  needs_matrix_fix (obj_matrix_world s original) (Some (t_matrix snapshot)) =
  PrimFloat.ltb MATRIX_FIX_TOLERANCE (position_diff s original snapshot).
Proof. reflexivity. Qed.

(** [process_standard_object] runs one of two sequences, and which one is
    decided by the strict comparison alone. *)
Lemma process_standard_object_path (original : Obj) (col : Collection)
    (snapshot : transform) (s : Scene) :
  process_standard_object original col (Some snapshot) s =
  process_on_path (PrimFloat.ltb MATRIX_FIX_TOLERANCE (position_diff s original snapshot))
                  original col (t_matrix snapshot) s.
Proof.
  unfold process_standard_object, process_on_path, bind, read.
  cbn [option_map]. rewrite needs_matrix_fix_snapshot.
  destruct (PrimFloat.ltb MATRIX_FIX_TOLERANCE (position_diff s original snapshot));
    reflexivity.
Qed.

(** Without a snapshot there is nothing to compare: the standard path. *)
Lemma process_standard_object_no_snapshot (original : Obj) (col : Collection)
    (pm : Matrix) (s : Scene) :
  process_standard_object original col None s =
  process_on_path false original col pm s.
Proof. reflexivity. Qed.

End WithHost.

(** The tolerance does not exceed itself. *)
Lemma tolerance_not_exceeded : exceeds_tolerance MATRIX_FIX_TOLERANCE = false.
Proof. reflexivity. Qed.

End Processing.

(** ** The loop of [export_torso] *)

Module Run.
Import PyDictFacts.

Section WithHost.
Context {H : Host}.

Variable bilateral_pairs : dict pair_info.
Variable export_structure_names : dict string.
Variable layers : dict nat.
Variable precomputed_transforms : dict transform.
Variable export_collection : Collection.

Local Abbreviation step :=
  (process_entry bilateral_pairs export_structure_names layers
                 precomputed_transforms export_collection).
Local Abbreviation loop :=
  (export_loop bilateral_pairs export_structure_names layers
               precomputed_transforms export_collection).
Local Abbreviation ok :=
  (run_ok bilateral_pairs export_structure_names layers precomputed_transforms).

(** The id that the loop body issues for [name], given the ids in use. *)
Local Abbreviation issued used name :=
  (allocate_mesh_id used
     (normalize_mesh_id name
        (mem bilateral_pairs (fst (extract_side_and_base name))))).

(** One round of the loop either counts a failure and leaves the records
    alone, or appends one record under a fresh id. *)
Lemma process_entry_cases (rs : run_state) (name : string) (original : Obj) (s : Scene) :
  incl (keys (structures rs)) (used_ids rs) ->
  (structures (snd (step rs (name, original) s)) = structures rs /\
   export_objects (snd (step rs (name, original) s)) = export_objects rs /\
   st_bilateral (stats (snd (step rs (name, original) s))) = st_bilateral (stats rs) /\
   st_midline (stats (snd (step rs (name, original) s))) = st_midline (stats rs) /\
   st_orphan (stats (snd (step rs (name, original) s))) = st_orphan (stats rs) /\
   st_failed (stats (snd (step rs (name, original) s))) = S (st_failed (stats rs)) /\
   incl (used_ids rs) (used_ids (snd (step rs (name, original) s))))
  \/
  (exists copy region world_center,
     get export_structure_names name = Some region /\
     (forall t, get precomputed_transforms name = Some t -> world_center = t_center t) /\
     structures (snd (step rs (name, original) s)) =
       structures rs ++
       [(issued (used_ids rs) name,
         build_structure_meta layers name (issued (used_ids rs) name)
           (fst (extract_side_and_base name)) region
           (mem bilateral_pairs (fst (extract_side_and_base name))) world_center)] /\
     used_ids (snd (step rs (name, original) s)) =
       used_ids rs ++ [issued (used_ids rs) name] /\
     export_objects (snd (step rs (name, original) s)) = export_objects rs ++ [copy] /\
     stats (snd (step rs (name, original) s)) =
       count_side (mem bilateral_pairs (fst (extract_side_and_base name)))
                  (snd (extract_side_and_base name)) (stats rs)).
Proof.
  intros Hincl. unfold process_entry.
  destruct (process_mesh original export_collection
              (get precomputed_transforms name) s) as [s1 [[[copy|] wc0]|]].
  2,3: left; simpl; repeat split; auto using incl_refl.
  destruct (extract_side_and_base name) as [base side] eqn:Hext. cbn [fst snd].
  set (id := allocate_mesh_id (used_ids rs)
               (normalize_mesh_id name (mem bilateral_pairs base))).
  assert (Hfresh : ~ In id (used_ids rs)) by apply Allocator.allocate_fresh.
  assert (Hadd : set_add (used_ids rs) id = used_ids rs ++ [id]).
  { unfold set_add. now rewrite (proj2 (set_mem_false _ _) Hfresh). }
  cbn [used_ids structures export_objects stats type_stats].
  rewrite Hadd.
  destruct (set_name copy id s1) as [s2 [[]|]].
  2: left; simpl; repeat split; auto; apply incl_appl, incl_refl.
  destruct (get export_structure_names name) as [region|] eqn:Hreg.
  2: left; simpl; repeat split; auto; apply incl_appl, incl_refl.
  right.
  exists copy, region,
    (match get precomputed_transforms name with
     | Some t => t_center t
     | None => obj_location s1 copy
     end).
  cbn [snd structures used_ids export_objects stats].
  repeat split.
  - intros t Ht. now rewrite Ht.
  - apply set_absent. apply mem_false. intros Hin. apply Hfresh. now apply Hincl.
Qed.

Lemma count_records_snoc (p : structure_meta -> bool) (d : dict structure_meta)
    (id : string) (m : structure_meta) :
  count_records p (d ++ [(id, m)]) =
  count_records p d + (if p m then 1 else 0).
Proof.
  unfold count_records. rewrite map_app, filter_app, length_app. simpl.
  now destruct (p m).
Qed.

Lemma snoc_split {A} (l pre post : list A) (x y : A) :
  l ++ [x] = pre ++ y :: post ->
  (post = [] /\ pre = l /\ y = x) \/
  (exists post', post = post' ++ [x] /\ l = pre ++ y :: post').
Proof.
  intros Heq. destruct post as [|z post'] using rev_ind.
  - left. apply app_inj_tail in Heq. destruct Heq; auto.
  - right. exists post'. clear IHpost'.
    change (pre ++ y :: post' ++ [z]) with (pre ++ (y :: post') ++ [z]) in Heq.
    rewrite app_assoc in Heq. apply app_inj_tail in Heq.
    destruct Heq as [-> ->]. auto.
Qed.

Lemma record_ok_snoc (found : dict Obj) (e : string * Obj) id m :
  record_ok bilateral_pairs export_structure_names layers precomputed_transforms
            found id m ->
  record_ok bilateral_pairs export_structure_names layers precomputed_transforms
            (found ++ [e]) id m.
Proof.
  intros [Hid [Hin Hrest]]. split; [exact Hid|]. split; [|exact Hrest].
  unfold keys. rewrite map_app. apply in_or_app. now left.
Qed.

(** The loop body keeps the invariant. *)
Lemma process_entry_ok (found : dict Obj) (rs : run_state)
    (name : string) (original : Obj) (s : Scene) :
  ok found rs -> ok (found ++ [(name, original)]) (snd (step rs (name, original) s)).
Proof.
  intros [Hincl [Hexact [Hwf [Hcover [Hrec [Hiss [Hlen [Hb [Hm Ho]]]]]]]]].
  destruct (process_entry_cases rs name original s Hincl)
    as [[Hs [He [Hsb [Hsm [Hso [Hsf Hu]]]]]] |
        [copy [region [wc [Hreg [Hwc [Hs [Hu [He Hst]]]]]]]]].
  - (* a failure *)
    unfold run_ok. rewrite Hs, He, Hsb, Hsm, Hso, Hsf.
    split; [eapply incl_tran; eauto|].
    split; [discriminate|].
    split; [exact Hwf|].
    split; [discriminate|].
    split; [intros id m Hin; apply record_ok_snoc; auto|].
    split; [|auto].
    intros pre id m post Hsplit. unfold issued_in_order in Hiss.
    rewrite Hs in Hsplit.
    destruct (Hiss pre id m post Hsplit) as [used [Hi [_ Hid]]].
    exists used. rewrite Hsf. split; [exact Hi|]. split; [discriminate | exact Hid].
  - (* one more record *)
    set (base := fst (extract_side_and_base name)) in *.
    set (side := snd (extract_side_and_base name)) in *.
    set (is_bilateral := mem bilateral_pairs base) in *.
    set (id := allocate_mesh_id (used_ids rs) (normalize_mesh_id name is_bilateral)) in *.
    set (meta := build_structure_meta layers name id base region is_bilateral wc) in *.
    assert (Hfailed : st_failed (count_side is_bilateral side (stats rs)) =
                      st_failed (stats rs)).
    { unfold count_side. destruct is_bilateral; [reflexivity|].
      destruct (String.eqb side "midline"); reflexivity. }
    unfold run_ok. rewrite Hs, Hu, He, Hst, Hfailed.
    rewrite !keys_snoc, !length_app, !count_records_snoc. simpl fst.
    split.
    { apply incl_app; [apply incl_appl; exact Hincl | apply incl_appr, incl_refl]. }
    split.
    { intros Hz. now rewrite (Hexact Hz). }
    split.
    { unfold wf. rewrite keys_snoc. cbn [fst].
      apply NoDup_app; [exact Hwf | repeat constructor; simpl; tauto |].
      intros x Hx [<- | []]. apply (Allocator.allocate_fresh (used_ids rs)
        (normalize_mesh_id name is_bilateral)). now apply Hincl. }
    split.
    { intros Hz. rewrite map_app, (Hcover Hz). reflexivity. }
    split.
    { intros id' m' Hin. apply in_app_or in Hin. destruct Hin as [Hin | [Heq | []]].
      - apply record_ok_snoc. auto.
      - injection Heq as <- <-. split; [reflexivity|]. split.
        + unfold keys. rewrite map_app. apply in_or_app. right. now left.
        + exists region, wc. auto. }
    split.
    { intros pre id' m' post Hsplit. rewrite Hs in Hsplit. rewrite Hst, Hfailed.
      apply snoc_split in Hsplit.
      destruct Hsplit as [[-> [-> Heq]] | [post' [-> Hsplit]]].
      - injection Heq as -> ->. exists (used_ids rs).
        split; [exact Hincl|]. split; [exact Hexact | reflexivity].
      - exact (Hiss pre id' m' post' Hsplit). }
    split; [simpl; lia|].
    assert (Hmid : is_midline_record meta =
                   negb is_bilateral && String.eqb side "midline") by reflexivity.
    assert (Horph : is_orphan_record meta =
                    negb is_bilateral && negb (String.eqb side "midline")) by reflexivity.
    rewrite Hmid, Horph. change (bilateral meta) with is_bilateral.
    unfold count_side.
    destruct is_bilateral; cbn [negb andb st_bilateral st_midline st_orphan].
    + repeat split; lia.
    + destruct (String.eqb side "midline"); cbn [negb st_bilateral st_midline st_orphan];
        repeat split; lia.
Qed.

Lemma export_loop_snoc (found : dict Obj) (e : string * Obj) (rs : run_state) (s : Scene) :
  loop (found ++ [e]) rs s = step (snd (loop found rs s)) e (fst (loop found rs s)).
Proof. unfold export_loop. now rewrite fold_left_app. Qed.

Lemma initial_run_ok : ok [] initial_run.
Proof.
  unfold run_ok, initial_run. simpl.
  split; [apply incl_refl|]. split; [reflexivity|].
  split; [apply wf_nil|]. split; [reflexivity|].
  split; [intros k m []|].
  split; [|repeat split].
  intros pre k m post Hsplit. destruct pre; discriminate.
Qed.

(** The invariant holds when the loop is over. *)
Lemma export_loop_ok (found : dict Obj) (s : Scene) :
  ok found (snd (loop found initial_run s)).
Proof.
  induction found as [|[name original] l IH] using rev_ind.
  - apply initial_run_ok.
  - rewrite export_loop_snoc. now apply process_entry_ok.
Qed.

End WithHost.

End Run.

(** ** Finding the structures, and the whole run *)

Module WholeRun.
Import PyDictFacts.

Section WithHost.
Context {H : Host}.

(** [find_all_registry_objects] sorts the names of the export set into the
    found ones, each with the object that [find_structure_in_blender]
    returns, and the missing ones. *)
Lemma find_all_spec (s : Scene) (names : dict string) :
  wf (fst (find_all_registry_objects s names)) /\
  (forall k o, In (k, o) (fst (find_all_registry_objects s names)) ->
               In k (keys names) /\ find_structure_in_blender s k = Some o) /\
  (forall k, In k (keys (fst (find_all_registry_objects s names))) <->
             In k (keys names) /\ find_structure_in_blender s k <> None) /\
  (forall k, In k (snd (find_all_registry_objects s names)) <->
             In k (keys names) /\ find_structure_in_blender s k = None).
Proof.
  unfold find_all_registry_objects.
  induction names as [|[name region] l IH] using rev_ind.
  - simpl. split; [apply wf_nil|]. split; [intros k o []|].
    split; intros k; split; try tauto; intros [[] _].
  - rewrite fold_left_app. cbn [fold_left].
    destruct IH as [Hwf [Hobj [Hf Hm]]].
    match goal with
    | |- context [fold_left ?f l ?a] => set (acc := fold_left f l a) in *
    end.
    clearbody acc.
    destruct acc as [found missing].
    cbn [fst snd] in *. rewrite keys_snoc. cbn [fst].
    destruct (find_structure_in_blender s name) as [obj|] eqn:Hfind; cbn [fst snd].
    + split; [now apply wf_set|]. split; [|split]; intros k.
      * intros o Hin. apply in_set_inv in Hin. rewrite in_app_iff.
        destruct Hin as [[-> ->] | Hin].
        -- split; [right; now left | exact Hfind].
        -- destruct (Hobj k o Hin). auto.
      * rewrite in_keys_set, Hf, in_app_iff. simpl. split.
        -- intros [-> | [H1 H2]]; [split; [auto | congruence] | auto].
        -- intros [[H1 | [<- | []]] H2]; auto.
      * rewrite Hm, in_app_iff. simpl. split.
        -- intros [H1 H2]; auto.
        -- intros [[H1 | [<- | []]] H2]; [auto | congruence].
    + split; [exact Hwf|]. split; [|split]; intros k.
      * intros o Hin. rewrite in_app_iff. destruct (Hobj k o Hin). auto.
      * rewrite Hf, in_app_iff. simpl. split.
        -- intros [H1 H2]; auto.
        -- intros [[H1 | [<- | []]] H2]; [auto | congruence].
      * rewrite !in_app_iff, Hm. simpl. split.
        -- intros [[H1 H2] | [<- | []]]; auto.
        -- intros [[H1 | [<- | []]] H2]; auto.
Qed.

(** The snapshot holds, for every found structure, its world matrix and
    geometry center in the session of the capture. *)
Lemma precompute_get (s : Scene) (objects : dict Obj) (name : string) (obj : Obj) :
  wf objects -> In (name, obj) objects ->
  get (precompute_world_transforms s objects) name =
  Some (mk_transform (obj_matrix_world s obj) (get_world_geometry_center s obj)).
Proof.
  unfold precompute_world_transforms.
  induction objects as [|[n o] l IH] using rev_ind; [intros _ []|].
  intros Hwf Hin. rewrite fold_left_app. cbn [fold_left].
  unfold wf in Hwf. rewrite keys_snoc in Hwf. cbn [fst] in Hwf.
  apply NoDup_remove in Hwf. rewrite app_nil_r in Hwf. destruct Hwf as [Hwf Hnotin].
  apply in_app_or in Hin. destruct Hin as [Hin | [Heq | []]].
  - rewrite get_set_other.
    + now apply IH.
    + intros ->. apply Hnotin. change name with (fst (name, obj)). now apply in_map.
  - injection Heq as -> ->. apply get_set_same.
Qed.

(** A complete run: what it returns is what the loop leaves, run on the
    found structures with the snapshot of the capture. *)
Lemma export_torso_inv (reg : registry) (s s' : Scene)
    (rep : ExportReport) (md : metadata) (st : stats_t) :
  export_torso (Some reg) s = (s', Ok (Some (rep, md, st))) ->
  exists (s4 : Scene) (col : Collection),
    let names := get_all_structure_names reg in
    let pairs := find_bilateral_pairs names in
    let rs := snd (export_loop pairs (export_set reg)
                     (compute_structure_layers (found_in reg s))
                     (snapshot_of reg s) col (found_in reg s) initial_run s4) in
    md_structures md = structures rs /\
    st = stats rs /\
    md_bilateral_count md = st_bilateral st /\
    md_midline_count md = st_midline st /\
    bilateral_count rep = st_bilateral st /\
    midline_count rep = st_midline st /\
    exported rep = List.length (structures rs) /\
    missing rep = missing_in reg s /\
    skipped_right rep = snd (filter_for_export names pairs).
Proof.
  unfold export_torso, snapshot_of, found_in, missing_in, export_set,
    capture_session, lookup_session.
  destruct (filter_for_export (get_all_structure_names reg)
              (find_bilateral_pairs (get_all_structure_names reg)))
    as [exp skipped] eqn:Hfilter.
  unfold bind at 1. destruct (view_layer_update s) as [s1 [[]|]]; [|discriminate].
  unfold bind at 1. unfold read at 1. cbn [fst snd].
  destruct (find_all_registry_objects s1 exp) as [found missing_names] eqn:Hfind.
  destruct found as [|e found']; [discriminate|].
  set (found := e :: found') in *. clearbody found.
  unfold export_found.
  unfold bind at 1. destruct (makedirs OUTPUT_DIR s1) as [s2 [[]|]]; [|discriminate].
  unfold bind at 1. destruct (makedirs METADATA_OUTPUT_DIR s2) as [s3 [[]|]] eqn:E3; [|discriminate].
  unfold bind at 1. unfold read at 1. cbn [fst snd].
  unfold bind at 1. destruct (create_export_collection s3) as [s4 [col|]]; [|discriminate].
  unfold bind at 1.
  set (r := export_loop _ _ _ _ _ _ _ _). cbn [fst snd].
  destruct (export_objects (snd r)) as [|first rest] eqn:Hobjs.
  - unfold bind, ret. destruct (cleanup_export_collection (fst r)) as [? [[]|]]; discriminate.
  - unfold bind at 1. destruct (select_all_deselect (fst r)) as [s5 [[]|]]; [|discriminate].
    unfold bind at 1. destruct (for_each _ _ s5) as [s6 [[]|]]; [|discriminate].
    unfold bind at 1. destruct (set_active first s6) as [s7 [[]|]]; [|discriminate].
    unfold bind at 1. destruct (export_gltf _ _ s7) as [s8 [[]|]]; [|discriminate].
    unfold bind at 1. destruct (write_metadata _ _ s8) as [s9 [[]|]]; [|discriminate].
    unfold bind at 1. destruct (cleanup_export_collection s9) as [s10 [[]|]]; [|discriminate].
    unfold ret. intros Heq. injection Heq as _ <- <- <-.
    exists s4, col. cbn. subst r. rewrite ?E3. repeat split.
Qed.

(** What the record under [id] holds, read off [record_ok]. *)
Lemma record_fields (pairs : dict pair_info) (names : dict string)
    (layers : dict nat) (transforms : dict transform) (found : dict Obj)
    (id : string) (m : structure_meta) :
  record_ok pairs names layers transforms found id m ->
  meshId m = id /\
  In (originalName m) (keys found) /\
  baseName m = fst (extract_side_and_base (originalName m)) /\
  bilateral m = mem pairs (fst (extract_side_and_base (originalName m))) /\
  type_ m = get_anatomical_type (originalName m) /\
  mirroredCenter m =
    (if bilateral m then Some (mirror_center_x (center m)) else None) /\
  (forall t, get transforms (originalName m) = Some t ->
             center m = blender_to_threejs (t_center t)).
Proof.
  intros [Hid [Hin [region [wc [Hreg [Hwc Hm]]]]]].
  split; [exact Hid|]. split; [exact Hin|].
  split; [exact (f_equal baseName Hm)|].
  pose proof (f_equal bilateral Hm) as Hb. cbn in Hb.
  split; [exact Hb|].
  split; [exact (f_equal type_ Hm)|].
  split.
  - pose proof (f_equal mirroredCenter Hm) as Hmc.
    pose proof (f_equal center Hm) as Hc. cbn in Hmc, Hc.
    rewrite Hmc, Hb, Hc. reflexivity.
  - intros t Ht. pose proof (f_equal center Hm) as Hc. cbn in Hc.
    now rewrite Hc, (Hwc t Ht).
Qed.

(** A complete run returns the records and the statistics of a state that
    satisfies the invariant of the loop. *)
Lemma complete_run_ok (reg : registry) (s s' : Scene)
    (rep : ExportReport) (md : metadata) (st : stats_t) :
  export_torso (Some reg) s = (s', Ok (Some (rep, md, st))) ->
  exists rs,
    run_ok (find_bilateral_pairs (get_all_structure_names reg)) (export_set reg)
           (compute_structure_layers (found_in reg s)) (snapshot_of reg s)
           (found_in reg s) rs /\
    md_structures md = structures rs /\
    st = stats rs /\
    missing rep = missing_in reg s /\
    skipped_right rep =
      snd (filter_for_export (get_all_structure_names reg)
             (find_bilateral_pairs (get_all_structure_names reg))) /\
    md_bilateral_count md = st_bilateral st /\
    md_midline_count md = st_midline st.
Proof.
  intros Hrun. apply export_torso_inv in Hrun.
  destruct Hrun as [s4 [col Hrun]]. cbv zeta in Hrun.
  destruct Hrun as [Hmd [Hst [Hbc [Hmc [_ [_ [_ [Hmiss Hskip]]]]]]]].
  eexists. split; [apply (Run.export_loop_ok _ _ _ _ col (found_in reg s) s4)|].
  repeat split; assumption.
Qed.

End WithHost.

End WholeRun.

(** ** Layers, records and the accounts of a run *)

Module MoreRun.
Import PyDictFacts.

Lemma str_in_iff (x : string) (xs : list string) : str_in x xs = true <-> In x xs.
Proof. apply set_mem_in. Qed.

Lemma get_layers {O : Type} (objects : dict O) (name : string) :
  get (compute_structure_layers objects) name =
  if mem objects name then Some (base_layer name) else None.
Proof.
  unfold compute_structure_layers.
  induction objects as [|[n o] l IH] using rev_ind; [reflexivity|].
  rewrite fold_left_app. cbn [fold_left fst].
  assert (Hmem : mem (l ++ [(n, o)]) name = mem l name || String.eqb n name).
  { unfold mem. clear IH. induction l as [|[k v] l IHl]; simpl.
    - now destruct (String.eqb n name).
    - destruct (String.eqb k name); [reflexivity | exact IHl]. }
  rewrite Hmem. destruct (String.eqb_spec n name) as [-> | Hne].
  - rewrite get_set_same, orb_true_r. reflexivity.
  - rewrite get_set_other by exact Hne. now rewrite IH, orb_false_r.
Qed.

Lemma base_layer_le (name : string) : base_layer name <= 4.
Proof.
  unfold base_layer.
  repeat match goal with
         | |- context [if ?c then _ else _] => destruct c
         end; lia.
Qed.

Lemma count_classes (d : dict structure_meta) :
  count_records bilateral d + count_records is_midline_record d +
  count_records is_orphan_record d = List.length d.
Proof.
  unfold count_records. induction d as [|[id m] d IH]; [reflexivity|].
  cbn [map snd filter List.length]. unfold is_midline_record, is_orphan_record in *.
  destruct (bilateral m); cbn [negb andb List.length].
  - lia.
  - destruct (String.eqb (record_side m) "midline"); cbn [negb List.length]; lia.
Qed.

Section WithHost.
Context {H : Host}.

Variable bilateral_pairs : dict pair_info.
Variable export_structure_names : dict string.
Variable layers : dict nat.
Variable precomputed_transforms : dict transform.
Variable export_collection : Collection.

Local Abbreviation loop :=
  (export_loop bilateral_pairs export_structure_names layers
               precomputed_transforms export_collection).

(** Every structure either gets a record or is counted as failed. *)
Lemma loop_accounts (found : dict Obj) (s : Scene) :
  List.length (structures (snd (loop found initial_run s))) +
  st_failed (stats (snd (loop found initial_run s))) = List.length found.
Proof.
  induction found as [|[name original] l IH] using rev_ind; [reflexivity|].
  rewrite Run.export_loop_snoc, length_app. cbn [List.length].
  pose proof (Run.export_loop_ok bilateral_pairs export_structure_names layers
                precomputed_transforms export_collection l s) as Hok.
  destruct Hok as [Hincl _].
  destruct (Run.process_entry_cases bilateral_pairs export_structure_names layers
              precomputed_transforms export_collection
              (snd (loop l initial_run s)) name original
              (fst (loop l initial_run s)) Hincl)
    as [[Hs [_ [_ [_ [_ [Hf _]]]]]] | [copy [region [wc [_ [_ [Hs [_ [_ Hst]]]]]]]]].
  - rewrite Hs, Hf. lia.
  - rewrite Hs, Hst, length_app. cbn [List.length].
    assert (Hfailed : forall b sd st, st_failed (count_side b sd st) = st_failed st).
    { intros b sd st. unfold count_side. destruct b; [reflexivity|].
      destruct (String.eqb sd "midline"); reflexivity. }
    rewrite Hfailed. lia.
Qed.

(** Going on with more structures leaves what is written as it is. *)
Lemma loop_extends (l l' : dict Obj) (s : Scene) :
  exists more more_objects,
    structures (snd (loop (l ++ l') initial_run s)) =
      structures (snd (loop l initial_run s)) ++ more /\
    export_objects (snd (loop (l ++ l') initial_run s)) =
      export_objects (snd (loop l initial_run s)) ++ more_objects /\
    st_failed (stats (snd (loop l initial_run s))) <=
      st_failed (stats (snd (loop (l ++ l') initial_run s))).
Proof.
  induction l' as [|[name original] l' IH] using rev_ind.
  - exists [], []. rewrite !app_nil_r. auto.
  - destruct IH as [more [more_objects [Hs [He Hf]]]].
    rewrite app_assoc, Run.export_loop_snoc.
    pose proof (Run.export_loop_ok bilateral_pairs export_structure_names layers
                  precomputed_transforms export_collection (l ++ l') s) as Hok.
    destruct Hok as [Hincl _].
    destruct (Run.process_entry_cases bilateral_pairs export_structure_names layers
                precomputed_transforms export_collection
                (snd (loop (l ++ l') initial_run s)) name original
                (fst (loop (l ++ l') initial_run s)) Hincl)
      as [[Hs' [He' [_ [_ [_ [Hf' _]]]]]] |
          [copy [region [wc [_ [_ [Hs' [_ [He' Hst]]]]]]]]].
    + exists more, more_objects. rewrite Hs', He', Hf'. repeat split; auto.
    + exists (more ++ [(allocate_mesh_id (used_ids (snd (loop (l ++ l') initial_run s)))
                         (normalize_mesh_id name
                            (mem bilateral_pairs (fst (extract_side_and_base name)))),
                       build_structure_meta layers name
                         (allocate_mesh_id (used_ids (snd (loop (l ++ l') initial_run s)))
                            (normalize_mesh_id name
                               (mem bilateral_pairs (fst (extract_side_and_base name)))))
                         (fst (extract_side_and_base name)) region
                         (mem bilateral_pairs (fst (extract_side_and_base name))) wc)]),
             (more_objects ++ [copy]).
      rewrite Hs', He', Hs, He, Hst, !app_assoc.
      split; [reflexivity|]. split; [reflexivity|].
      unfold count_side.
      destruct (mem bilateral_pairs (fst (extract_side_and_base name))); [exact Hf|].
      destruct (String.eqb (snd (extract_side_and_base name)) "midline"); exact Hf.
Qed.

(** *** The processing functions return a copy or raise *)

Lemma bind_no_none {A} (m : bpy A) (k : A -> bpy (option Obj * Vector))
    (s : Scene) (v : Vector) :
  (forall a s0, snd (k a s0) <> Ok (None, v)) ->
  snd (bind m k s) <> Ok (None, v).
Proof.
  intros Hk. unfold bind. destruct (m s) as [s' [a|]]; [apply Hk | discriminate].
Qed.

Lemma bake_no_none (copy : Obj) (s : Scene) (v : Vector) :
  snd (bake_and_center copy s) <> Ok (None, v).
Proof.
  unfold bake_and_center.
  repeat (apply bind_no_none; intros ? ?).
  unfold ret. cbn. discriminate.
Qed.

Lemma process_standard_no_none (original : Obj) (pt : option transform)
    (s : Scene) (v : Vector) :
  snd (process_standard_object original export_collection pt s) <> Ok (None, v).
Proof.
  unfold process_standard_object.
  repeat (apply bind_no_none; intros ? ?).
  first [apply bake_no_none | unfold ret; cbn; discriminate].
Qed.

Lemma process_broken_no_none (original : Obj) (s : Scene) (v : Vector) :
  snd (process_broken_parent_object original export_collection s) <> Ok (None, v).
Proof.
  unfold process_broken_parent_object.
  repeat (apply bind_no_none; intros ? ?).
  first [apply bake_no_none | unfold ret; cbn; discriminate].
Qed.

End WithHost.

(** A complete run, with the whole report. *)
Lemma export_torso_report {H : Host} (reg : registry) (s s' : Scene)
    (rep : ExportReport) (md : metadata) (st : stats_t) :
  export_torso (Some reg) s = (s', Ok (Some (rep, md, st))) ->
  exists (s4 : Scene) (col : Collection),
    let names := get_all_structure_names reg in
    let pairs := find_bilateral_pairs names in
    let rs := snd (export_loop pairs (export_set reg)
                     (compute_structure_layers (found_in reg s))
                     (snapshot_of reg s) col (found_in reg s) initial_run s4) in
    rep = mk_report (List.length names) (List.length (found_in reg s))
                    (List.length (structures rs))
                    (st_bilateral (stats rs)) (st_midline (stats rs))
                    (missing_in reg s) (snd (filter_for_export names pairs)) /\
    md = mk_metadata (st_bilateral (stats rs)) (st_midline (stats rs)) (structures rs) /\
    st = stats rs /\
    export_objects rs <> [].
Proof.
  unfold export_torso, snapshot_of, found_in, missing_in, export_set,
    capture_session, lookup_session.
  destruct (filter_for_export (get_all_structure_names reg)
              (find_bilateral_pairs (get_all_structure_names reg)))
    as [exp skipped] eqn:Hfilter.
  unfold bind at 1. destruct (view_layer_update s) as [s1 [[]|]]; [|discriminate].
  unfold bind at 1. unfold read at 1. cbn [fst snd].
  destruct (find_all_registry_objects s1 exp) as [found missing_names] eqn:Hfind.
  destruct found as [|e found']; [discriminate|].
  set (found := e :: found') in *. clearbody found.
  unfold export_found.
  unfold bind at 1. destruct (makedirs OUTPUT_DIR s1) as [s2 [[]|]]; [|discriminate].
  unfold bind at 1.
  destruct (makedirs METADATA_OUTPUT_DIR s2) as [s3 [[]|]] eqn:E3; [|discriminate].
  unfold bind at 1. unfold read at 1. cbn [fst snd].
  unfold bind at 1. destruct (create_export_collection s3) as [s4 [col|]]; [|discriminate].
  unfold bind at 1.
  set (r := export_loop _ _ _ _ _ _ _ _). cbn [fst snd].
  destruct (export_objects (snd r)) as [|first rest] eqn:Hobjs.
  - unfold bind, ret. destruct (cleanup_export_collection (fst r)) as [? [[]|]]; discriminate.
  - unfold bind at 1. destruct (select_all_deselect (fst r)) as [s5 [[]|]]; [|discriminate].
    unfold bind at 1. destruct (for_each _ _ s5) as [s6 [[]|]]; [|discriminate].
    unfold bind at 1. destruct (set_active first s6) as [s7 [[]|]]; [|discriminate].
    unfold bind at 1. destruct (export_gltf _ _ s7) as [s8 [[]|]]; [|discriminate].
    unfold bind at 1. destruct (write_metadata _ _ s8) as [s9 [[]|]]; [|discriminate].
    unfold bind at 1. destruct (cleanup_export_collection s9) as [s10 [[]|]]; [|discriminate].
    unfold ret. intros Heq. injection Heq as _ <- <- <-.
    assert (Hne : export_objects (snd r) <> []) by (rewrite Hobjs; discriminate).
    exists s4, col. cbn. subst r. rewrite ?E3.
    split; [reflexivity|]. split; [reflexivity|]. split; [reflexivity|].
    exact Hne.
Qed.

End MoreRun.

(** ** One round of the loop that raises nothing *)

Module Steps.
Import PyDictFacts.

Section WithHost.
Context {H : Host}.

Lemma bind_assoc {A B C} (m : bpy A) (f : A -> bpy B) (g : B -> bpy C) (s : Scene) :
  bind (bind m f) g s = bind m (fun a => bind (f a) g) s.
Proof. unfold bind. destruct (m s) as [s1 [a|]]; reflexivity. Qed.

Lemma bind_read {A B} (f : Scene -> A) (k : A -> bpy B) (s : Scene) :
  bind (read f) k s = k (f s) s.
Proof. reflexivity. Qed.

Lemma bind_ext {A B} (m : bpy A) (f g : A -> bpy B) (s : Scene) :
  (forall a s', f a s' = g a s') -> bind m f s = bind m g s.
Proof. intros Hfg. unfold bind. destruct (m s) as [s1 [a|]]; [apply Hfg | reflexivity]. Qed.

Section Loop.

Variable bilateral_pairs : dict pair_info.
Variable export_structure_names : dict string.
Variable layers : dict nat.
Variable precomputed_transforms : dict transform.
Variable export_collection : Collection.

Local Abbreviation step :=
  (process_entry bilateral_pairs export_structure_names layers
                 precomputed_transforms export_collection).
Local Abbreviation loop :=
  (export_loop bilateral_pairs export_structure_names layers
               precomputed_transforms export_collection).

(** A round that raises nothing appends one record, under the id that the
    allocation loop returns, one exported object and one id in use, and
    counts the structure once. *)
Lemma step_success (rs : run_state) (name : string) (original copy : Obj)
    (s : Scene) (region : string) :
  incl (keys (structures rs)) (used_ids rs) ->
  entry_processed bilateral_pairs precomputed_transforms export_collection
                  rs (name, original) s = Some copy ->
  get export_structure_names name = Some region ->
  exists world_center,
    (forall t, get precomputed_transforms name = Some t -> world_center = t_center t) /\
    structures (snd (step rs (name, original) s)) =
      structures rs ++
      [(entry_mesh_id bilateral_pairs rs name,
        build_structure_meta layers name (entry_mesh_id bilateral_pairs rs name)
          (fst (extract_side_and_base name)) region
          (mem bilateral_pairs (fst (extract_side_and_base name))) world_center)] /\
    used_ids (snd (step rs (name, original) s)) =
      used_ids rs ++ [entry_mesh_id bilateral_pairs rs name] /\
    export_objects (snd (step rs (name, original) s)) = export_objects rs ++ [copy] /\
    stats (snd (step rs (name, original) s)) =
      count_side (mem bilateral_pairs (fst (extract_side_and_base name)))
                 (snd (extract_side_and_base name)) (stats rs).
Proof.
  intros Hincl Hdone Hreg.
  unfold entry_processed in Hdone. unfold process_entry.
  unfold entry_mesh_id, entry_base_id in *.
  destruct (process_mesh original export_collection
              (get precomputed_transforms name) s) as [s1 [[[c|] wc0]|]];
    try discriminate.
  destruct (extract_side_and_base name) as [base side] eqn:Hext. cbn [fst snd] in *.
  set (id := allocate_mesh_id (used_ids rs)
               (normalize_mesh_id name (mem bilateral_pairs base))) in *.
  assert (Hfresh : ~ In id (used_ids rs)) by apply Allocator.allocate_fresh.
  assert (Hadd : set_add (used_ids rs) id = used_ids rs ++ [id]).
  { unfold set_add. now rewrite (proj2 (set_mem_false _ _) Hfresh). }
  cbn [used_ids structures export_objects stats type_stats].
  rewrite Hadd.
  destruct (set_name c id s1) as [s2 [[]|]]; [|discriminate].
  injection Hdone as ->. rewrite Hreg.
  exists (match get precomputed_transforms name with
          | Some t => t_center t
          | None => obj_location s1 copy
          end).
  cbn [snd structures used_ids export_objects stats].
  split; [intros t Ht; now rewrite Ht|].
  split; [|repeat split].
  apply set_absent. apply mem_false. intros Hin. apply Hfresh. now apply Hincl.
Qed.

(** The ids in use only grow. *)
Lemma loop_used_grows (l l' : dict Obj) (s : Scene) :
  incl (used_ids (snd (loop l initial_run s)))
       (used_ids (snd (loop (l ++ l') initial_run s))).
Proof.
  induction l' as [|[name original] l' IH] using rev_ind.
  - rewrite app_nil_r. apply incl_refl.
  - rewrite app_assoc, Run.export_loop_snoc.
    pose proof (Run.export_loop_ok bilateral_pairs export_structure_names layers
                  precomputed_transforms export_collection (l ++ l') s) as Hok.
    destruct Hok as [Hincl _].
    destruct (Run.process_entry_cases bilateral_pairs export_structure_names layers
                precomputed_transforms export_collection
                (snd (loop (l ++ l') initial_run s)) name original
                (fst (loop (l ++ l') initial_run s)) Hincl)
      as [[_ [_ [_ [_ [_ [_ Hu]]]]]] | [copy [region [wc [_ [_ [_ [Hu _]]]]]]]].
    + eapply incl_tran; eauto.
    + rewrite Hu. apply incl_appl. exact IH.
Qed.

(** What the loop has after the round of an entry that raises nothing, and
    what it has in the end. *)
Lemma round_success (pre post : dict Obj) (name : string) (original copy : Obj)
    (s : Scene) (region : string) :
  entry_processed bilateral_pairs precomputed_transforms export_collection
                  (snd (loop pre initial_run s)) (name, original)
                  (fst (loop pre initial_run s)) = Some copy ->
  get export_structure_names name = Some region ->
  let before := snd (loop pre initial_run s) in
  let after := snd (loop (pre ++ [(name, original)]) initial_run s) in
  let final := snd (loop (pre ++ (name, original) :: post) initial_run s) in
  let id := entry_mesh_id bilateral_pairs before name in
  exists world_center,
    let m := build_structure_meta layers name id (fst (extract_side_and_base name))
               region (mem bilateral_pairs (fst (extract_side_and_base name)))
               world_center in
    (forall t, get precomputed_transforms name = Some t -> world_center = t_center t) /\
    structures after = structures before ++ [(id, m)] /\
    used_ids after = used_ids before ++ [id] /\
    export_objects after = export_objects before ++ [copy] /\
    stats after =
      count_side (mem bilateral_pairs (fst (extract_side_and_base name)))
                 (snd (extract_side_and_base name)) (stats before) /\
    In (id, m) (structures final) /\
    In copy (export_objects final) /\
    In id (used_ids final).
Proof.
  intros Hdone Hreg before after final id.
  pose proof (Run.export_loop_ok bilateral_pairs export_structure_names layers
                precomputed_transforms export_collection pre s) as [Hincl _].
  destruct (step_success _ name original copy _ region Hincl Hdone Hreg)
    as [wc [Hwc [Hs [Hu [He Hst]]]]].
  exists wc. cbv zeta.
  subst after. rewrite Run.export_loop_snoc.
  split; [exact Hwc|]. split; [exact Hs|]. split; [exact Hu|].
  split; [exact He|]. split; [exact Hst|].
  subst final.
  change (pre ++ (name, original) :: post) with (pre ++ [(name, original)] ++ post).
  rewrite app_assoc.
  destruct (MoreRun.loop_extends bilateral_pairs export_structure_names layers
              precomputed_transforms export_collection
              (pre ++ [(name, original)]) post s)
    as [more [more_objects [Hs' [He' _]]]].
  pose proof (loop_used_grows (pre ++ [(name, original)]) post s) as Hgrow.
  rewrite Hs', He'. rewrite Run.export_loop_snoc in *. rewrite Hs, He.
  split; [apply in_or_app; left; apply in_or_app; right; now left|].
  split; [apply in_or_app; left; apply in_or_app; right; now left|].
  apply Hgrow. rewrite Hu. apply in_or_app. right. now left.
Qed.

End Loop.

(** A record that satisfies [p] is counted by [count_records p]. *)
Lemma count_records_in (p : structure_meta -> bool) (d : dict structure_meta)
    (id : string) (m : structure_meta) :
  In (id, m) d -> p m = true -> 1 <= count_records p d.
Proof.
  intros Hin Hp. unfold count_records.
  assert (Hf : In m (filter p (map snd d))).
  { apply filter_In. split; [|exact Hp]. change m with (snd (id, m)). now apply in_map. }
  destruct (filter p (map snd d)); [contradiction | simpl; lia].
Qed.

(** A complete run returns what the loop leaves, run from the session
    and with the collection that [create_export_collection] returns. *)
Lemma complete_run_loop (reg : registry) (s s' : Scene)
    (rep : ExportReport) (md : metadata) (st : stats_t) :
  export_torso (Some reg) s = (s', Ok (Some (rep, md, st))) ->
  exists (s4 : Scene) (col : Collection),
    create_export_collection (capture_session s) = (s4, Ok col) /\
    md_structures md = structures (snd (loop_on reg s col s4 (found_in reg s))) /\
    st = stats (snd (loop_on reg s col s4 (found_in reg s))).
Proof.
  unfold export_torso, loop_on, snapshot_of, found_in, export_set,
    capture_session, lookup_session.
  destruct (filter_for_export (get_all_structure_names reg)
              (find_bilateral_pairs (get_all_structure_names reg)))
    as [exp skipped] eqn:Hfilter.
  unfold bind at 1. destruct (view_layer_update s) as [s1 [[]|]]; [|discriminate].
  unfold bind at 1. unfold read at 1. cbn [fst snd].
  destruct (find_all_registry_objects s1 exp) as [found missing_names] eqn:Hfind.
  destruct found as [|e found']; [discriminate|].
  set (found := e :: found') in *. clearbody found.
  unfold export_found.
  unfold bind at 1. destruct (makedirs OUTPUT_DIR s1) as [s2 [[]|]]; [|discriminate].
  unfold bind at 1.
  destruct (makedirs METADATA_OUTPUT_DIR s2) as [s3 [[]|]] eqn:E3; [|discriminate].
  unfold bind at 1. unfold read at 1. cbn [fst snd].
  unfold bind at 1.
  destruct (create_export_collection s3) as [s4 [col|]] eqn:E4; [|discriminate].
  unfold bind at 1.
  set (r := export_loop _ _ _ _ _ _ _ _). cbn [fst snd].
  destruct (export_objects (snd r)) as [|first rest] eqn:Hobjs.
  - unfold bind, ret. destruct (cleanup_export_collection (fst r)) as [? [[]|]]; discriminate.
  - unfold bind at 1. destruct (select_all_deselect (fst r)) as [s5 [[]|]]; [|discriminate].
    unfold bind at 1. destruct (for_each _ _ s5) as [s6 [[]|]]; [|discriminate].
    unfold bind at 1. destruct (set_active first s6) as [s7 [[]|]]; [|discriminate].
    unfold bind at 1. destruct (export_gltf _ _ s7) as [s8 [[]|]]; [|discriminate].
    unfold bind at 1. destruct (write_metadata _ _ s8) as [s9 [[]|]]; [|discriminate].
    unfold bind at 1. destruct (cleanup_export_collection s9) as [s10 [[]|]]; [|discriminate].
    unfold ret. intros Heq. injection Heq as _ <- <- <-.
    exists s4, col. cbn [fst snd]. subst r. rewrite ?E3. cbn [fst snd].
    split; [exact E4|]. split; reflexivity.
Qed.

(** The names of the found structures have a region in the export set. *)
Lemma found_has_region (reg : registry) (s : Scene) (name : string) :
  In name (keys (found_in reg s)) ->
  exists region, get (export_set reg) name = Some region.
Proof.
  intros Hin.
  apply (WholeRun.find_all_spec (lookup_session s) (export_set reg)) in Hin.
  destruct Hin as [Hin _].
  destruct (get (export_set reg) name) as [region|] eqn:Hget; [now exists region|].
  apply get_none in Hget. contradiction.
Qed.

End WithHost.

End Steps.

(** * Main theorems *)

Local Notation "x <- m ;; k" := (bind m (fun x => k))
  (at level 61, m at next level, right associativity).
Local Notation "m ;;; k" := (bind m (fun _ => k))
  (at level 61, right associativity).

(** ** Name analysis and classification *)

(** C9. [extract_side_and_base] recognizes only the suffixes [.l] and [.r]:
    a name that ends in neither is midline and is its own base name.  For
    every registry, such a name is not the left or the right member of any
    pair that [find_bilateral_pairs] returns, and [filter_for_export] keeps
    it in the export set and never puts it in the skipped list. *)
Theorem C9_other_spellings_are_midline (name : string) :
  PyStr.endswith name ".l" = false ->
  PyStr.endswith name ".r" = false ->
  extract_side_and_base name = (name, "midline") /\
  forall names : dict string,
    (forall base info,
        In (base, info) (find_bilateral_pairs names) ->
        info_left info <> Some name /\ info_right info <> Some name) /\
    (In name (keys names) ->
     In name (keys (fst (filter_for_export names (find_bilateral_pairs names))))) /\
    ~ In name (snd (filter_for_export names (find_bilateral_pairs names))).
Proof.
  intros Hl Hr. split; [now apply Bilateral.extract_midline|].
  intros names. split; [|split].
  - intros base info Hin. apply Bilateral.pairs_entry in Hin.
    destruct Hin as [-> ->]. split; intros [= <-].
    + now rewrite PyStrFacts.endswith_app in Hl.
    + now rewrite PyStrFacts.endswith_app in Hr.
  - intros Hin.
    apply (Bilateral.filter_for_export_spec names (find_bilateral_pairs names)).
    split; [exact Hin | now apply Bilateral.kept_midline].
  - intros Hin.
    apply (Bilateral.filter_for_export_spec names (find_bilateral_pairs names)) in Hin.
    destruct Hin as [_ Hk]. rewrite Bilateral.kept_midline in Hk by assumption.
    discriminate.
Qed.

Lemma C9_witness :
  PyStr.endswith "biceps.L" ".l" = false /\
  PyStr.endswith "biceps.L" ".r" = false /\
  extract_side_and_base "biceps.L" = ("biceps.L", "midline").
Proof.
  split; [reflexivity|]. split; [reflexivity|].
  apply (C9_other_spellings_are_midline "biceps.L"); reflexivity.
Defined.

(** The spellings that the claim names, and a pair spelled with capitals:
    both members stay in the export set. *)
Example other_spellings :
  extract_side_and_base "biceps.L" = ("biceps.L", "midline") /\
  extract_side_and_base "biceps_l" = ("biceps_l", "midline") /\
  extract_side_and_base "biceps left" = ("biceps left", "midline") /\
  filter_for_export (get_all_structure_names Toy.capitals_registry)
    (find_bilateral_pairs (get_all_structure_names Toy.capitals_registry)) =
  ([("biceps.L", "arm"); ("biceps.R", "arm")], []).
Proof. repeat split. Qed.

(** [splitSide] on the names of the specification. *)
Example split_side_examples :
  extract_side_and_base "quadratus lumborum.l" = ("quadratus lumborum", "left") /\
  extract_side_and_base "linea alba" = ("linea alba", "midline").
Proof. split; reflexivity. Qed.

(** C4, as the code has it.  [get_anatomical_type] answers [muscle] only
    when no fascia, tendon/sheath or capsule keyword occurs in the name; so
    a name with a tendon/sheath keyword and a muscle keyword is never
    [muscle]: it is [tendon], unless a fascia keyword occurs in it too,
    which is looked for first and makes it [fascia].  The function is total:
    every name gets one of the ten types, and [other] exactly when none of
    the keywords of the cascade occurs. *)
Theorem C4_tendon_sheath_never_muscle (name : string) :
  PyStr.any_in (PyStr.lower name) ["tendon"; "sheath"] = true ->
  PyStr.any_in (PyStr.lower name) muscle_keywords = true ->
  get_anatomical_type name <> "muscle" /\
  (PyStr.any_in (PyStr.lower name) fascia_keywords = false ->
   get_anatomical_type name = "tendon") /\
  (PyStr.any_in (PyStr.lower name) fascia_keywords = true ->
   get_anatomical_type name = "fascia") /\
  (forall other_name,
      In (get_anatomical_type other_name) anatomical_types /\
      (get_anatomical_type other_name = "muscle" ->
       PyStr.any_in (PyStr.lower other_name) fascia_keywords = false /\
       PyStr.any_in (PyStr.lower other_name) ["tendon"; "sheath"] = false /\
       PyStr.contains (PyStr.lower other_name) "capsule" = false) /\
      (get_anatomical_type other_name = "other" <->
       PyStr.any_in (PyStr.lower other_name)
         (fascia_keywords ++ ["tendon"; "sheath"; "articular capsule"; "capsule"] ++
          muscle_keywords ++ bone_keywords ++ ligament_keywords ++
          cartilage_keywords ++
          ["membrane"; "bursa"; "bursae"; "frenula capsulae"; "capsule of"]) = false)).
Proof.
  intros Htendon Hmuscle. split; [|split; [|split]].
  - intros Hm. apply Classifier.muscle_only_after in Hm.
    destruct Hm as [_ [Hno _]]. congruence.
  - intros Hf. now apply Classifier.tendon_second.
  - apply Classifier.fascia_first.
  - intros other_name. split; [apply Classifier.get_anatomical_type_total|].
    split; [|apply Classifier.other_iff_no_keyword].
    intros Hm. apply Classifier.muscle_only_after in Hm. tauto.
Qed.

Lemma C4_witness :
  PyStr.any_in (PyStr.lower "flexor digitorum tendon sheath") ["tendon"; "sheath"] = true /\
  PyStr.any_in (PyStr.lower "flexor digitorum tendon sheath") muscle_keywords = true /\
  get_anatomical_type "flexor digitorum tendon sheath" <> "muscle".
Proof.
  split; [reflexivity|]. split; [reflexivity|].
  apply (C4_tendon_sheath_never_muscle "flexor digitorum tendon sheath"); reflexivity.
Defined.

(** C4 as stated fails: this name has a tendon/sheath keyword and a muscle
    keyword, and its type is [fascia], not [tendon]. *)
Lemma C4_counterexample :
  PyStr.any_in (PyStr.lower "Tendon sheath of flexor digitorum at flexor retinaculum")
               ["tendon"; "sheath"] = true /\
  PyStr.any_in (PyStr.lower "Tendon sheath of flexor digitorum at flexor retinaculum")
               muscle_keywords = true /\
  get_anatomical_type "Tendon sheath of flexor digitorum at flexor retinaculum"
    <> "tendon".
Proof. repeat split. discriminate. Qed.

Example tendon_sheath_example :
  get_anatomical_type "flexor digitorum tendon sheath" = "tendon" /\
  get_anatomical_type "Tendon sheath of flexor digitorum at flexor retinaculum"
    = "fascia".
Proof. split; reflexivity. Qed.

(** ** Mesh ids *)

(** C6, as the code has it.  [normalize_mesh_id] lowercases the name;
    takes a [.l]/[.r] suffix off; rewrites every space, hyphen and period
    to the separator [_] and deletes parentheses; shrinks runs of separators
    to one; strips separators at both ends; and, when [is_bilateral] is
    false, puts the side tag [_l]/[_r] of the suffix back at the end. *)
Theorem C6_normalize_mesh_id_rule (name : string) (is_bilateral : bool) :
  normalize_mesh_id name is_bilateral = Words.normalize_id name is_bilateral.
Proof.
  unfold normalize_mesh_id, Words.normalize_id, strip_side_suffix, split_side_suffix.
  generalize (PyStr.lower name). intros low.
  change (String.length ".l") with 2. change (String.length ".r") with 2.
  destruct is_bilateral;
    destruct (PyStr.endswith low ".l"); [| destruct (PyStr.endswith low ".r") | |
                                         destruct (PyStr.endswith low ".r")];
    cbn [orb]; rewrite Normalizer.normalize_characters_tidy;
    rewrite ?Normalizer.append_nil_r; reflexivity.
Qed.

(** C6 as stated fails: the code deletes parentheses, it does not turn
    them into separators. *)
Lemma C6_counterexample :
  normalize_mesh_id "levator ani(iliococcygeus)" false = "levator_aniiliococcygeus" /\
  SpecWords.normalizeId "levator ani(iliococcygeus)" false = "levator_ani_iliococcygeus" /\
  normalize_mesh_id "levator ani(iliococcygeus)" false <>
  SpecWords.normalizeId "levator ani(iliococcygeus)" false.
Proof. repeat split. discriminate. Qed.

(** On the names of the specification. *)
Example normalize_examples :
  normalize_mesh_id "Psoas Major" false = "psoas_major" /\
  normalize_mesh_id "psoas_major" false = "psoas_major" /\
  normalize_mesh_id "gluteus maximus.l" true = "gluteus_maximus" /\
  normalize_mesh_id "gluteus maximus.l" false = "gluteus_maximus_l" /\
  normalize_mesh_id "Rib (1st) - left.R" false = "rib_1st_left_r".
Proof. repeat split. Qed.

(** ** Processing *)

(** C10. The pattern list of the V11 exporter is empty, so
    [needs_location_sum_fix] is false for every name, and the loop hands
    every structure to [process_standard_object]. *)
Theorem C10_location_sum_path_unreachable :
  BROKEN_PARENT_CHAIN_PATTERNS = [] /\
  (forall name, needs_location_sum_fix name = false) /\
  (forall (H : Host) (original : Obj) (export_collection : Collection)
          (precomputed_transform : option transform) (s : Scene),
      process_mesh original export_collection precomputed_transform s =
      process_standard_object original export_collection precomputed_transform s).
Proof.
  split; [reflexivity|]. split.
  - apply Processing.needs_location_sum_fix_false.
  - intros. apply Processing.process_mesh_standard.
Qed.

(** The previous exporter had three patterns, and took that path. *)
Example V10_location_sum_path :
  V10.needs_location_sum_fix "Interpubic disc" = true /\
  needs_location_sum_fix "Interpubic disc" = false.
Proof. split; reflexivity. Qed.

(** C2. Given a snapshot, [process_standard_object] decides by the strict
    comparison [position_diff > 0.001] alone.  Beyond the tolerance it runs,
    after the duplication, [copy.parent = None], then
    [copy.matrix_world = precomputed_matrix.copy()] with the matrix of the
    snapshot, then [view_layer.update()], and bakes; it does not run
    [parent_clear].  Otherwise, and so at a distance equal to the tolerance,
    it runs [parent_clear(type='CLEAR_KEEP_TRANSFORM')] on the copy when the
    copy has a parent, then [view_layer.update()], and bakes; it does not
    assign the world matrix. *)
Theorem C2_corrective_path_iff_beyond_tolerance
    (H : Host) (original : Obj) (export_collection : Collection)
    (snapshot : transform) (s : Scene) :
  (needs_matrix_fix (obj_matrix_world s original) (Some (t_matrix snapshot)) = true <->
   PrimFloat.ltb MATRIX_FIX_TOLERANCE (position_diff s original snapshot) = true) /\
  (PrimFloat.ltb MATRIX_FIX_TOLERANCE (position_diff s original snapshot) = true ->
   process_standard_object original export_collection (Some snapshot) s =
   (copy <- duplicate_for_export original export_collection ;;
    set_parent_none copy ;;;
    set_matrix_world copy (t_matrix snapshot) ;;;
    view_layer_update ;;;
    bake_and_center copy) s) /\
  (PrimFloat.ltb MATRIX_FIX_TOLERANCE (position_diff s original snapshot) = false ->
   process_standard_object original export_collection (Some snapshot) s =
   (copy <- duplicate_for_export original export_collection ;;
    parent <- read (fun s' => obj_parent s' copy) ;;
    match parent with
    | Some _ =>
        select_all_deselect ;;;
        select_set copy ;;;
        set_active copy ;;;
        parent_clear_keep_transform
    | None => ret tt
    end ;;;
    view_layer_update ;;;
    bake_and_center copy) s) /\
  (position_diff s original snapshot = MATRIX_FIX_TOLERANCE ->
   PrimFloat.ltb MATRIX_FIX_TOLERANCE (position_diff s original snapshot) = false).
Proof.
  split; [now rewrite Processing.needs_matrix_fix_snapshot|].
  split; [|split].
  - intros Hlt. unfold process_standard_object.
    rewrite Steps.bind_read. cbn [option_map].
    rewrite Processing.needs_matrix_fix_snapshot, Hlt.
    apply Steps.bind_ext. intros copy s1.
    unfold corrective_path.
    repeat (rewrite ?Steps.bind_assoc; first [reflexivity | apply Steps.bind_ext; intros ? ?]).
  - intros Hlt. unfold process_standard_object.
    rewrite Steps.bind_read. cbn [option_map].
    rewrite Processing.needs_matrix_fix_snapshot, Hlt.
    apply Steps.bind_ext. intros copy s1.
    unfold standard_path. rewrite Steps.bind_assoc, !Steps.bind_read.
    destruct (obj_parent s1 copy); unfold when;
      repeat (rewrite ?Steps.bind_assoc; first [reflexivity | apply Steps.bind_ext; intros ? ?]).
  - intros ->. apply Processing.tolerance_not_exceeded.
Qed.

Lemma C2_witness :
  (PrimFloat.ltb MATRIX_FIX_TOLERANCE
     (position_diff (H := Toy.host) Toy.moved_child_scene 1 Toy.origin_snapshot) = true /\
   Toy.o_parent (Toy.object_at Toy.moved_child_scene 1) = Some 0 /\
   Toy.o_parent (Toy.object_at
     (fst (process_standard_object (H := Toy.host) 1 tt (Some Toy.origin_snapshot)
             Toy.moved_child_scene)) 2) = None /\
   Toy.o_world (Toy.object_at
     (fst (process_standard_object (H := Toy.host) 1 tt (Some Toy.origin_snapshot)
             Toy.moved_child_scene)) 2) = t_matrix Toy.origin_snapshot) /\
  (position_diff (H := Toy.host) Toy.at_tolerance_scene 0 Toy.origin_snapshot
   = MATRIX_FIX_TOLERANCE /\
   Toy.o_world (Toy.object_at
     (fst (process_standard_object (H := Toy.host) 0 tt (Some Toy.origin_snapshot)
             Toy.at_tolerance_scene)) 1) =
   Toy.o_world (Toy.object_at Toy.at_tolerance_scene 0)).
Proof.
  split.
  - split; [reflexivity|]. split; [reflexivity|].
    rewrite (proj1 (proj2 (C2_corrective_path_iff_beyond_tolerance
                             Toy.host 1 tt Toy.origin_snapshot Toy.moved_child_scene))
                   eq_refl).
    split; reflexivity.
  - split; [reflexivity|].
    pose proof (C2_corrective_path_iff_beyond_tolerance
                  Toy.host 0 tt Toy.origin_snapshot Toy.at_tolerance_scene)
      as [_ [_ [Hstandard Hequal]]].
    rewrite (Hstandard (Hequal eq_refl)). reflexivity.
Defined.

(** On the small host the two paths are told apart by what they leave: the
    corrective path puts the copy on the snapshot, the standard path leaves
    it where the original is. *)
Example paths_on_toy :
  Toy.o_world (Toy.object_at
    (fst (process_standard_object (H := Toy.host) 0 tt (Some Toy.origin_snapshot)
            Toy.beyond_tolerance_scene)) 1) = (0, 0, 0)%float /\
  Toy.o_world (Toy.object_at
    (fst (process_standard_object (H := Toy.host) 0 tt (Some Toy.origin_snapshot)
            Toy.at_tolerance_scene)) 1) = Toy.o_world (Toy.object_at Toy.at_tolerance_scene 0).
Proof. split; reflexivity. Qed.

(** ** The run *)

(** C1. For a complete pair of the registry, the left member is in the
    export set and the right member is not (it is in the skipped list).
    In the loop, a round for the left member that raises nothing writes a
    record for it, whatever happens to the other structures: the record is
    under the mesh id of the round and stays there to the end of the loop,
    it has [bilateral = true] and a [mirroredCenter] that is its [center]
    with X negated and Y and Z unchanged, the copy is among the exported
    objects, and the bilateral count goes up by one; in a complete run this
    record is in the metadata.  In a complete run every record of the left
    member is of this form, and no record is of the right member. *)
Theorem C1_pair_exports_left_with_mirrored_center
    (H : Host) (reg : registry) (base : string) :
  In (base ++ ".l")%string (keys (get_all_structure_names reg)) ->
  In (base ++ ".r")%string (keys (get_all_structure_names reg)) ->
  In (base ++ ".l")%string (keys (export_set reg)) /\
  ~ In (base ++ ".r")%string (keys (export_set reg)) /\
  In (base ++ ".r")%string
     (snd (filter_for_export (get_all_structure_names reg)
             (find_bilateral_pairs (get_all_structure_names reg)))) /\
  (forall (s : Scene) (export_collection : Collection) (s0 : Scene)
          (pre post : dict Obj) (original copy : Obj),
      found_in reg s = pre ++ ((base ++ ".l")%string, original) :: post ->
      processed reg s export_collection s0 pre (base ++ ".l") original = Some copy ->
      exists m,
        In (id_for reg (snd (loop_on reg s export_collection s0 pre)) (base ++ ".l"), m)
           (structures (snd (loop_on reg s export_collection s0 (found_in reg s)))) /\
        In copy
           (export_objects (snd (loop_on reg s export_collection s0 (found_in reg s)))) /\
        originalName m = (base ++ ".l")%string /\
        bilateral m = true /\
        (exists x y z,
            center m = (x, y, z) /\
            mirroredCenter m = Some ((- x)%float, y, z)) /\
        st_bilateral (stats (snd (loop_on reg s export_collection s0
                                    (pre ++ [((base ++ ".l")%string, original)])))) =
          S (st_bilateral (stats (snd (loop_on reg s export_collection s0 pre)))) /\
        (forall (s' : Scene) (rep : ExportReport) (md : metadata) (st : stats_t),
            export_torso (Some reg) s = (s', Ok (Some (rep, md, st))) ->
            create_export_collection (capture_session s) = (s0, Ok export_collection) ->
            In (id_for reg (snd (loop_on reg s export_collection s0 pre)) (base ++ ".l"), m)
               (md_structures md))) /\
  forall (s s' : Scene) (rep : ExportReport) (md : metadata) (st : stats_t),
    export_torso (Some reg) s = (s', Ok (Some (rep, md, st))) ->
    (forall id m,
        In (id, m) (md_structures md) ->
        originalName m = (base ++ ".l")%string ->
        bilateral m = true /\
        exists x y z,
          center m = (x, y, z) /\
          mirroredCenter m = Some ((- x)%float, y, z)) /\
    (forall id m,
        In (id, m) (md_structures md) ->
        originalName m <> (base ++ ".r")%string) /\
    (st_failed st = 0 ->
     In (base ++ ".l")%string (keys (found_in reg s)) ->
     exists id m,
       In (id, m) (md_structures md) /\ originalName m = (base ++ ".l")%string).
Proof.
  intros Hl Hr.
  set (names := get_all_structure_names reg) in *.
  set (pairs := find_bilateral_pairs names) in *.
  destruct (Bilateral.complete_pair_filtered names base Hl Hr)
    as [Hpair [Hkeep [Hnot Hskip]]].
  fold pairs in Hpair. fold names (export_set reg) in Hkeep, Hnot.
  split; [exact Hkeep|]. split; [exact Hnot|]. split; [exact Hskip|].
  split.
  { intros s col s0 pre post original copy Hfound Hdone.
    assert (Hin : In (base ++ ".l")%string (keys (found_in reg s))).
    { rewrite Hfound, PyDictFacts.keys_snoc_cons. apply in_or_app. right. now left. }
    destruct (Steps.found_has_region reg s _ Hin) as [region Hreg].
    unfold processed, loop_on in Hdone.
    destruct (Steps.round_success pairs (export_set reg)
                (compute_structure_layers (found_in reg s)) (snapshot_of reg s)
                col pre post (base ++ ".l") original copy s0 region Hdone Hreg)
      as [wc [_ [_ [_ [_ [Hst [Hrec [Hobj _]]]]]]]].
    rewrite Bilateral.extract_left in Hrec, Hst. cbn [fst snd] in Hrec, Hst.
    fold names pairs in Hrec, Hst. rewrite Hpair in Hrec, Hst.
    rewrite <- Hfound in Hrec, Hobj.
    eexists. split; [exact Hrec|]. split; [exact Hobj|].
    split; [reflexivity|]. split; [reflexivity|].
    split.
    { cbn [center mirroredCenter build_structure_meta].
      destruct (blender_to_threejs wc) as [[x y] z]. exists x, y, z. split; reflexivity. }
    split; [unfold loop_on; fold names pairs; rewrite Hst; reflexivity|].
    intros s' rep md st Hrun Hcol.
    apply Steps.complete_run_loop in Hrun.
    destruct Hrun as [s4 [col' [Hcol' [Hmd _]]]].
    rewrite Hcol in Hcol'. injection Hcol' as <- <-.
    rewrite Hmd. exact Hrec. }
  intros s s' rep md st Hrun.
  apply WholeRun.complete_run_ok in Hrun.
  destruct Hrun as [rs [Hok [Hmd [Hst _]]]]. rewrite Hmd. subst st.
  destruct Hok as [_ [_ [_ [Hcover [Hrec _]]]]].
  split; [|split].
  - intros id m Hin Hname. apply Hrec in Hin.
    apply WholeRun.record_fields in Hin.
    destruct Hin as [_ [_ [_ [Hb [_ [Hmc _]]]]]].
    rewrite Hname, Bilateral.extract_left in Hb. cbn [fst] in Hb.
    fold names pairs in Hb. rewrite Hpair in Hb.
    split; [exact Hb|]. rewrite Hb in Hmc.
    destruct (center m) as [[x y] z]. exists x, y, z. split; [reflexivity | exact Hmc].
  - intros id m Hin Hname. apply Hrec in Hin.
    apply WholeRun.record_fields in Hin. destruct Hin as [_ [Hfound _]].
    rewrite Hname in Hfound.
    apply (WholeRun.find_all_spec (lookup_session s) (export_set reg)) in Hfound.
    destruct Hfound as [Hexp _]. contradiction.
  - intros Hz Hfound. rewrite <- (Hcover Hz) in Hfound.
    apply in_map_iff in Hfound. destruct Hfound as [[id m] [Hname Hin]].
    exists id, m. auto.
Qed.

Lemma C1_witness :
  In "gluteus maximus.l" (keys (get_all_structure_names Toy.pelvis_registry)) /\
  In "gluteus maximus.r" (keys (get_all_structure_names Toy.pelvis_registry)) /\
  found_in (H := Toy.host) Toy.pelvis_registry Toy.pelvis_scene =
    [("sacrum", 0)] ++ ("gluteus maximus.l", 1) :: [] /\
  processed (H := Toy.host) Toy.pelvis_registry Toy.pelvis_scene tt Toy.pelvis_scene
            [("sacrum", 0)] "gluteus maximus.l" 1 = Some 4 /\
  exists m,
    In ("gluteus_maximus", m)
       (structures (snd (loop_on (H := Toy.host) Toy.pelvis_registry Toy.pelvis_scene tt
                           Toy.pelvis_scene
                           (found_in (H := Toy.host) Toy.pelvis_registry
                                     Toy.pelvis_scene)))) /\
    originalName m = "gluteus maximus.l" /\
    bilateral m = true /\
    exists x y z, center m = (x, y, z) /\ mirroredCenter m = Some ((- x)%float, y, z).
Proof.
  assert (Hl : In "gluteus maximus.l"
                  (keys (get_all_structure_names Toy.pelvis_registry)))
    by (simpl; auto).
  assert (Hr : In "gluteus maximus.r"
                  (keys (get_all_structure_names Toy.pelvis_registry)))
    by (simpl; auto).
  assert (Hfound : found_in (H := Toy.host) Toy.pelvis_registry Toy.pelvis_scene =
                   [("sacrum", 0)] ++ ("gluteus maximus.l", 1) :: [])
    by (vm_compute; reflexivity).
  assert (Hdone : processed (H := Toy.host) Toy.pelvis_registry Toy.pelvis_scene tt
                    Toy.pelvis_scene [("sacrum", 0)] "gluteus maximus.l" 1 = Some 4)
    by (vm_compute; reflexivity).
  split; [exact Hl|]. split; [exact Hr|]. split; [exact Hfound|]. split; [exact Hdone|].
  destruct (proj1 (proj2 (proj2 (proj2
              (C1_pair_exports_left_with_mirrored_center
                 Toy.host Toy.pelvis_registry "gluteus maximus" Hl Hr))))
              Toy.pelvis_scene tt Toy.pelvis_scene [("sacrum", 0)] [] 1 4 Hfound Hdone)
    as [m [Hin [_ [Hname [Hb [Hmirror _]]]]]].
  exists m. split; [exact Hin|]. split; [exact Hname|]. split; [exact Hb | exact Hmirror].
Defined.

(** The pelvis scenario of the specification, run on the small host. *)
Example pelvis_run :
  exists rep st left_record,
    snd (export_torso (H := Toy.host) (Some Toy.pelvis_registry) Toy.pelvis_scene) =
      Ok (Some (rep,
                mk_metadata 1 1
                  [("sacrum",
                    mk_meta "sacrum" "sacrum" "sacrum" "bone" 0 "pelvis" false
                            (0, 1, -0)%float None);
                   ("gluteus_maximus", left_record)],
                st)) /\
    originalName left_record = "gluteus maximus.l" /\
    bilateral left_record = true /\
    center left_record = (3, 5, -4)%float /\
    mirroredCenter left_record = Some (-3, 5, -4)%float /\
    bilateral_count rep = 1 /\ midline_count rep = 1 /\
    skipped_right rep = ["gluteus maximus.r"].
Proof. do 3 eexists. vm_compute. repeat split. Qed.

(** C3. The snapshot has, for every found structure, the world matrix and
    the geometry center that it has in the session of the capture, before
    the export collection is created and any structure is processed.  In a
    complete run the [center] of every record is that geometry center,
    converted by [blender_to_threejs]: whatever the operators of the
    processing paths do to the session, they do not change it. *)
Theorem C3_center_comes_from_snapshot
    (H : Host) (reg : registry) (s s' : Scene)
    (rep : ExportReport) (md : metadata) (st : stats_t) :
  export_torso (Some reg) s = (s', Ok (Some (rep, md, st))) ->
  (forall name obj,
      In (name, obj) (found_in reg s) ->
      get (snapshot_of reg s) name =
      Some (mk_transform (obj_matrix_world (capture_session s) obj)
                         (get_world_geometry_center (capture_session s) obj))) /\
  (forall id m,
      In (id, m) (md_structures md) ->
      exists obj,
        In (originalName m, obj) (found_in reg s) /\
        find_structure_in_blender (lookup_session s) (originalName m) = Some obj /\
        center m =
        blender_to_threejs (get_world_geometry_center (capture_session s) obj)).
Proof.
  intros Hrun.
  destruct (WholeRun.find_all_spec (lookup_session s) (export_set reg))
    as [Hwf [Hobj _]]. fold (found_in reg s) in Hwf, Hobj.
  assert (Hsnap : forall name obj,
             In (name, obj) (found_in reg s) ->
             get (snapshot_of reg s) name =
             Some (mk_transform (obj_matrix_world (capture_session s) obj)
                     (get_world_geometry_center (capture_session s) obj))).
  { intros name obj Hin. now apply WholeRun.precompute_get. }
  split; [exact Hsnap|].
  apply WholeRun.complete_run_ok in Hrun.
  destruct Hrun as [rs [Hok [Hmd _]]]. rewrite Hmd.
  destruct Hok as [_ [_ [_ [_ [Hrec _]]]]].
  intros id m Hin. apply Hrec in Hin. apply WholeRun.record_fields in Hin.
  destruct Hin as [_ [Hfound [_ [_ [_ [_ Hcenter]]]]]].
  apply in_map_iff in Hfound. destruct Hfound as [[name obj] [Hname Hin]].
  cbn [fst] in Hname. subst name. exists obj.
  split; [exact Hin|]. split; [apply (Hobj _ _ Hin)|].
  now rewrite (Hcenter _ (Hsnap _ _ Hin)).
Qed.

Lemma C3_witness :
  snd (export_torso (H := Toy.host) (Some Toy.pelvis_registry) Toy.pelvis_scene) <> Raised /\
  get (snapshot_of (H := Toy.host) Toy.pelvis_registry Toy.pelvis_scene)
      "gluteus maximus.l" =
  Some (mk_transform (H := Toy.host) (2, 3, 4)%float (3, 4, 5)%float).
Proof.
  split; [vm_compute; discriminate|].
  refine (proj1 (C3_center_comes_from_snapshot Toy.host Toy.pelvis_registry
                   Toy.pelvis_scene _ _ _ _ _) "gluteus maximus.l" 1 _).
  - vm_compute. reflexivity.
  - vm_compute. auto.
Defined.

(** C5, as the code has it.  Whatever the loop has gone through, no two
    records share a [meshId], and every structure has a record of its own or
    is counted as failed: no record is ever written over.  A round that
    raises nothing appends one record, under the first of [base], [base_1],
    [base_2], ... that is not in use; that id is new to the ids in use and
    to the records, it is added to the ids in use, and the record stays to
    the end of the loop.  The id is [base] exactly when [base] is not in
    use; when [base] is in use it carries a suffix, which is [_1] when
    [base_1] is not in use.  So of two names with the same base id, both
    processed without exception, the first gets [base] when it is free and
    the second [base_1] when that is free, and both records are there in
    the end.  In a complete run the metadata holds these records. *)
Theorem C5_mesh_ids_unique
    (H : Host) (reg : registry) (s : Scene) (export_collection : Collection)
    (s0 : Scene) :
  (forall entries : dict Obj,
      NoDup (map (fun e => meshId (snd e))
                 (structures (snd (loop_on reg s export_collection s0 entries)))) /\
      (forall id m,
          In (id, m) (structures (snd (loop_on reg s export_collection s0 entries))) ->
          meshId m = id) /\
      incl (keys (structures (snd (loop_on reg s export_collection s0 entries))))
           (used_ids (snd (loop_on reg s export_collection s0 entries))) /\
      List.length (structures (snd (loop_on reg s export_collection s0 entries))) +
      st_failed (stats (snd (loop_on reg s export_collection s0 entries))) =
      List.length entries) /\
  (forall (pre post : dict Obj) (name : string) (original copy : Obj),
      found_in reg s = pre ++ (name, original) :: post ->
      processed reg s export_collection s0 pre name original = Some copy ->
      exists m k,
        structures (snd (loop_on reg s export_collection s0 (pre ++ [(name, original)]))) =
          structures (snd (loop_on reg s export_collection s0 pre)) ++
          [(id_for reg (snd (loop_on reg s export_collection s0 pre)) name, m)] /\
        used_ids (snd (loop_on reg s export_collection s0 (pre ++ [(name, original)]))) =
          used_ids (snd (loop_on reg s export_collection s0 pre)) ++
          [id_for reg (snd (loop_on reg s export_collection s0 pre)) name] /\
        meshId m = id_for reg (snd (loop_on reg s export_collection s0 pre)) name /\
        originalName m = name /\
        In (id_for reg (snd (loop_on reg s export_collection s0 pre)) name, m)
           (structures (snd (loop_on reg s export_collection s0 (found_in reg s)))) /\
        id_for reg (snd (loop_on reg s export_collection s0 pre)) name =
          candidate (base_id_of reg name) k /\
        (forall j, j < k ->
                   In (candidate (base_id_of reg name) j)
                      (used_ids (snd (loop_on reg s export_collection s0 pre)))) /\
        ~ In (id_for reg (snd (loop_on reg s export_collection s0 pre)) name)
             (used_ids (snd (loop_on reg s export_collection s0 pre))) /\
        ~ In (id_for reg (snd (loop_on reg s export_collection s0 pre)) name)
             (keys (structures (snd (loop_on reg s export_collection s0 pre)))) /\
        (k = 0 <->
         ~ In (base_id_of reg name)
              (used_ids (snd (loop_on reg s export_collection s0 pre)))) /\
        (In (base_id_of reg name)
            (used_ids (snd (loop_on reg s export_collection s0 pre))) ->
         id_for reg (snd (loop_on reg s export_collection s0 pre)) name =
           (base_id_of reg name ++ "_" ++ PyStr.of_nat k)%string /\
         id_for reg (snd (loop_on reg s export_collection s0 pre)) name <>
           base_id_of reg name) /\
        (In (base_id_of reg name)
            (used_ids (snd (loop_on reg s export_collection s0 pre))) ->
         ~ In (base_id_of reg name ++ "_1")%string
              (used_ids (snd (loop_on reg s export_collection s0 pre))) ->
         id_for reg (snd (loop_on reg s export_collection s0 pre)) name =
           (base_id_of reg name ++ "_1")%string)) /\
  (forall (pre mid post : dict Obj) (name1 name2 : string)
          (original1 copy1 original2 copy2 : Obj),
      found_in reg s = pre ++ (name1, original1) :: mid ++ (name2, original2) :: post ->
      processed reg s export_collection s0 pre name1 original1 = Some copy1 ->
      processed reg s export_collection s0 (pre ++ (name1, original1) :: mid)
                name2 original2 = Some copy2 ->
      base_id_of reg name2 = base_id_of reg name1 ->
      ~ In (base_id_of reg name1)
           (used_ids (snd (loop_on reg s export_collection s0 pre))) ->
      ~ In (base_id_of reg name1 ++ "_1")%string
           (used_ids (snd (loop_on reg s export_collection s0
                             (pre ++ (name1, original1) :: mid)))) ->
      exists m1 m2,
        In (base_id_of reg name1, m1)
           (structures (snd (loop_on reg s export_collection s0 (found_in reg s)))) /\
        originalName m1 = name1 /\
        In ((base_id_of reg name1 ++ "_1")%string, m2)
           (structures (snd (loop_on reg s export_collection s0 (found_in reg s)))) /\
        originalName m2 = name2) /\
  (forall (s' : Scene) (rep : ExportReport) (md : metadata) (st : stats_t),
      export_torso (Some reg) s = (s', Ok (Some (rep, md, st))) ->
      NoDup (map (fun e => meshId (snd e)) (md_structures md)) /\
      (create_export_collection (capture_session s) = (s0, Ok export_collection) ->
       md_structures md =
       structures (snd (loop_on reg s export_collection s0 (found_in reg s))))).
Proof.
  set (pairs := find_bilateral_pairs (get_all_structure_names reg)).
  assert (Hinv : forall entries : dict Obj,
             NoDup (map (fun e => meshId (snd e))
                        (structures (snd (loop_on reg s export_collection s0 entries)))) /\
             (forall id m,
                 In (id, m) (structures (snd (loop_on reg s export_collection s0 entries))) ->
                 meshId m = id) /\
             incl (keys (structures (snd (loop_on reg s export_collection s0 entries))))
                  (used_ids (snd (loop_on reg s export_collection s0 entries))) /\
             List.length (structures (snd (loop_on reg s export_collection s0 entries))) +
             st_failed (stats (snd (loop_on reg s export_collection s0 entries))) =
             List.length entries).
  { intros entries. unfold loop_on.
    pose proof (Run.export_loop_ok pairs (export_set reg)
                  (compute_structure_layers (found_in reg s)) (snapshot_of reg s)
                  export_collection entries s0) as Hok.
    destruct Hok as [Hincl [_ [Hwf [_ [Hrec _]]]]].
    assert (Hid : forall id m,
               In (id, m)
                  (structures (snd (export_loop pairs (export_set reg)
                     (compute_structure_layers (found_in reg s)) (snapshot_of reg s)
                     export_collection entries initial_run s0))) ->
               meshId m = id).
    { intros id m Hin. apply Hrec in Hin. apply Hin. }
    split.
    { match goal with
      | |- NoDup (map _ ?d) => replace (map (fun e => meshId (snd e)) d) with (keys d)
      end; [exact Hwf|].
      unfold keys. apply map_ext_in. intros [id m] Hin. symmetry. now apply Hid. }
    split; [exact Hid|]. split; [exact Hincl|].
    apply MoreRun.loop_accounts. }
  assert (Hround : forall (pre post : dict Obj) (name : string) (original copy : Obj),
             found_in reg s = pre ++ (name, original) :: post ->
             processed reg s export_collection s0 pre name original = Some copy ->
             exists m,
               structures (snd (loop_on reg s export_collection s0
                                  (pre ++ [(name, original)]))) =
                 structures (snd (loop_on reg s export_collection s0 pre)) ++
                 [(id_for reg (snd (loop_on reg s export_collection s0 pre)) name, m)] /\
               used_ids (snd (loop_on reg s export_collection s0
                                (pre ++ [(name, original)]))) =
                 used_ids (snd (loop_on reg s export_collection s0 pre)) ++
                 [id_for reg (snd (loop_on reg s export_collection s0 pre)) name] /\
               meshId m = id_for reg (snd (loop_on reg s export_collection s0 pre)) name /\
               originalName m = name /\
               (forall post',
                   In (id_for reg (snd (loop_on reg s export_collection s0 pre)) name, m)
                      (structures (snd (loop_on reg s export_collection s0
                                          (pre ++ (name, original) :: post')))) /\
                   In (id_for reg (snd (loop_on reg s export_collection s0 pre)) name)
                      (used_ids (snd (loop_on reg s export_collection s0
                                        (pre ++ (name, original) :: post')))))).
  { intros pre post name original copy Hfound Hdone.
    assert (Hinf : In name (keys (found_in reg s))).
    { rewrite Hfound, PyDictFacts.keys_snoc_cons. apply in_or_app. right. now left. }
    destruct (Steps.found_has_region reg s _ Hinf) as [region Hreg].
    unfold processed, loop_on in Hdone.
    destruct (Steps.round_success pairs (export_set reg)
                (compute_structure_layers (found_in reg s)) (snapshot_of reg s)
                export_collection pre [] name original copy s0 region Hdone Hreg)
      as [wc [Hwc [Hs [Hu _]]]].
    eexists. split; [exact Hs|]. split; [exact Hu|].
    split; [reflexivity|]. split; [reflexivity|].
    intros post'.
    destruct (Steps.round_success pairs (export_set reg)
                (compute_structure_layers (found_in reg s)) (snapshot_of reg s)
                export_collection pre post' name original copy s0 region Hdone Hreg)
      as [wc' [Hwc' [Hs' [_ [_ [_ [Hrec [_ Hused]]]]]]]].
    assert (Hsame : build_structure_meta (compute_structure_layers (found_in reg s)) name
                      (entry_mesh_id pairs
                         (snd (export_loop pairs (export_set reg)
                                 (compute_structure_layers (found_in reg s))
                                 (snapshot_of reg s) export_collection pre initial_run s0))
                         name)
                      (fst (extract_side_and_base name)) region
                      (mem pairs (fst (extract_side_and_base name))) wc' =
                    build_structure_meta (compute_structure_layers (found_in reg s)) name
                      (entry_mesh_id pairs
                         (snd (export_loop pairs (export_set reg)
                                 (compute_structure_layers (found_in reg s))
                                 (snapshot_of reg s) export_collection pre initial_run s0))
                         name)
                      (fst (extract_side_and_base name)) region
                      (mem pairs (fst (extract_side_and_base name))) wc).
    { rewrite Hs in Hs'. apply app_inv_head in Hs'. congruence. }
    rewrite Hsame in Hrec. split; [exact Hrec | exact Hused]. }
  split; [exact Hinv|].
  split.
  { intros pre post name original copy Hfound Hdone.
    destruct (Hround pre post name original copy Hfound Hdone)
      as [m [Hs [Hu [Hid [Hname Hlater]]]]].
    destruct (Hinv pre) as [_ [_ [Hincl _]]].
    set (used := used_ids (snd (loop_on reg s export_collection s0 pre))) in *.
    assert (Hidfor : id_for reg (snd (loop_on reg s export_collection s0 pre)) name =
                     allocate_mesh_id used (base_id_of reg name)) by reflexivity.
    destruct (Allocator.allocate_least used (base_id_of reg name))
      as [k [Hk [Hbelow Hfree]]].
    exists m, k. rewrite Hidfor in *. 
    split; [exact Hs|]. split; [exact Hu|]. split; [exact Hid|]. split; [exact Hname|].
    split; [rewrite Hfound; apply Hlater|].
    split; [exact Hk|]. split; [exact Hbelow|].
    split; [apply Allocator.allocate_fresh|].
    split.
    { intros Hin. apply (Allocator.allocate_fresh used (base_id_of reg name)).
      now apply Hincl. }
    split.
    { split.
      - intros ->. exact Hfree.
      - intros Hnot. destruct k as [|k]; [reflexivity|].
        exfalso. apply Hnot. apply (Hbelow 0). lia. }
    split.
    { intros Hin. destruct k as [|k]; [contradiction|].
      split; [exact Hk|].
      rewrite Hk. intros Heq. apply Hfree. rewrite Heq. exact Hin. }
    intros Hin Hnot. now apply Allocator.allocate_first_suffix. }
  split.
  { intros pre mid post name1 name2 original1 copy1 original2 copy2
           Hfound Hdone1 Hdone2 Hsame Hfree Hfree1.
    destruct (Hround pre (mid ++ (name2, original2) :: post) name1 original1 copy1
                Hfound Hdone1) as [m1 [_ [_ [_ [Hname1 Hlater1]]]]].
    assert (Hfound2 : found_in reg s =
                      (pre ++ (name1, original1) :: mid) ++ (name2, original2) :: post).
    { rewrite Hfound, <- app_assoc. reflexivity. }
    destruct (Hround _ post name2 original2 copy2 Hfound2 Hdone2)
      as [m2 [_ [_ [_ [Hname2 Hlater2]]]]].
    assert (Hid1 : id_for reg (snd (loop_on reg s export_collection s0 pre)) name1 =
                   base_id_of reg name1).
    { apply Allocator.allocate_unused. exact Hfree. }
    assert (Hid2 : id_for reg (snd (loop_on reg s export_collection s0
                                      (pre ++ (name1, original1) :: mid))) name2 =
                   (base_id_of reg name1 ++ "_1")%string).
    { unfold id_for, entry_mesh_id, entry_base_id. fold pairs.
      change (normalize_mesh_id name2 (mem pairs (fst (extract_side_and_base name2))))
        with (base_id_of reg name2).
      rewrite Hsame. apply Allocator.allocate_first_suffix; [|exact Hfree1].
      rewrite <- Hid1. apply (Hlater1 mid). }
    exists m1, m2. rewrite <- Hid1 at 1. rewrite <- Hid2.
    split; [rewrite Hfound; apply Hlater1|]. split; [exact Hname1|].
    split; [rewrite Hfound2; apply Hlater2 | exact Hname2]. }
  intros s' rep md st Hrun.
  split.
  - apply WholeRun.complete_run_ok in Hrun.
    destruct Hrun as [rs [Hok [Hmd _]]]. rewrite Hmd.
    destruct Hok as [_ [_ [Hwf [_ [Hrec _]]]]].
    replace (map (fun e => meshId (snd e)) (structures rs))
      with (keys (structures rs)); [exact Hwf|].
    unfold keys. apply map_ext_in. intros [id m] Hin. symmetry.
    apply Hrec in Hin. apply Hin.
  - intros Hcol. apply Steps.complete_run_loop in Hrun.
    destruct Hrun as [s4 [col' [Hcol' [Hmd _]]]].
    rewrite Hcol in Hcol'. injection Hcol' as <- <-. exact Hmd.
Qed.

Lemma C5_witness :
  found_in (H := Toy.host) Toy.psoas_registry Toy.psoas_scene =
    [("Psoas Major", 0)] ++ ("psoas_major", 1) :: [] /\
  processed (H := Toy.host) Toy.psoas_registry Toy.psoas_scene tt Toy.psoas_scene
            [("Psoas Major", 0)] "psoas_major" 1 = Some 3 /\
  In "psoas_major"
     (used_ids (snd (loop_on (H := Toy.host) Toy.psoas_registry Toy.psoas_scene tt
                       Toy.psoas_scene [("Psoas Major", 0)]))) /\
  exists m,
    In ("psoas_major_1", m)
       (structures (snd (loop_on (H := Toy.host) Toy.psoas_registry Toy.psoas_scene tt
                           Toy.psoas_scene
                           (found_in (H := Toy.host) Toy.psoas_registry
                                     Toy.psoas_scene)))) /\
    originalName m = "psoas_major".
Proof.
  assert (Hfound : found_in (H := Toy.host) Toy.psoas_registry Toy.psoas_scene =
                   [("Psoas Major", 0)] ++ ("psoas_major", 1) :: [])
    by (vm_compute; reflexivity).
  assert (Hdone : processed (H := Toy.host) Toy.psoas_registry Toy.psoas_scene tt
                    Toy.psoas_scene [("Psoas Major", 0)] "psoas_major" 1 = Some 3)
    by (vm_compute; reflexivity).
  assert (Hused : In "psoas_major"
                     (used_ids (snd (loop_on (H := Toy.host) Toy.psoas_registry
                                       Toy.psoas_scene tt Toy.psoas_scene
                                       [("Psoas Major", 0)]))))
    by (vm_compute; auto).
  split; [exact Hfound|]. split; [exact Hdone|]. split; [exact Hused|].
  destruct (proj1 (proj2 (C5_mesh_ids_unique Toy.host Toy.psoas_registry
                            Toy.psoas_scene tt Toy.psoas_scene))
              [("Psoas Major", 0)] [] "psoas_major" 1 3 Hfound Hdone)
    as [m [k [_ [_ [_ [Hname [Hrec [_ [_ [_ [_ [_ [_ Hsuffix]]]]]]]]]]]]].
  assert (Hfree : ~ In (base_id_of Toy.psoas_registry "psoas_major" ++ "_1")%string
                      (used_ids (snd (loop_on (H := Toy.host) Toy.psoas_registry
                                        Toy.psoas_scene tt Toy.psoas_scene
                                        [("Psoas Major", 0)])))).
  { vm_compute. intros [Heq | []]. discriminate. }
  rewrite (Hsuffix Hused Hfree) in Hrec.
  exists m. split; [exact Hrec | exact Hname].
Defined.

(** C5 as stated fails: "Psoas Major" and "psoas_major" normalize to the
    same id, yet the second of them gets the suffix [_2], because the id of
    an earlier structure is [psoas_major_1]. *)
Lemma C5_counterexample :
  normalize_mesh_id "Psoas Major" false = "psoas_major" /\
  normalize_mesh_id "psoas_major" false = "psoas_major" /\
  issued_ids (snd (export_torso (H := Toy.host) (Some Toy.crowded_registry)
                     Toy.crowded_scene)) =
  [("psoas major 1", "psoas_major_1");
   ("Psoas Major", "psoas_major");
   ("psoas_major", "psoas_major_2")].
Proof. repeat split. Qed.

(** The scenario of the specification: "Psoas Major" and "psoas_major"
    normalize to the same id, and the second gets the suffix [_1]. *)
Example psoas_run :
  exists rep st first second,
    snd (export_torso (H := Toy.host) (Some Toy.psoas_registry) Toy.psoas_scene) =
      Ok (Some (rep,
                mk_metadata 0 2 [("psoas_major", first); ("psoas_major_1", second)],
                st)) /\
    originalName first = "Psoas Major" /\ meshId first = "psoas_major" /\
    originalName second = "psoas_major" /\ meshId second = "psoas_major_1".
Proof. do 4 eexists. vm_compute. repeat split. Qed.

(** The allocation loop alone: with [b] and [b_1] taken, [b_2] is next. *)
Example allocate_examples :
  allocate_mesh_id [] "b" = "b" /\
  allocate_mesh_id ["b"] "b" = "b_1" /\
  allocate_mesh_id ["b_1"; "b"] "b" = "b_2".
Proof. repeat split. Qed.

(** C7. A left without a right, or a right without a left, passes
    [filter_for_export]: it is in the export set and not in the skipped
    list.  In the loop, a round for it that raises nothing writes a record
    for it, whatever happens to the other structures: the record stays to
    the end of the loop, it has [bilateral = false] and no [mirroredCenter],
    the copy is among the exported objects, and the round adds one to the
    orphan count and nothing to the bilateral and midline counts; in a
    complete run this record is in the metadata and the orphan statistic is
    at least one.  The orphan statistic is the number of orphan records,
    and in a complete run every record of the orphan is an orphan record. *)
Theorem C7_orphan_is_exported_unpaired
    (H : Host) (reg : registry) (base orphan other : string) :
  (orphan = (base ++ ".l")%string /\ other = (base ++ ".r")%string) \/
  (orphan = (base ++ ".r")%string /\ other = (base ++ ".l")%string) ->
  In orphan (keys (get_all_structure_names reg)) ->
  ~ In other (keys (get_all_structure_names reg)) ->
  In orphan (keys (export_set reg)) /\
  ~ In orphan
      (snd (filter_for_export (get_all_structure_names reg)
              (find_bilateral_pairs (get_all_structure_names reg)))) /\
  (forall (s : Scene) (export_collection : Collection) (s0 : Scene)
          (pre post : dict Obj) (original copy : Obj),
      found_in reg s = pre ++ (orphan, original) :: post ->
      processed reg s export_collection s0 pre orphan original = Some copy ->
      exists m,
        In (id_for reg (snd (loop_on reg s export_collection s0 pre)) orphan, m)
           (structures (snd (loop_on reg s export_collection s0 (found_in reg s)))) /\
        In copy
           (export_objects (snd (loop_on reg s export_collection s0 (found_in reg s)))) /\
        originalName m = orphan /\
        bilateral m = false /\
        mirroredCenter m = None /\
        is_orphan_record m = true /\
        st_orphan (stats (snd (loop_on reg s export_collection s0
                                 (pre ++ [(orphan, original)])))) =
          S (st_orphan (stats (snd (loop_on reg s export_collection s0 pre)))) /\
        st_bilateral (stats (snd (loop_on reg s export_collection s0
                                    (pre ++ [(orphan, original)])))) =
          st_bilateral (stats (snd (loop_on reg s export_collection s0 pre))) /\
        st_midline (stats (snd (loop_on reg s export_collection s0
                                  (pre ++ [(orphan, original)])))) =
          st_midline (stats (snd (loop_on reg s export_collection s0 pre))) /\
        1 <= st_orphan (stats (snd (loop_on reg s export_collection s0
                                      (found_in reg s)))) /\
        (forall (s' : Scene) (rep : ExportReport) (md : metadata) (st : stats_t),
            export_torso (Some reg) s = (s', Ok (Some (rep, md, st))) ->
            create_export_collection (capture_session s) = (s0, Ok export_collection) ->
            In (id_for reg (snd (loop_on reg s export_collection s0 pre)) orphan, m)
               (md_structures md) /\
            1 <= st_orphan st)) /\
  (forall (s : Scene) (export_collection : Collection) (s0 : Scene) (entries : dict Obj),
      st_orphan (stats (snd (loop_on reg s export_collection s0 entries))) =
      count_records is_orphan_record
        (structures (snd (loop_on reg s export_collection s0 entries)))) /\
  forall (s s' : Scene) (rep : ExportReport) (md : metadata) (st : stats_t),
    export_torso (Some reg) s = (s', Ok (Some (rep, md, st))) ->
    (forall id m,
        In (id, m) (md_structures md) ->
        originalName m = orphan ->
        bilateral m = false /\ mirroredCenter m = None /\
        is_orphan_record m = true) /\
    st_orphan st = count_records is_orphan_record (md_structures md) /\
    (st_failed st = 0 ->
     In orphan (keys (found_in reg s)) ->
     exists id m, In (id, m) (md_structures md) /\ originalName m = orphan).
Proof.
  intros Hsides Hin Hother.
  set (names := get_all_structure_names reg) in *.
  set (pairs := find_bilateral_pairs names) in *.
  assert (Hpair : mem pairs base = false).
  { destruct (mem pairs base) eqn:Hm; [|reflexivity].
    apply Bilateral.pairs_mem_iff in Hm. fold names in Hm.
    destruct Hm as [Hl Hr]. destruct Hsides as [[_ ->] | [_ ->]]; contradiction. }
  assert (Hext : fst (extract_side_and_base orphan) = base /\
                 String.eqb (snd (extract_side_and_base orphan)) "midline" = false).
  { destruct Hsides as [[-> _] | [-> _]].
    - rewrite Bilateral.extract_left. auto.
    - rewrite Bilateral.extract_right. auto. }
  assert (Hkept : kept_for_export pairs orphan = true).
  { destruct Hsides as [[-> _] | [-> _]].
    - apply Bilateral.kept_left.
    - now rewrite Bilateral.kept_right, Hpair. }
  destruct (Bilateral.filter_for_export_spec names pairs) as [_ [Hk Hs]].
  split; [apply Hk; auto|].
  split.
  { intros Hskipped. apply Hs in Hskipped. destruct Hskipped as [_ Hno]. congruence. }
  assert (Hcount : forall (s : Scene) (col : Collection) (s0 : Scene) (entries : dict Obj),
             st_orphan (stats (snd (loop_on reg s col s0 entries))) =
             count_records is_orphan_record
               (structures (snd (loop_on reg s col s0 entries)))).
  { intros s col s0 entries. unfold loop_on.
    pose proof (Run.export_loop_ok pairs (export_set reg)
                  (compute_structure_layers (found_in reg s)) (snapshot_of reg s)
                  col entries s0) as Hok.
    destruct Hok as [_ [_ [_ [_ [_ [_ [_ [_ [_ Horphan]]]]]]]]]. exact Horphan. }
  split.
  { intros s col s0 pre post original copy Hfound Hdone.
    assert (Hinf : In orphan (keys (found_in reg s))).
    { rewrite Hfound, PyDictFacts.keys_snoc_cons. apply in_or_app. right. now left. }
    destruct (Steps.found_has_region reg s _ Hinf) as [region Hreg].
    unfold processed, loop_on in Hdone.
    destruct (Steps.round_success pairs (export_set reg)
                (compute_structure_layers (found_in reg s)) (snapshot_of reg s)
                col pre post orphan original copy s0 region Hdone Hreg)
      as [wc [_ [_ [_ [_ [Hst [Hrec [Hobj _]]]]]]]].
    destruct Hext as [Hbase Hside].
    rewrite Hbase in Hrec, Hst. rewrite Hpair in Hrec, Hst.
    unfold count_side in Hst. rewrite Hside in Hst.
    rewrite <- Hfound in Hrec, Hobj.
    match type of Hrec with In (_, ?meta) _ => set (m := meta) in * end.
    assert (Horph : is_orphan_record m = true).
    { unfold is_orphan_record, record_side. subst m.
      cbn [bilateral originalName build_structure_meta]. now rewrite Hside. }
    assert (Hone : 1 <= st_orphan (stats (snd (loop_on reg s col s0 (found_in reg s))))).
    { rewrite Hcount. exact (Steps.count_records_in _ _ _ m Hrec Horph). }
    exists m. split; [exact Hrec|]. split; [exact Hobj|].
    split; [reflexivity|]. split; [reflexivity|]. split; [reflexivity|].
    split; [exact Horph|].
    unfold loop_on at 1 2 3 4 5 6. fold names pairs. rewrite Hst. cbn [st_orphan st_bilateral st_midline].
    split; [reflexivity|]. split; [reflexivity|]. split; [reflexivity|].
    split; [exact Hone|].
    intros s' rep md st Hrun Hcol.
    apply Steps.complete_run_loop in Hrun.
    destruct Hrun as [s4 [col' [Hcol' [Hmd Hstats]]]].
    rewrite Hcol in Hcol'. injection Hcol' as <- <-.
    rewrite Hmd, Hstats. split; [exact Hrec | exact Hone]. }
  split; [exact Hcount|].
  intros s s' rep md st Hrun.
  apply WholeRun.complete_run_ok in Hrun.
  destruct Hrun as [rs [Hok [Hmd [Hst _]]]]. rewrite Hmd. subst st.
  destruct Hok as [_ [_ [_ [Hcover [Hrec [_ [_ [_ [_ Horphan]]]]]]]]].
  split; [|split].
  - intros id m Hinm Hname. apply Hrec in Hinm.
    apply WholeRun.record_fields in Hinm.
    destruct Hinm as [_ [_ [_ [Hb [_ [Hmc _]]]]]].
    rewrite Hname in Hb. destruct Hext as [Hbase Hside].
    rewrite Hbase in Hb. fold names pairs in Hb. rewrite Hpair in Hb.
    rewrite Hb in Hmc. split; [exact Hb|]. split; [exact Hmc|].
    unfold is_orphan_record, record_side. now rewrite Hb, Hname, Hside.
  - exact Horphan.
  - intros Hz Hfound. rewrite <- (Hcover Hz) in Hfound.
    apply in_map_iff in Hfound. destruct Hfound as [[id m] [Hname Hinm]].
    exists id, m. auto.
Qed.

Lemma C7_witness :
  In "cervical rib.l" (keys (get_all_structure_names Toy.orphan_registry)) /\
  ~ In "cervical rib.r" (keys (get_all_structure_names Toy.orphan_registry)) /\
  found_in (H := Toy.host) Toy.orphan_registry Toy.orphan_scene =
    [("sternum", 0)] ++ ("cervical rib.l", 1) :: [] /\
  processed (H := Toy.host) Toy.orphan_registry Toy.orphan_scene tt Toy.orphan_scene
            [("sternum", 0)] "cervical rib.l" 1 = Some 3 /\
  exists m,
    In ("cervical_rib_l", m)
       (structures (snd (loop_on (H := Toy.host) Toy.orphan_registry Toy.orphan_scene tt
                           Toy.orphan_scene
                           (found_in (H := Toy.host) Toy.orphan_registry
                                     Toy.orphan_scene)))) /\
    originalName m = "cervical rib.l" /\
    bilateral m = false /\
    mirroredCenter m = None /\
    1 <= st_orphan (stats (snd (loop_on (H := Toy.host) Toy.orphan_registry
                                  Toy.orphan_scene tt Toy.orphan_scene
                                  (found_in (H := Toy.host) Toy.orphan_registry
                                            Toy.orphan_scene)))).
Proof.
  assert (Hin : In "cervical rib.l" (keys (get_all_structure_names Toy.orphan_registry)))
    by (simpl; auto).
  assert (Hother : ~ In "cervical rib.r"
                       (keys (get_all_structure_names Toy.orphan_registry))).
  { simpl. intros [Heq | [Heq | []]]; discriminate. }
  assert (Hfound : found_in (H := Toy.host) Toy.orphan_registry Toy.orphan_scene =
                   [("sternum", 0)] ++ ("cervical rib.l", 1) :: [])
    by (vm_compute; reflexivity).
  assert (Hdone : processed (H := Toy.host) Toy.orphan_registry Toy.orphan_scene tt
                    Toy.orphan_scene [("sternum", 0)] "cervical rib.l" 1 = Some 3)
    by (vm_compute; reflexivity).
  split; [exact Hin|]. split; [exact Hother|]. split; [exact Hfound|].
  split; [exact Hdone|].
  destruct (proj1 (proj2 (proj2
              (C7_orphan_is_exported_unpaired Toy.host Toy.orphan_registry
                 "cervical rib" "cervical rib.l" "cervical rib.r"
                 (or_introl (conj eq_refl eq_refl)) Hin Hother)))
              Toy.orphan_scene tt Toy.orphan_scene [("sternum", 0)] [] 1 3 Hfound Hdone)
    as [m [Hrec [_ [Hname [Hb [Hmc [_ [_ [_ [_ [Hone _]]]]]]]]]]].
  exists m. split; [exact Hrec|]. split; [exact Hname|]. split; [exact Hb|].
  split; [exact Hmc | exact Hone].
Defined.

(** An orphan on the small host: exported, not bilateral, counted. *)
Example orphan_run :
  exists rep md st orphan_record,
    snd (export_torso (H := Toy.host) (Some Toy.orphan_registry) Toy.orphan_scene) =
      Ok (Some (rep, md, st)) /\
    get (md_structures md) "cervical_rib_l" = Some orphan_record /\
    originalName orphan_record = "cervical rib.l" /\
    bilateral orphan_record = false /\
    mirroredCenter orphan_record = None /\
    st_orphan st = 1.
Proof. do 4 eexists. vm_compute. repeat split. Qed.

(** C8. The right member of a complete pair is taken out of the export set
    before any structure is looked up.  So when the left member is not
    found, the left member is in the missing list, the right member is
    neither found nor missing, whether or not the session has an object for
    it, and in a complete run the report has that missing list and no
    record is of either member. *)
Theorem C8_pair_lost_when_left_is_missing
    (H : Host) (reg : registry) (base : string) (s : Scene) :
  In (base ++ ".l")%string (keys (get_all_structure_names reg)) ->
  In (base ++ ".r")%string (keys (get_all_structure_names reg)) ->
  find_structure_in_blender (lookup_session s) (base ++ ".l") = None ->
  In (base ++ ".l")%string (missing_in reg s) /\
  ~ In (base ++ ".r")%string (missing_in reg s) /\
  ~ In (base ++ ".l")%string (keys (found_in reg s)) /\
  ~ In (base ++ ".r")%string (keys (found_in reg s)) /\
  forall (s' : Scene) (rep : ExportReport) (md : metadata) (st : stats_t),
    export_torso (Some reg) s = (s', Ok (Some (rep, md, st))) ->
    missing rep = missing_in reg s /\
    In (base ++ ".r")%string (skipped_right rep) /\
    forall id m,
      In (id, m) (md_structures md) ->
      originalName m <> (base ++ ".l")%string /\
      originalName m <> (base ++ ".r")%string.
Proof.
  intros Hl Hr Hnone.
  destruct (Bilateral.complete_pair_filtered _ base Hl Hr)
    as [_ [Hexp [Hnot Hskip]]].
  fold (export_set reg) in Hexp, Hnot.
  destruct (WholeRun.find_all_spec (lookup_session s) (export_set reg))
    as [_ [_ [Hfound Hmissing]]].
  fold (found_in reg s) in Hfound. fold (missing_in reg s) in Hmissing.
  assert (Hnl : ~ In (base ++ ".l")%string (keys (found_in reg s))).
  { intros Hin. apply Hfound in Hin. destruct Hin as [_ Hsome]. contradiction. }
  assert (Hnr : ~ In (base ++ ".r")%string (keys (found_in reg s))).
  { intros Hin. apply Hfound in Hin. destruct Hin as [Hin _]. contradiction. }
  split; [apply Hmissing; auto|].
  split.
  { intros Hin. apply Hmissing in Hin. destruct Hin as [Hin _]. contradiction. }
  split; [exact Hnl|]. split; [exact Hnr|].
  intros s' rep md st Hrun.
  apply WholeRun.complete_run_ok in Hrun.
  destruct Hrun as [rs [Hok [Hmd [_ [Hmiss [Hsk _]]]]]]. rewrite Hmd, Hsk.
  split; [exact Hmiss|]. split; [exact Hskip|].
  destruct Hok as [_ [_ [_ [_ [Hrec _]]]]].
  intros id m Hin. apply Hrec in Hin. apply WholeRun.record_fields in Hin.
  destruct Hin as [_ [Hinf _]]. split; intros Hname; rewrite Hname in Hinf; contradiction.
Qed.

Lemma C8_witness :
  find_structure_in_blender (H := Toy.host)
    (lookup_session (H := Toy.host) Toy.left_missing_scene) "gluteus maximus.l" = None /\
  find_structure_in_blender (H := Toy.host)
    (lookup_session (H := Toy.host) Toy.left_missing_scene) "gluteus maximus.r" = Some 1 /\
  In "gluteus maximus.l" (missing_in (H := Toy.host) Toy.pelvis_registry Toy.left_missing_scene) /\
  ~ In "gluteus maximus.r"
       (keys (found_in (H := Toy.host) Toy.pelvis_registry Toy.left_missing_scene)).
Proof.
  split; [reflexivity|]. split; [reflexivity|].
  assert (Hl : In "gluteus maximus.l" (keys (get_all_structure_names Toy.pelvis_registry)))
    by (simpl; auto).
  assert (Hr : In "gluteus maximus.r" (keys (get_all_structure_names Toy.pelvis_registry)))
    by (simpl; auto).
  pose proof (C8_pair_lost_when_left_is_missing Toy.host Toy.pelvis_registry
                "gluteus maximus" Toy.left_missing_scene Hl Hr eq_refl) as Hc.
  split; [exact (proj1 Hc) | exact (proj1 (proj2 (proj2 (proj2 Hc))))].
Defined.

(** The same on the small host: the right member has an object in the
    session, and the run exports the sacrum alone. *)
Example left_missing_run :
  exists rep md st,
    snd (export_torso (H := Toy.host) (Some Toy.pelvis_registry) Toy.left_missing_scene) =
      Ok (Some (rep, md, st)) /\
    keys (md_structures md) = ["sacrum"] /\
    missing rep = ["gluteus maximus.l"] /\
    skipped_right rep = ["gluteus maximus.r"].
Proof. do 3 eexists. vm_compute. repeat split. Qed.

(** * Further theorems *)

(** ** Names, pairs, filter and registry *)

Module MoreBilateral.
Import PyStrFacts PyDictFacts Bilateral.

Lemma wf_snoc {V} (l : dict V) (k : string) (v : V) :
  wf (l ++ [(k, v)]) -> wf l /\ ~ In k (keys l).
Proof.
  unfold wf. rewrite keys_snoc. cbn [fst]. intros Hnd.
  apply NoDup_remove in Hnd. rewrite app_nil_r in Hnd. exact Hnd.
Qed.

Lemma keys_filter_incl {V} (p : string * V -> bool) (l : dict V) (k : string) :
  In k (keys (filter p l)) -> In k (keys l).
Proof.
  unfold keys. rewrite !in_map_iff. intros [e [He Hin]].
  apply filter_In in Hin. exists e. tauto.
Qed.

Lemma wf_pairs_fold (by_base acc : dict pair_info) :
  wf acc ->
  wf (fold_left
        (fun bilateral_pairs (item : string * pair_info) =>
           let '(base, info) := item in
           if opt_truthy (info_left info) && opt_truthy (info_right info)
           then set bilateral_pairs base info
           else bilateral_pairs)
        by_base acc).
Proof.
  revert acc. induction by_base as [|[b i] l IH]; intros acc Hwf; simpl; [exact Hwf|].
  apply IH. destruct (opt_truthy (info_left i) && opt_truthy (info_right i)).
  - now apply wf_set.
  - exact Hwf.
Qed.

Lemma wf_find_bilateral_pairs (names : dict string) : wf (find_bilateral_pairs names).
Proof. unfold find_bilateral_pairs. apply wf_pairs_fold, wf_nil. Qed.

(** On a dictionary, the export set is the registry with the skipped names
    taken out, in the order of the registry. *)
Lemma filter_for_export_exact (names : dict string) (pairs : dict pair_info) :
  wf names ->
  filter_for_export names pairs =
  (filter (fun e => kept_for_export pairs (fst e)) names,
   map fst (filter (fun e => negb (kept_for_export pairs (fst e))) names)).
Proof.
  unfold filter_for_export.
  induction names as [|[name region] l IH] using rev_ind; [reflexivity|].
  intros Hwf. apply wf_snoc in Hwf. destruct Hwf as [Hwf Hnotin].
  rewrite fold_left_app. cbn [fold_left]. rewrite (IH Hwf), filter_step_kept.
  rewrite !filter_app, map_app. cbn [filter fst snd].
  destruct (kept_for_export pairs name); cbn [negb map fst].
  - rewrite set_absent.
    + now rewrite app_nil_r.
    + apply mem_false. intros Hin. apply Hnotin. now apply keys_filter_incl in Hin.
  - now rewrite app_nil_r.
Qed.

Lemma filter_partition_length {A} (p : A -> bool) (l : list A) :
  List.length (filter p l) + List.length (filter (fun x => negb (p x)) l)
  = List.length l.
Proof.
  induction l as [|a l IH]; simpl; [reflexivity|].
  destruct (p a); simpl; lia.
Qed.

(** *** The registry *)

Lemma get_add_names (region : string) (d : dict string) (names : list string)
    (k v : string) :
  get (add_names region d names) k = Some v ->
  (In k names /\ v = region) \/ get d k = Some v.
Proof.
  unfold add_names. revert d. induction names as [|n l IH]; intros d; simpl.
  - auto.
  - intros Hg. apply IH in Hg. destruct Hg as [[Hin ->] | Hg]; [left; auto|].
    destruct (String.eqb_spec n k) as [-> | Hne].
    + rewrite get_set_same in Hg. injection Hg as <-. left. auto.
    + rewrite get_set_other in Hg by exact Hne. now right.
Qed.

Lemma keys_add_names (region : string) (d : dict string) (names : list string)
    (k : string) :
  In k (keys (add_names region d names)) <-> In k (keys d) \/ In k names.
Proof.
  unfold add_names. revert d. induction names as [|n l IH]; intros d; simpl.
  - tauto.
  - rewrite IH, in_keys_set. split.
    + intros [[-> | H] | H]; auto.
    + intros [H | [<- | H]]; auto.
Qed.

Lemma registry_step (d : dict string) (region : string) (data : region_data) :
  (if PyStr.startswith region "_" then d
   else match data with
        | RegionStructures names => add_names region d names
        | RegionKeys names => add_names region d names
        | RegionDescribed => d
        | RegionList names => add_names region d names
        | RegionOther => d
        end) =
  if PyStr.startswith region "_" then d
  else add_names region d (region_names data).
Proof. destruct (PyStr.startswith region "_"); [reflexivity|]. now destruct data. Qed.

End MoreBilateral.

(** X1. [extract_side_and_base] loses nothing: the name is the base name
    followed by the suffix of the side, the side is one of [left], [right]
    and [midline], and a base name with [.l] or [.r] put behind it splits
    into that base name and that side again. *)
Theorem X1_extract_side_and_base_round_trip (name : string) :
  name = (fst (extract_side_and_base name) ++
          side_suffix (snd (extract_side_and_base name)))%string /\
  In (snd (extract_side_and_base name)) ["left"; "right"; "midline"] /\
  (forall base,
      extract_side_and_base (base ++ ".l") = (base, "left") /\
      extract_side_and_base (base ++ ".r") = (base, "right")).
Proof.
  split; [|split].
  - destruct (Bilateral.extract_cases name)
      as [[b [Hn ->]] | [[b [Hn ->]] | [_ [_ ->]]]]; cbn [fst snd].
    + exact Hn.
    + exact Hn.
    + unfold side_suffix. cbn. now rewrite Normalizer.append_nil_r.
  - destruct (Bilateral.extract_cases name)
      as [[b [_ ->]] | [[b [_ ->]] | [_ [_ ->]]]]; simpl; auto.
  - intros base. split; [apply Bilateral.extract_left | apply Bilateral.extract_right].
Qed.

(** X2. [find_bilateral_pairs] returns a dictionary whose keys are exactly
    the base names of which the registry has both the [.l] and the [.r]
    name, and the entry of a base name names those two as its left and its
    right. *)
Theorem X2_find_bilateral_pairs_complete_pairs (names : dict string) :
  wf (find_bilateral_pairs names) /\
  (forall base,
      mem (find_bilateral_pairs names) base = true <->
      In (base ++ ".l")%string (keys names) /\ In (base ++ ".r")%string (keys names)) /\
  (forall base info,
      get (find_bilateral_pairs names) base = Some info ->
      info_left info = Some (base ++ ".l")%string /\
      info_right info = Some (base ++ ".r")%string).
Proof.
  split; [apply MoreBilateral.wf_find_bilateral_pairs|].
  split; [apply Bilateral.pairs_mem_iff|].
  intros base info Hg. apply PyDictFacts.get_some_in in Hg.
  now apply (Bilateral.pairs_entry names).
Qed.

(** X3. On a dictionary of names, [filter_for_export] keeps the order of
    the registry: the export set is the registry without the right members
    of complete pairs, the skipped list is those right members, and
    together they are as many as the registry has names. *)
Theorem X3_filter_for_export_keeps_order (names : dict string) (pairs : dict pair_info) :
  wf names ->
  fst (filter_for_export names pairs) =
    filter (fun e => kept_for_export pairs (fst e)) names /\
  snd (filter_for_export names pairs) =
    map fst (filter (fun e => negb (kept_for_export pairs (fst e))) names) /\
  List.length (fst (filter_for_export names pairs)) +
  List.length (snd (filter_for_export names pairs)) = List.length names /\
  (forall name,
      In name (snd (filter_for_export names pairs)) ->
      exists base, name = (base ++ ".r")%string /\ mem pairs base = true).
Proof.
  intros Hwf. rewrite (MoreBilateral.filter_for_export_exact names pairs Hwf).
  cbn [fst snd]. split; [reflexivity|]. split; [reflexivity|]. split.
  - rewrite length_map. apply MoreBilateral.filter_partition_length.
  - intros name Hin. apply in_map_iff in Hin. destruct Hin as [[n r] [<- Hin]].
    apply filter_In in Hin. destruct Hin as [_ Hk]. cbn [fst] in *.
    apply negb_true_iff in Hk.
    destruct (Bilateral.extract_cases n)
      as [[b [-> _]] | [[b [-> _]] | [Hl [Hr _]]]].
    + now rewrite Bilateral.kept_left in Hk.
    + rewrite Bilateral.kept_right in Hk. apply negb_false_iff in Hk.
      exists b. auto.
    + now rewrite Bilateral.kept_midline in Hk.
Qed.

Lemma X3_witness :
  wf (get_all_structure_names Toy.pelvis_registry) /\
  fst (filter_for_export (get_all_structure_names Toy.pelvis_registry)
         (find_bilateral_pairs (get_all_structure_names Toy.pelvis_registry))) =
  [("sacrum", "pelvis"); ("gluteus maximus.l", "pelvis")].
Proof.
  assert (Hwf : wf (get_all_structure_names Toy.pelvis_registry))
    by apply Bilateral.wf_get_all_structure_names.
  split; [exact Hwf|].
  exact (proj1 (X3_filter_for_export_keeps_order
                  (get_all_structure_names Toy.pelvis_registry)
                  (find_bilateral_pairs (get_all_structure_names Toy.pelvis_registry))
                  Hwf)).
Defined.

(** X4. [get_all_structure_names] returns a dictionary that has a name
    exactly when a region whose key does not start with an underscore lists
    it, and the region it gives a name is such a region that lists it:
    regions whose key starts with an underscore, and objects with a
    description and no structures, add nothing. *)
Theorem X4_get_all_structure_names_members (reg : registry) :
  wf (get_all_structure_names reg) /\
  (forall name,
      In name (keys (get_all_structure_names reg)) <->
      exists region data,
        In (region, data) reg /\ PyStr.startswith region "_" = false /\
        In name (region_names data)) /\
  (forall name region,
      get (get_all_structure_names reg) name = Some region ->
      exists data,
        In (region, data) reg /\ PyStr.startswith region "_" = false /\
        In name (region_names data)).
Proof.
  split; [apply Bilateral.wf_get_all_structure_names|].
  unfold get_all_structure_names.
  induction reg as [|[region data] l IH] using rev_ind.
  - split.
    + intros name. simpl. split; [tauto | intros [r [d [[] _]]]].
    + intros name region. discriminate.
  - rewrite fold_left_app. cbn [fold_left].
    rewrite MoreBilateral.registry_step. destruct IH as [IHk IHg].
    destruct (PyStr.startswith region "_") eqn:Hmeta.
    + split.
      * intros name. rewrite IHk. split.
        -- intros [r [d [Hin H]]]. exists r, d. split; [apply in_or_app; now left | exact H].
        -- intros [r [d [Hin [Hr Hn]]]]. apply in_app_or in Hin.
           destruct Hin as [Hin | [Heq | []]]; [exists r, d; auto|].
           injection Heq as <- <-. congruence.
      * intros name r Hg. destruct (IHg name r Hg) as [d [Hin H]].
        exists d. split; [apply in_or_app; now left | exact H].
    + split.
      * intros name. rewrite MoreBilateral.keys_add_names, IHk. split.
        -- intros [[r [d [Hin H]]] | Hin].
           ++ exists r, d. split; [apply in_or_app; now left | exact H].
           ++ exists region, data. split; [apply in_or_app; right; now left | auto].
        -- intros [r [d [Hin [Hr Hn]]]]. apply in_app_or in Hin.
           destruct Hin as [Hin | [Heq | []]].
           ++ left. exists r, d. auto.
           ++ injection Heq as <- <-. now right.
      * intros name r Hg. apply MoreBilateral.get_add_names in Hg.
        destruct Hg as [[Hin ->] | Hg].
        -- exists data. split; [apply in_or_app; right; now left | auto].
        -- destruct (IHg name r Hg) as [d [Hin H]].
           exists d. split; [apply in_or_app; now left | exact H].
Qed.

(** A metadata region and a described region add nothing; a name listed
    twice keeps its first place and takes the later region. *)
Example registry_shapes :
  get_all_structure_names
    [("_notes", RegionList ["ignored"]);
     ("thorax", RegionStructures ["sternum"; "rib 1.l"]);
     ("legend", RegionDescribed);
     ("abdomen", RegionKeys ["linea alba"; "sternum"])] =
  [("sternum", "abdomen"); ("rib 1.l", "thorax"); ("linea alba", "abdomen")].
Proof. reflexivity. Qed.

(** ** Finding the structures *)

Module MoreLookup.
Import PyDictFacts.

Section WithHost.
Context {H : Host}.

Lemma find_all_none {A} (f : A -> bool) (l : list A) :
  (forall x, In x l -> f x = false) -> find f l = None.
Proof.
  induction l as [|a l IH]; simpl; [reflexivity|].
  intros Hall. rewrite (Hall a (or_introl eq_refl)). apply IH.
  intros x Hx. apply Hall. now right.
Qed.

(** The second attempt of [find_structure_in_blender]. *)
Lemma by_normalized_some (s : Scene) (name : string) (obj : Obj) :
  find (fun o => obj_is_mesh s o &&
                 String.eqb (lookup_normalized (obj_name s o)) (lookup_normalized name))
       (data_objects s) = Some obj ->
  In obj (data_objects s) /\ obj_is_mesh s obj = true /\
  lookup_normalized (obj_name s obj) = lookup_normalized name.
Proof.
  intros Hf. apply find_some in Hf. destruct Hf as [Hin Hp].
  apply andb_true_iff in Hp. destruct Hp as [Hm He].
  apply String.eqb_eq in He. auto.
Qed.

Lemma find_structure_sound (s : Scene) (name : string) (obj : Obj) :
  find_structure_in_blender s name = Some obj ->
  In obj (data_objects s) /\ obj_is_mesh s obj = true /\
  lookup_normalized (obj_name s obj) = lookup_normalized name.
Proof.
  unfold find_structure_in_blender.
  destruct (find (fun o => String.eqb (obj_name s o) name) (data_objects s))
    as [exact|] eqn:Hexact.
  - destruct (obj_is_mesh s exact) eqn:Hmesh.
    + intros [= <-]. apply find_some in Hexact. destruct Hexact as [Hin He].
      apply String.eqb_eq in He. rewrite He. auto.
    + apply by_normalized_some.
  - apply by_normalized_some.
Qed.

Lemma find_structure_none (s : Scene) (name : string) :
  find_structure_in_blender s name = None <->
  forall obj, In obj (data_objects s) -> obj_is_mesh s obj = true ->
              lookup_normalized (obj_name s obj) <> lookup_normalized name.
Proof.
  split.
  - intros Hnone obj Hin Hmesh Heq.
    assert (Hby : find (fun o => obj_is_mesh s o &&
                      String.eqb (lookup_normalized (obj_name s o))
                                 (lookup_normalized name))
                    (data_objects s) = None).
    { unfold find_structure_in_blender in Hnone.
      destruct (find (fun o => String.eqb (obj_name s o) name) (data_objects s))
        as [exact|]; [|exact Hnone].
      destruct (obj_is_mesh s exact); [discriminate | exact Hnone]. }
    apply (find_none _ _ Hby) in Hin. cbn beta in Hin.
    rewrite Hmesh, Heq, String.eqb_refl in Hin. discriminate.
  - intros Hall.
    destruct (find_structure_in_blender s name) as [obj|] eqn:Hf; [|reflexivity].
    apply find_structure_sound in Hf. destruct Hf as [Hin [Hmesh Heq]].
    exfalso. exact (Hall obj Hin Hmesh Heq).
Qed.

(** On a dictionary of names, the found and the missing ones keep the order
    of the export set. *)
Lemma find_all_exact (s : Scene) (names : dict string) :
  wf names ->
  keys (fst (find_all_registry_objects s names)) = filter (resolves s) (keys names) /\
  snd (find_all_registry_objects s names) =
    filter (fun k => negb (resolves s k)) (keys names).
Proof.
  unfold find_all_registry_objects.
  induction names as [|[name region] l IH] using rev_ind; [intros _; split; reflexivity|].
  intros Hwf. apply MoreBilateral.wf_snoc in Hwf. destruct Hwf as [Hwf Hnotin].
  destruct (IH Hwf) as [IHf IHm]. clear IH.
  rewrite fold_left_app. cbn [fold_left].
  match goal with
  | |- context [fold_left ?f l ?a] => set (acc := fold_left f l a) in *
  end.
  clearbody acc. destruct acc as [found missing]. cbn [fst snd] in *.
  rewrite keys_snoc, !filter_app. cbn [fst filter].
  assert (Hr : resolves s name =
               match find_structure_in_blender s name with
               | Some _ => true
               | None => false
               end) by reflexivity.
  destruct (find_structure_in_blender s name) as [obj|]; rewrite Hr;
    cbn [fst snd negb].
  - rewrite keys_set.
    assert (Hm : mem found name = false).
    { apply mem_false. rewrite IHf. intros Hin. apply filter_In in Hin. tauto. }
    rewrite Hm, IHf, IHm, ?app_nil_r. split; reflexivity.
  - rewrite IHf, IHm, ?app_nil_r. split; reflexivity.
Qed.

End WithHost.

End MoreLookup.

(** X5. [find_structure_in_blender] only ever returns a mesh object of the
    session whose name equals the wanted name once both are lowercased and
    their spaces and hyphens are made underscores; and it returns nothing
    exactly when the session has no such mesh object. *)
Theorem X5_find_structure_in_blender_sound_and_complete
    (H : Host) (s : Scene) (name : string) :
  (forall obj,
      find_structure_in_blender s name = Some obj ->
      In obj (data_objects s) /\ obj_is_mesh s obj = true /\
      lookup_normalized (obj_name s obj) = lookup_normalized name) /\
  (find_structure_in_blender s name = None <->
   forall obj, In obj (data_objects s) -> obj_is_mesh s obj = true ->
               lookup_normalized (obj_name s obj) <> lookup_normalized name).
Proof.
  split.
  - intros obj. apply MoreLookup.find_structure_sound.
  - apply MoreLookup.find_structure_none.
Qed.

Lemma X5_witness :
  @find_structure_in_blender Toy.host Toy.psoas_scene "PSOAS-MAJOR" = Some 0 /\
  lookup_normalized (@obj_name Toy.host Toy.psoas_scene 0) =
  lookup_normalized "PSOAS-MAJOR".
Proof.
  split; [reflexivity|].
  exact (proj2 (proj2 (proj1 (X5_find_structure_in_blender_sound_and_complete
                                Toy.host Toy.psoas_scene "PSOAS-MAJOR")
                             0 eq_refl))).
Defined.

(** The exact name wins when it is a mesh; otherwise the first mesh with
    the same normalized name does. *)
Example lookup_examples :
  @find_structure_in_blender Toy.host Toy.psoas_scene "psoas_major" = Some 1 /\
  @find_structure_in_blender Toy.host Toy.psoas_scene "Psoas Major" = Some 0 /\
  @find_structure_in_blender Toy.host Toy.psoas_scene "psoas major" = Some 0 /\
  @find_structure_in_blender Toy.host Toy.psoas_scene "psoas minor" = None.
Proof. repeat split. Qed.

(** X6. On a dictionary of names, [find_all_registry_objects] sorts every
    name into exactly one of its two results, in the order of the
    dictionary: the found names are those for which
    [find_structure_in_blender] returns an object, each stored with that
    object, the missing names are the others, and the two are together as
    many as the names. *)
Theorem X6_find_all_registry_objects_partition
    (H : Host) (s : Scene) (names : dict string) :
  wf names ->
  keys (fst (find_all_registry_objects s names)) = filter (resolves s) (keys names) /\
  snd (find_all_registry_objects s names) =
    filter (fun k => negb (resolves s k)) (keys names) /\
  (forall name obj,
      In (name, obj) (fst (find_all_registry_objects s names)) ->
      find_structure_in_blender s name = Some obj) /\
  List.length (fst (find_all_registry_objects s names)) +
  List.length (snd (find_all_registry_objects s names)) = List.length names.
Proof.
  intros Hwf. destruct (MoreLookup.find_all_exact s names Hwf) as [Hf Hm].
  split; [exact Hf|]. split; [exact Hm|]. split.
  - intros name obj Hin. now apply (WholeRun.find_all_spec s names).
  - rewrite Hm. rewrite <- (length_map fst (fst (find_all_registry_objects s names))).
    fold (keys (fst (find_all_registry_objects s names))). rewrite Hf.
    rewrite MoreBilateral.filter_partition_length. unfold keys. apply length_map.
Qed.

Lemma X6_witness :
  wf (export_set Toy.pelvis_registry) /\
  keys (fst (@find_all_registry_objects Toy.host Toy.left_missing_scene
               (export_set Toy.pelvis_registry))) = ["sacrum"] /\
  snd (@find_all_registry_objects Toy.host Toy.left_missing_scene
         (export_set Toy.pelvis_registry)) = ["gluteus maximus.l"].
Proof.
  assert (Hwf : wf (export_set Toy.pelvis_registry)).
  { apply (Bilateral.filter_for_export_spec
             (get_all_structure_names Toy.pelvis_registry)
             (find_bilateral_pairs (get_all_structure_names Toy.pelvis_registry))). }
  split; [exact Hwf|].
  pose proof (X6_find_all_registry_objects_partition Toy.host Toy.left_missing_scene
                (export_set Toy.pelvis_registry) Hwf) as Hx.
  split; [exact (proj1 Hx) | exact (proj1 (proj2 Hx))].
Defined.

(** ** Mesh ids and types *)

Module MoreNormalizer.
Import PyStrFacts Normalizer.

Lemma lower_app (a b : string) :
  PyStr.lower (a ++ b) = (PyStr.lower a ++ PyStr.lower b)%string.
Proof. induction a as [|c a IH]; simpl; [reflexivity | now rewrite IH]. Qed.

Lemma lower_ascii_idem (c : ascii) :
  PyStr.lower_ascii (PyStr.lower_ascii c) = PyStr.lower_ascii c.
Proof. destruct c as [[] [] [] [] [] [] [] []]; reflexivity. Qed.

Lemma lower_idem (s : string) : PyStr.lower (PyStr.lower s) = PyStr.lower s.
Proof.
  induction s as [|c s IH]; simpl; [reflexivity|].
  now rewrite lower_ascii_idem, IH.
Qed.

Lemma strip_side_left (b : string) : strip_side_suffix (b ++ ".l") = b.
Proof.
  unfold strip_side_suffix. rewrite endswith_app. apply (drop_last_app b ".l").
Qed.

Lemma strip_side_right (b : string) : strip_side_suffix (b ++ ".r") = b.
Proof.
  unfold strip_side_suffix. rewrite Bilateral.suffix_l_not_r, endswith_app.
  apply (drop_last_app b ".r").
Qed.

Lemma split_side_left (b : string) : split_side_suffix (b ++ ".l") = (b, Some "_l"%string).
Proof.
  unfold split_side_suffix. rewrite endswith_app.
  f_equal. apply (drop_last_app b ".l").
Qed.

Lemma split_side_right (b : string) : split_side_suffix (b ++ ".r") = (b, Some "_r"%string).
Proof.
  unfold split_side_suffix. rewrite Bilateral.suffix_l_not_r, endswith_app.
  f_equal. apply (drop_last_app b ".r").
Qed.

(** *** What characters an id can have *)

Lemma all_chars_app (p : ascii -> bool) (a b : string) :
  all_chars p (a ++ b) = all_chars p a && all_chars p b.
Proof.
  induction a as [|c a IH]; simpl; [reflexivity|].
  now rewrite IH, andb_assoc.
Qed.

Lemma all_chars_substring (p : ascii -> bool) (s : string) (n m : nat) :
  all_chars p s = true -> all_chars p (substring n m s) = true.
Proof.
  revert n m. induction s as [|c s IH]; intros n m Hs.
  - destruct n, m; reflexivity.
  - simpl in Hs. apply andb_true_iff in Hs. destruct Hs as [Hc Hs].
    destruct n as [|n]; simpl.
    + destruct m as [|m]; [reflexivity|]. simpl. now rewrite Hc, IH.
    + now apply IH.
Qed.

Lemma all_chars_squeeze (p : ascii -> bool) (s : string) :
  all_chars p s = true -> all_chars p (Words.squeeze s) = true.
Proof.
  induction s as [|a s IH]; [reflexivity|].
  intros Hs. simpl in Hs. apply andb_true_iff in Hs. destruct Hs as [Ha Hs].
  specialize (IH Hs). destruct s as [|b s]; [simpl; now rewrite Ha|].
  cbn [Words.squeeze] in *.
  destruct (Ascii.eqb a "_" && Ascii.eqb b "_"); [exact IH|].
  cbn [all_chars]. now rewrite Ha, IH.
Qed.

Lemma all_chars_lstrip (p : ascii -> bool) (c : ascii) (s : string) :
  all_chars p s = true -> all_chars p (PyStr.lstrip c s) = true.
Proof.
  induction s as [|a s IH]; [reflexivity|].
  intros Hs. cbn [PyStr.lstrip]. destruct (Ascii.eqb a c); [|exact Hs].
  simpl in Hs. apply andb_true_iff in Hs. now apply IH.
Qed.

Lemma all_chars_rstrip (p : ascii -> bool) (c : ascii) (s : string) :
  all_chars p s = true -> all_chars p (PyStr.rstrip c s) = true.
Proof.
  induction s as [|a s IH]; [reflexivity|].
  intros Hs. simpl in Hs. apply andb_true_iff in Hs. destruct Hs as [Ha Hs].
  specialize (IH Hs). cbn [PyStr.rstrip].
  destruct (PyStr.rstrip c s) as [|b r].
  - destruct (Ascii.eqb a c); [reflexivity | simpl; now rewrite Ha].
  - cbn [all_chars] in *. now rewrite Ha, IH.
Qed.

Lemma lower_ascii_not_upper (c : ascii) :
  ((65 <=? nat_of_ascii (PyStr.lower_ascii c))%nat &&
   (nat_of_ascii (PyStr.lower_ascii c) <=? 90)%nat) = false.
Proof. destruct c as [[] [] [] [] [] [] [] []]; reflexivity. Qed.

Lemma rewrite_char_clean (c : ascii) :
  ((65 <=? nat_of_ascii c)%nat && (nat_of_ascii c <=? 90)%nat) = false ->
  all_chars (fun a => negb (is_rewritten_char a)) (Words.rewrite_char c) = true.
Proof.
  intros Hup. unfold Words.rewrite_char.
  destruct (Ascii.eqb c " ") eqn:E1; [reflexivity|].
  destruct (Ascii.eqb c "-") eqn:E2; [reflexivity|].
  destruct (Ascii.eqb c ".") eqn:E3; [reflexivity|].
  destruct (Ascii.eqb c "(") eqn:E4; [reflexivity|].
  destruct (Ascii.eqb c ")") eqn:E5; [reflexivity|].
  cbn [orb all_chars]. unfold is_rewritten_char.
  now rewrite E1, E2, E3, E4, E5, Hup.
Qed.

Lemma rewrite_chars_clean (s : string) :
  all_chars (fun a => negb (is_rewritten_char a))
            (Words.rewrite_chars (PyStr.lower s)) = true.
Proof.
  induction s as [|c s IH]; [reflexivity|].
  cbn [PyStr.lower Words.rewrite_chars]. rewrite all_chars_app, IH, andb_true_r.
  apply rewrite_char_clean, lower_ascii_not_upper.
Qed.

(** Taking characters off the end of a lowercased name and rewriting the
    rest leaves none of the rewritten characters. *)
Lemma rewrite_chars_clean_prefix (s : string) (n : nat) :
  all_chars (fun a => negb (is_rewritten_char a))
            (Words.rewrite_chars (PyStr.drop_last n (PyStr.lower s))) = true.
Proof.
  unfold PyStr.drop_last.
  assert (Hup : all_chars (fun a => negb ((65 <=? nat_of_ascii a)%nat &&
                                          (nat_of_ascii a <=? 90)%nat))
                          (PyStr.lower s) = true).
  { induction s as [|c s IH]; [reflexivity|].
    cbn [PyStr.lower all_chars]. now rewrite lower_ascii_not_upper, IH. }
  generalize (String.length (PyStr.lower s) - n). intros m.
  apply (all_chars_substring _ _ 0 m) in Hup.
  induction (substring 0 m (PyStr.lower s)) as [|c t IH]; [reflexivity|].
  cbn [all_chars] in Hup. apply andb_true_iff in Hup. destruct Hup as [Hc Ht].
  cbn [Words.rewrite_chars]. rewrite all_chars_app, (IH Ht), andb_true_r.
  apply rewrite_char_clean. now apply negb_true_iff in Hc.
Qed.

Lemma tidy_clean (s : string) :
  all_chars (fun a => negb (is_rewritten_char a)) (Words.rewrite_chars s) = true ->
  all_chars (fun a => negb (is_rewritten_char a)) (Words.tidy s) = true.
Proof.
  intros Hs. unfold Words.tidy, PyStr.strip.
  now apply all_chars_rstrip, all_chars_lstrip, all_chars_squeeze.
Qed.

(** *** No doubled separator *)

Lemma contains_tail (a : ascii) (s w : string) :
  PyStr.contains (String a s) w = false -> PyStr.contains s w = false.
Proof. rewrite contains_cons. intros Hc. now apply orb_false_iff in Hc. Qed.

Lemma lstrip_no_double (c : ascii) (s : string) :
  PyStr.contains s "__" = false -> PyStr.contains (PyStr.lstrip c s) "__" = false.
Proof.
  induction s as [|a s IH]; [auto|].
  intros Hs. cbn [PyStr.lstrip]. destruct (Ascii.eqb a c); [|exact Hs].
  apply IH. now apply contains_tail in Hs.
Qed.

Lemma rstrip_prefix (c : ascii) (s : string) :
  exists r, s = (PyStr.rstrip c s ++ r)%string.
Proof.
  induction s as [|a s [r IH]]; [now exists ""%string|].
  cbn [PyStr.rstrip]. destruct (PyStr.rstrip c s) as [|b t] eqn:Hr.
  - destruct (Ascii.eqb a c).
    + exists (String a s). reflexivity.
    + exists s. reflexivity.
  - exists r. simpl. simpl in IH. now rewrite <- IH.
Qed.

Lemma rstrip_no_double (c : ascii) (s : string) :
  PyStr.contains s "__" = false -> PyStr.contains (PyStr.rstrip c s) "__" = false.
Proof.
  intros Hs. destruct (PyStr.contains (PyStr.rstrip c s) "__") eqn:Hc; [|reflexivity].
  apply contains_iff in Hc. destruct Hc as [p [q Hpq]].
  destruct (rstrip_prefix c s) as [r Hr].
  assert (Hin : PyStr.contains s "__" = true).
  { apply contains_iff. exists p, (q ++ r)%string.
    rewrite Hr at 1. rewrite Hpq. now rewrite !append_assoc. }
  congruence.
Qed.

(** [rstrip] leaves no string that ends with the stripped character. *)
Lemma rstrip_last (c : ascii) (s : string) (p : string) :
  PyStr.rstrip c s <> (p ++ String c "")%string.
Proof.
  revert p. induction s as [|a s IH]; intros p.
  - simpl. destruct p; discriminate.
  - cbn [PyStr.rstrip]. destruct (PyStr.rstrip c s) as [|b t] eqn:Hr.
    + destruct (Ascii.eqb_spec a c) as [-> | Hne].
      * destruct p; discriminate.
      * destruct p as [|x p]; simpl.
        -- intros [= ->]. contradiction.
        -- intros [= _ Hp]. destruct p; discriminate.
    + destruct p as [|x p]; simpl.
      * discriminate.
      * intros [= _ Hp]. exact (IH p Hp).
Qed.

(** A tag that starts with one separator doubles none, behind a string
    that does not end with one. *)
Lemma tag_no_double (body : string) (t : ascii) :
  t <> "_"%char ->
  PyStr.contains body "__" = false ->
  (forall p, body <> (p ++ "_")%string) ->
  PyStr.contains (body ++ String "_" (String t "")) "__" = false.
Proof.
  intros Ht. induction body as [|a body IH]; intros Hno Hend.
  - assert (E : Ascii.eqb "_" t = false) by (apply Ascii.eqb_neq; congruence).
    cbn -[Ascii.eqb]. rewrite E. reflexivity.
  - change (String a body ++ String "_" (String t ""))%string
      with (String a (body ++ String "_" (String t ""))).
    rewrite contains_cons. rewrite contains_cons in Hno.
    apply orb_false_iff in Hno. destruct Hno as [Hstart Hno].
    rewrite IH; [| exact Hno | intros p Hp; apply (Hend (String a p)); simpl; now rewrite Hp].
    rewrite orb_false_r.
    destruct (PyStr.startswith (String a (body ++ String "_" (String t ""))) "__") eqn:Hs;
      [|reflexivity].
    apply starts_dd in Hs. destruct Hs as [-> [u Hu]].
    destruct body as [|b body].
    + exfalso. apply (Hend ""%string). reflexivity.
    + simpl in Hu. injection Hu as -> _.
      assert (Hs2 : PyStr.startswith (String "_" (String "_" body)) "__" = true).
      { apply starts_dd. split; [reflexivity | now exists body]. }
      congruence.
Qed.

Lemma tidy_no_double (s : string) : PyStr.contains (Words.tidy s) "__" = false.
Proof.
  unfold Words.tidy, PyStr.strip.
  apply rstrip_no_double, lstrip_no_double.
  rewrite <- collapse_squeeze. apply collapse_no_double.
Qed.

Lemma tidy_last (s p : string) : Words.tidy s <> (p ++ "_")%string.
Proof. unfold Words.tidy, PyStr.strip. apply rstrip_last. Qed.

(** The cases of [normalize_mesh_id]. *)
Lemma normalize_cases (name : string) (is_bilateral : bool) :
  exists body,
    all_chars (fun a => negb (is_rewritten_char a)) (Words.rewrite_chars body) = true /\
    (normalize_mesh_id name is_bilateral = Words.tidy body \/
     normalize_mesh_id name is_bilateral = (Words.tidy body ++ "_l")%string \/
     normalize_mesh_id name is_bilateral = (Words.tidy body ++ "_r")%string).
Proof.
  unfold normalize_mesh_id, strip_side_suffix, split_side_suffix.
  change (String.length ".l") with 2. change (String.length ".r") with 2.
  destruct is_bilateral.
  - destruct (PyStr.endswith (PyStr.lower name) ".l");
      [| destruct (PyStr.endswith (PyStr.lower name) ".r")];
      rewrite normalize_characters_tidy.
    + exists (PyStr.drop_last 2 (PyStr.lower name)).
      split; [apply rewrite_chars_clean_prefix | now left].
    + exists (PyStr.drop_last 2 (PyStr.lower name)).
      split; [apply rewrite_chars_clean_prefix | now left].
    + exists (PyStr.lower name). split; [apply rewrite_chars_clean | now left].
  - destruct (PyStr.endswith (PyStr.lower name) ".l");
      [| destruct (PyStr.endswith (PyStr.lower name) ".r")];
      rewrite normalize_characters_tidy.
    + exists (PyStr.drop_last 2 (PyStr.lower name)).
      split; [apply rewrite_chars_clean_prefix | right; now left].
    + exists (PyStr.drop_last 2 (PyStr.lower name)).
      split; [apply rewrite_chars_clean_prefix | right; now right].
    + exists (PyStr.lower name). split; [apply rewrite_chars_clean | now left].
Qed.

End MoreNormalizer.

(** X7. With [is_bilateral] true the left and the right name of a pair get
    the same id; with [is_bilateral] false each gets that id followed by its
    side tag, so the two differ.  The id does not depend on the case of
    ASCII letters.  The function of the previous exporter is this one with
    [is_bilateral] false. *)
Theorem X7_normalize_mesh_id_sides (base : string) :
  normalize_mesh_id (base ++ ".l") true = normalize_mesh_id (base ++ ".r") true /\
  normalize_mesh_id (base ++ ".l") false =
    (normalize_mesh_id (base ++ ".l") true ++ "_l")%string /\
  normalize_mesh_id (base ++ ".r") false =
    (normalize_mesh_id (base ++ ".r") true ++ "_r")%string /\
  normalize_mesh_id (base ++ ".l") false <> normalize_mesh_id (base ++ ".r") false /\
  (forall name is_bilateral,
      normalize_mesh_id (PyStr.lower name) is_bilateral =
      normalize_mesh_id name is_bilateral) /\
  (forall name,
      V10Registry.normalize_mesh_id name = normalize_mesh_id name false).
Proof.
  assert (Hlt : normalize_mesh_id (base ++ ".l") true =
                normalize_characters (PyStr.lower base)).
  { unfold normalize_mesh_id. rewrite MoreNormalizer.lower_app.
    change (PyStr.lower ".l") with ".l"%string.
    now rewrite (MoreNormalizer.strip_side_left (PyStr.lower base)). }
  assert (Hrt : normalize_mesh_id (base ++ ".r") true =
                normalize_characters (PyStr.lower base)).
  { unfold normalize_mesh_id. rewrite MoreNormalizer.lower_app.
    change (PyStr.lower ".r") with ".r"%string.
    now rewrite (MoreNormalizer.strip_side_right (PyStr.lower base)). }
  assert (Hlf : normalize_mesh_id (base ++ ".l") false =
                (normalize_characters (PyStr.lower base) ++ "_l")%string).
  { unfold normalize_mesh_id. rewrite MoreNormalizer.lower_app.
    change (PyStr.lower ".l") with ".l"%string.
    now rewrite (MoreNormalizer.split_side_left (PyStr.lower base)). }
  assert (Hrf : normalize_mesh_id (base ++ ".r") false =
                (normalize_characters (PyStr.lower base) ++ "_r")%string).
  { unfold normalize_mesh_id. rewrite MoreNormalizer.lower_app.
    change (PyStr.lower ".r") with ".r"%string.
    now rewrite (MoreNormalizer.split_side_right (PyStr.lower base)). }
  rewrite Hlt, Hrt, Hlf, Hrf.
  split; [reflexivity|]. split; [reflexivity|]. split; [reflexivity|].
  split.
  { intros Heq. apply Allocator.append_cancel_l in Heq. discriminate. }
  split.
  - intros name is_bilateral. unfold normalize_mesh_id.
    now rewrite MoreNormalizer.lower_idem.
  - intros name. unfold V10Registry.normalize_mesh_id, normalize_mesh_id.
    destruct (split_side_suffix (PyStr.lower name)) as [clean [sfx|]] eqn:Hs;
      [|reflexivity].
    unfold split_side_suffix in Hs.
    destruct (PyStr.endswith (PyStr.lower name) ".l");
      [injection Hs as _ <-; reflexivity|].
    destruct (PyStr.endswith (PyStr.lower name) ".r");
      [injection Hs as _ <-; reflexivity | discriminate].
Qed.

(** A capital side letter is a side for [normalize_mesh_id], which
    lowercases first, and not for [extract_side_and_base]. *)
Example capital_side_letter :
  normalize_mesh_id "Biceps.L" false = "biceps_l" /\
  extract_side_and_base "Biceps.L" = ("Biceps.L", "midline").
Proof. split; reflexivity. Qed.

(** X8. An id that [normalize_mesh_id] returns has no space, hyphen,
    period, parenthesis or ASCII capital, and nowhere two separators in a
    row. *)
Theorem X8_normalize_mesh_id_alphabet (name : string) (is_bilateral : bool) :
  all_chars (fun c => negb (is_rewritten_char c))
            (normalize_mesh_id name is_bilateral) = true /\
  PyStr.contains (normalize_mesh_id name is_bilateral) "__" = false.
Proof.
  destruct (MoreNormalizer.normalize_cases name is_bilateral)
    as [body [Hclean [-> | [-> | ->]]]].
  - split; [now apply MoreNormalizer.tidy_clean | apply MoreNormalizer.tidy_no_double].
  - split.
    + rewrite MoreNormalizer.all_chars_app, MoreNormalizer.tidy_clean by exact Hclean.
      reflexivity.
    + apply MoreNormalizer.tag_no_double;
        [discriminate | apply MoreNormalizer.tidy_no_double
         | apply MoreNormalizer.tidy_last].
  - split.
    + rewrite MoreNormalizer.all_chars_app, MoreNormalizer.tidy_clean by exact Hclean.
      reflexivity.
    + apply MoreNormalizer.tag_no_double;
        [discriminate | apply MoreNormalizer.tidy_no_double
         | apply MoreNormalizer.tidy_last].
Qed.

(** An id can still start with a separator: the tag of a name that is
    nothing but a side suffix. *)
Example separator_first :
  normalize_mesh_id ".l" false = "_l" /\ normalize_mesh_id "(-).r" false = "_r".
Proof. split; reflexivity. Qed.

(** X9. The classifier of this exporter and the one of the previous
    exporter give a name the same type whenever none of the fascia keywords
    of the previous exporter occurs in it: they differ only in where the
    fascia test stands. *)
Theorem X9_classifiers_agree_without_fascia (name : string) :
  PyStr.any_in (PyStr.lower name) V10.fascia_keywords = false ->
  V10.get_anatomical_type name = get_anatomical_type name.
Proof.
  unfold V10.get_anatomical_type, get_anatomical_type.
  generalize (PyStr.lower name). intros n Hno.
  assert (Hf : PyStr.any_in n fascia_keywords = false).
  { change V10.fascia_keywords with (fascia_keywords ++ ["linea alba"]) in Hno.
    unfold PyStr.any_in in *. rewrite existsb_app in Hno.
    now apply orb_false_iff in Hno. }
  rewrite Hno, Hf.
  replace (PyStr.any_in n ["membrane"]) with (PyStr.contains n "membrane")
    by (unfold PyStr.any_in; simpl; now rewrite orb_false_r).
  reflexivity.
Qed.

Lemma X9_witness :
  PyStr.any_in (PyStr.lower "Rectus abdominis") V10.fascia_keywords = false /\
  V10.get_anatomical_type "Rectus abdominis" = get_anatomical_type "Rectus abdominis".
Proof.
  split; [reflexivity|].
  apply (X9_classifiers_agree_without_fascia "Rectus abdominis"). reflexivity.
Defined.

(** With a fascia keyword they can differ. *)
Example classifiers_differ :
  V10.get_anatomical_type "Thoracolumbar fascia of latissimus dorsi" = "muscle" /\
  get_anatomical_type "Thoracolumbar fascia of latissimus dorsi" = "fascia".
Proof. split; reflexivity. Qed.

(** X10. [compute_structure_layers] gives every name of its argument a
    layer, and no other name; the layer is between 0 and 4, it is 0
    exactly for bones and cartilage and 4 exactly for fascia. *)
Theorem X10_compute_structure_layers_range (O : Type) (objects : dict O) (name : string) :
  get (compute_structure_layers objects) name =
    (if mem objects name then Some (base_layer name) else None) /\
  base_layer name <= 4 /\
  (base_layer name = 0 <->
   get_anatomical_type name = "bone" \/ get_anatomical_type name = "cartilage") /\
  (base_layer name = 4 <-> get_anatomical_type name = "fascia").
Proof.
  split; [apply MoreRun.get_layers|]. split; [apply MoreRun.base_layer_le|].
  unfold base_layer.
  pose proof (Classifier.get_anatomical_type_total name) as Htype.
  generalize dependent (get_anatomical_type name). intros t Htype.
  generalize (PyStr.lower name). intros n.
  simpl in Htype.
  destruct Htype as [<- | [<- | [<- | [<- | [<- | [<- | [<- | [<- | [<- | [<- | []]]]]]]]]]];
    cbn [str_in existsb String.eqb Ascii.eqb Bool.eqb orb andb];
    try (split; split; intros Hx;
         try discriminate; try (destruct Hx; discriminate); auto; fail).
  destruct (PyStr.any_in n deep_muscle_keywords);
    [|destruct (PyStr.any_in n intermediate_muscle_keywords)];
    split; split; intros Hx; try discriminate; destruct Hx; discriminate.
Qed.

(** X11. In a complete run every record has the type that
    [get_anatomical_type] gives its name, the layer that the layer table
    gives it (the default of [layers.get] is never used), the base name of
    its name, and the region that the registry gives its name. *)
Theorem X11_record_fields_follow_the_name
    (H : Host) (reg : registry) (s s' : Scene)
    (rep : ExportReport) (md : metadata) (st : stats_t) :
  export_torso (Some reg) s = (s', Ok (Some (rep, md, st))) ->
  forall id m,
    In (id, m) (md_structures md) ->
    type_ m = get_anatomical_type (originalName m) /\
    In (type_ m) anatomical_types /\
    layer m = base_layer (originalName m) /\
    layer m <= 4 /\
    baseName m = fst (extract_side_and_base (originalName m)) /\
    get (get_all_structure_names reg) (originalName m) = Some (region m).
Proof.
  intros Hrun id m Hin.
  apply WholeRun.complete_run_ok in Hrun.
  destruct Hrun as [rs [Hok [Hmd _]]]. rewrite Hmd in Hin.
  destruct Hok as [_ [_ [_ [_ [Hrec _]]]]]. apply Hrec in Hin.
  destruct Hin as [_ [Hfound [rg [wc [Hreg [_ Hm]]]]]].
  pose proof (f_equal type_ Hm) as Ht. cbn in Ht.
  pose proof (f_equal layer Hm) as Hl. cbn in Hl.
  pose proof (f_equal baseName Hm) as Hb. cbn in Hb.
  pose proof (f_equal region Hm) as Hr. cbn in Hr.
  rewrite MoreRun.get_layers in Hl.
  rewrite (proj2 (PyDictFacts.mem_in _ _) Hfound) in Hl.
  split; [exact Ht|]. split; [rewrite Ht; apply Classifier.get_anatomical_type_total|].
  split; [exact Hl|]. split; [rewrite Hl; apply MoreRun.base_layer_le|].
  split; [exact Hb|].
  rewrite Hr. unfold export_set in Hreg.
  rewrite (MoreBilateral.filter_for_export_exact _ _
             (Bilateral.wf_get_all_structure_names reg)) in Hreg.
  cbn [fst] in Hreg. apply PyDictFacts.get_some_in in Hreg.
  apply filter_In in Hreg. destruct Hreg as [Hreg _].
  apply PyDictFacts.in_get_some; [apply Bilateral.wf_get_all_structure_names | exact Hreg].
Qed.

Lemma X11_witness :
  exists s' rep md st,
    export_torso (H := Toy.host) (Some Toy.psoas_registry) Toy.psoas_scene =
      (s', Ok (Some (rep, md, st))) /\
    forall id m,
      In (id, m) (md_structures md) -> layer m = base_layer (originalName m).
Proof.
  do 4 eexists. split.
  - vm_compute. reflexivity.
  - intros id m Hin.
    refine (proj1 (proj2 (proj2 (X11_record_fields_follow_the_name
                     Toy.host Toy.psoas_registry Toy.psoas_scene _ _ _ _ _ id m Hin)))).
    vm_compute. reflexivity.
Defined.

(** X12. The accounts of a complete run add up: the registry is the export
    set and the skipped right members; the export set is the found and the
    missing names; every found structure either has a record or is counted
    as failed; every record is counted as bilateral, midline or orphan and
    as nothing else; and there is at least one record. *)
Theorem X12_run_accounts_add_up
    (H : Host) (reg : registry) (s s' : Scene)
    (rep : ExportReport) (md : metadata) (st : stats_t) :
  export_torso (Some reg) s = (s', Ok (Some (rep, md, st))) ->
  total_in_registry rep =
    List.length (export_set reg) + List.length (skipped_right rep) /\
  List.length (export_set reg) = found_in_blender rep + List.length (missing rep) /\
  found_in_blender rep = exported rep + st_failed st /\
  exported rep = List.length (md_structures md) /\
  exported rep = st_bilateral st + st_midline st + st_orphan st /\
  1 <= exported rep /\
  bilateral_count rep = md_bilateral_count md /\
  md_bilateral_count md = count_records bilateral (md_structures md) /\
  midline_count rep = md_midline_count md.
Proof.
  intros Hrun. apply MoreRun.export_torso_report in Hrun.
  destruct Hrun as [s4 [col Hrun]]. cbv zeta in Hrun.
  set (names := get_all_structure_names reg) in *.
  set (pairs := find_bilateral_pairs names) in *.
  set (r := export_loop pairs (export_set reg) (compute_structure_layers (found_in reg s))
              (snapshot_of reg s) col (found_in reg s) initial_run s4) in *.
  destruct Hrun as [-> [-> [-> Hne]]].
  cbn [total_in_registry skipped_right found_in_blender missing exported
       bilateral_count midline_count md_structures md_bilateral_count md_midline_count].
  pose proof (Run.export_loop_ok pairs (export_set reg)
                (compute_structure_layers (found_in reg s)) (snapshot_of reg s)
                col (found_in reg s) s4) as Hok.
  fold r in Hok. destruct Hok as [_ [_ [_ [_ [_ [_ [Hlen [Hb [Hm Ho]]]]]]]]].
  pose proof (MoreRun.loop_accounts pairs (export_set reg)
                (compute_structure_layers (found_in reg s)) (snapshot_of reg s)
                col (found_in reg s) s4) as Hacc.
  fold r in Hacc.
  pose proof (MoreRun.count_classes (structures (snd r))) as Hclasses.
  assert (Hwf : wf names) by apply Bilateral.wf_get_all_structure_names.
  pose proof (MoreBilateral.filter_for_export_exact names pairs Hwf) as Hexact.
  assert (Hwfe : wf (export_set reg)).
  { apply (Bilateral.filter_for_export_spec names pairs). }
  split.
  { unfold export_set. fold names pairs. rewrite Hexact. cbn [fst snd].
    rewrite length_map. symmetry. apply MoreBilateral.filter_partition_length. }
  split.
  { unfold found_in, missing_in.
    destruct (MoreLookup.find_all_exact (lookup_session s) (export_set reg) Hwfe)
      as [Hf Hmiss].
    rewrite Hmiss.
    rewrite <- (length_map fst (fst (find_all_registry_objects _ _))).
    fold (keys (fst (find_all_registry_objects (lookup_session s) (export_set reg)))).
    rewrite Hf, MoreBilateral.filter_partition_length. unfold keys.
    now rewrite length_map. }
  split; [lia|]. split; [reflexivity|]. split; [lia|].
  split.
  { destruct (export_objects (snd r)) as [|o os]; [contradiction|].
    cbn [List.length] in Hlen. lia. }
  split; [reflexivity|]. split; [exact Hb | reflexivity].
Qed.

Lemma X12_witness :
  exists s' rep md st,
    export_torso (H := Toy.host) (Some Toy.pelvis_registry) Toy.left_missing_scene =
      (s', Ok (Some (rep, md, st))) /\
    total_in_registry rep =
      List.length (export_set Toy.pelvis_registry) + List.length (skipped_right rep).
Proof.
  do 4 eexists. split.
  - vm_compute. reflexivity.
  - refine (proj1 (X12_run_accounts_add_up Toy.host Toy.pelvis_registry
                     Toy.left_missing_scene _ _ _ _ _)).
    vm_compute. reflexivity.
Defined.

(** X13. The loop of [export_torso] only ever adds: after more structures
    the records and the exported objects are those that were there, in
    their order and unchanged, followed by the new ones, and the count of
    failures has not gone down. *)
Theorem X13_loop_only_appends
    (H : Host) (bilateral_pairs : dict pair_info) (export_structure_names : dict string)
    (layers : dict nat) (precomputed_transforms : dict transform)
    (export_collection : Collection) (done more_found : dict Obj) (s : Scene) :
  exists more more_objects,
    structures (snd (export_loop bilateral_pairs export_structure_names layers
                       precomputed_transforms export_collection
                       (done ++ more_found) initial_run s)) =
    structures (snd (export_loop bilateral_pairs export_structure_names layers
                       precomputed_transforms export_collection
                       done initial_run s)) ++ more /\
    export_objects (snd (export_loop bilateral_pairs export_structure_names layers
                           precomputed_transforms export_collection
                           (done ++ more_found) initial_run s)) =
    export_objects (snd (export_loop bilateral_pairs export_structure_names layers
                           precomputed_transforms export_collection
                           done initial_run s)) ++ more_objects /\
    st_failed (stats (snd (export_loop bilateral_pairs export_structure_names layers
                             precomputed_transforms export_collection
                             done initial_run s))) <=
    st_failed (stats (snd (export_loop bilateral_pairs export_structure_names layers
                             precomputed_transforms export_collection
                             (done ++ more_found) initial_run s))).
Proof. apply MoreRun.loop_extends. Qed.

(** X14. Neither processing function ever returns without a copy: each
    either raises or returns the copy it made, so the test [copy is None]
    of the loop never holds.  An exception in [transform_apply] or
    [origin_set] does not make [bake_and_center] raise. *)
Theorem X14_processing_returns_a_copy_or_raises
    (H : Host) (original : Obj) (export_collection : Collection)
    (precomputed_transform : option transform) (s : Scene) (world_center : Vector) :
  snd (process_standard_object original export_collection precomputed_transform s)
    <> Ok (None, world_center) /\
  snd (process_broken_parent_object original export_collection s)
    <> Ok (None, world_center) /\
  snd (process_mesh original export_collection precomputed_transform s)
    <> Ok (None, world_center) /\
  (forall copy,
      snd (try_except (bind transform_apply (fun _ => origin_set_center_of_volume)) s)
        = Ok tt /\
      (snd (select_all_deselect s) = Ok tt ->
       snd (select_set copy (fst (select_all_deselect s))) = Ok tt ->
       snd (set_active copy (fst (select_set copy (fst (select_all_deselect s))))) = Ok tt ->
       exists centre, snd (bake_and_center copy s) = Ok (Some copy, centre))).
Proof.
  split; [apply MoreRun.process_standard_no_none|].
  split; [apply MoreRun.process_broken_no_none|].
  split.
  { unfold process_mesh. apply MoreRun.bind_no_none. intros name s0.
    destruct (needs_location_sum_fix name);
      [apply MoreRun.process_broken_no_none | apply MoreRun.process_standard_no_none]. }
  intros copy. split; [reflexivity|].
  unfold bake_and_center, bind.
  destruct (select_all_deselect s) as [s1 [[]|]]; cbn [fst snd]; [|discriminate].
  intros _.
  destruct (select_set copy s1) as [s2 [[]|]]; cbn [fst snd]; [|discriminate].
  intros _.
  destruct (set_active copy s2) as [s3 [[]|]]; cbn [fst snd]; [|discriminate].
  intros _. unfold try_except, read, ret. cbn. eexists. reflexivity.
Qed.

Lemma X14_witness :
  exists centre,
    snd (bake_and_center (H := Toy.host) 0 Toy.psoas_scene) = Ok (Some 0, centre).
Proof.
  refine (proj2 (proj2 (proj2 (proj2
            (X14_processing_returns_a_copy_or_raises Toy.host 0 tt None
               Toy.psoas_scene (0, 0, 0)%float))) 0) _ _ _); reflexivity.
Defined.

(** ** The pair check of the previous exporter *)

Module MoreV10.
Import PyStrFacts PyDictFacts Bilateral V10Registry.

Lemma get_append_same (bb : dict (list side_item)) b item :
  get (by_base_append bb b item) b =
  Some (match get bb b with Some items => items | None => [] end ++ [item]).
Proof. unfold by_base_append. destruct (get bb b); apply get_set_same. Qed.

Lemma get_append_other (bb : dict (list side_item)) b b' item :
  b <> b' -> get (by_base_append bb b item) b' = get bb b'.
Proof. intros Hne. unfold by_base_append. destruct (get bb b); now apply get_set_other. Qed.

Lemma wf_append (bb : dict (list side_item)) b item :
  wf bb -> wf (by_base_append bb b item).
Proof. intros Hwf. unfold by_base_append. destruct (get bb b); now apply wf_set. Qed.

Lemma group_step_left (bb : dict (list side_item)) b region :
  group_step bb ((b ++ ".l")%string, region) =
  by_base_append bb b (mk_item (b ++ ".l") "left" region).
Proof. unfold group_step. now rewrite extract_left. Qed.

Lemma group_step_right (bb : dict (list side_item)) b region :
  group_step bb ((b ++ ".r")%string, region) =
  by_base_append bb b (mk_item (b ++ ".r") "right" region).
Proof. unfold group_step. now rewrite extract_right. Qed.

Lemma group_step_midline (bb : dict (list side_item)) name region :
  PyStr.endswith name ".l" = false -> PyStr.endswith name ".r" = false ->
  group_step bb (name, region) = bb.
Proof. intros Hl Hr. unfold group_step. now rewrite extract_midline. Qed.

Lemma in_keys_snoc {V} (l : dict V) (kv : string * V) (k : string) :
  In k (keys (l ++ [kv])) <-> In k (keys l) \/ k = fst kv.
Proof.
  rewrite keys_snoc, in_app_iff. simpl. split.
  - intros [Hin | [<- | []]]; auto.
  - intros [Hin | ->]; auto.
Qed.

(** Growing the names by one that is no sided name of [b] changes nothing
    for [b]. *)
Lemma group_ok_other (l : dict string) (kv : string * string) (b : string)
    (entry : option (list side_item)) :
  fst kv <> (b ++ ".l")%string -> fst kv <> (b ++ ".r")%string ->
  group_ok l b entry -> group_ok (l ++ [kv]) b entry.
Proof.
  intros Hl Hr. unfold group_ok. destruct entry as [items|].
  - intros [Hne [Hit [Hleft Hright]]]. split; [exact Hne|]. split; [|split].
    + intros it Hin. destruct (Hit it Hin) as [[H1 [H2 H3]] | [H1 [H2 H3]]].
      * left. repeat split; auto. apply in_keys_snoc. now left.
      * right. repeat split; auto. apply in_keys_snoc. now left.
    + intros Hin. apply in_keys_snoc in Hin. destruct Hin as [Hin | Heq]; [auto | congruence].
    + intros Hin. apply in_keys_snoc in Hin. destruct Hin as [Hin | Heq]; [auto | congruence].
  - intros [Hnl Hnr]. split; intros Hin; apply in_keys_snoc in Hin;
      destruct Hin as [Hin | Heq]; auto; congruence.
Qed.

(** After the first loop of [validate_bilateral_pairs], [by_base] is a
    dictionary that has, for every base name, the sided names that the
    registry has of it, with their sides, and no empty list. *)
Lemma group_inv (names : dict string) :
  wf (fold_left group_step names []) /\
  forall b, group_ok names b (get (fold_left group_step names []) b).
Proof.
  induction names as [|[name region] l IH] using rev_ind.
  - split; [apply wf_nil | intros b; simpl; auto].
  - rewrite fold_left_app. cbn [fold_left]. destruct IH as [Hwf IH].
    set (bb := fold_left group_step l []) in *.
    destruct (extract_cases name) as [[b0 [-> _]] | [[b0 [-> _]] | [Hl [Hr _]]]].
    + rewrite group_step_left. split; [now apply wf_append|].
      intros b. destruct (String.eqb_spec b0 b) as [<- | Hne].
      * rewrite get_append_same. specialize (IH b0). unfold group_ok in *.
        split; [destruct (get bb b0) as [[|? ?]|]; discriminate|].
        split; [|split].
        -- intros it Hin. apply in_app_or in Hin. destruct Hin as [Hin | [<- | []]].
           ++ destruct (get bb b0) as [items|]; [|contradiction].
              destruct IH as [_ [Hit _]].
              destruct (Hit it Hin) as [[H1 [H2 H3]] | [H1 [H2 H3]]].
              ** left. repeat split; auto. apply in_keys_snoc. now left.
              ** right. repeat split; auto. apply in_keys_snoc. now left.
           ++ left. cbn. repeat split. apply in_keys_snoc. now right.
        -- intros _. rewrite map_app. apply in_or_app. right. now left.
        -- intros Hin. apply in_keys_snoc in Hin. cbn [fst] in Hin.
           destruct Hin as [Hin | Heq]; [|symmetry in Heq; now apply sided_neq in Heq].
           rewrite map_app. apply in_or_app. left.
           destruct (get bb b0) as [items|]; [now apply IH | destruct IH; contradiction].
      * rewrite get_append_other by exact Hne. apply group_ok_other; cbn [fst].
        -- intros Heq. apply left_inj in Heq. contradiction.
        -- apply sided_neq.
        -- apply IH.
    + rewrite group_step_right. split; [now apply wf_append|].
      intros b. destruct (String.eqb_spec b0 b) as [<- | Hne].
      * rewrite get_append_same. specialize (IH b0). unfold group_ok in *.
        split; [destruct (get bb b0) as [[|? ?]|]; discriminate|].
        split; [|split].
        -- intros it Hin. apply in_app_or in Hin. destruct Hin as [Hin | [<- | []]].
           ++ destruct (get bb b0) as [items|]; [|contradiction].
              destruct IH as [_ [Hit _]].
              destruct (Hit it Hin) as [[H1 [H2 H3]] | [H1 [H2 H3]]].
              ** left. repeat split; auto. apply in_keys_snoc. now left.
              ** right. repeat split; auto. apply in_keys_snoc. now left.
           ++ right. cbn. repeat split. apply in_keys_snoc. now right.
        -- intros Hin. apply in_keys_snoc in Hin. cbn [fst] in Hin.
           destruct Hin as [Hin | Heq]; [|now apply sided_neq in Heq].
           rewrite map_app. apply in_or_app. left.
           destruct (get bb b0) as [items|]; [now apply IH | destruct IH; contradiction].
        -- intros _. rewrite map_app. apply in_or_app. right. now left.
      * rewrite get_append_other by exact Hne. apply group_ok_other; cbn [fst].
        -- intros Heq. symmetry in Heq. now apply sided_neq in Heq.
        -- intros Heq. apply right_inj in Heq. contradiction.
        -- apply IH.
    + rewrite group_step_midline by assumption. split; [exact Hwf|].
      intros b. apply group_ok_other; cbn [fst].
      * intros ->. now rewrite endswith_app in Hl.
      * intros ->. now rewrite endswith_app in Hr.
      * apply IH.
Qed.

(** The second loop does not raise when no list is empty, and reports the
    groups whose sides are not both there, in the order of [by_base]. *)
Lemma check_fold (bb : dict (list side_item)) (acc : list incomplete_pair) :
  (forall b items, In (b, items) bb -> items <> []) ->
  fold_left check_step bb (Some acc) =
  Some (acc ++ map report_of
                 (filter (fun e => sides_incomplete (map item_side (snd e))) bb)).
Proof.
  revert acc. induction bb as [|[b items] bb IH]; intros acc Hne.
  - simpl. now rewrite app_nil_r.
  - cbn [fold_left check_step filter snd].
    assert (Hitems : items <> []) by (apply (Hne b); now left).
    assert (Hrest : forall b0 items0, In (b0, items0) bb -> items0 <> []).
    { intros b0 items0 Hin. apply (Hne b0). now right. }
    destruct (sides_incomplete (map item_side items)).
    + destruct items as [|first rest] eqn:Hi; [contradiction|].
      rewrite IH by exact Hrest. cbn [map]. rewrite <- app_assoc. reflexivity.
    + now apply IH.
Qed.

Lemma sides_incomplete_iff (sides : list string) :
  (forall sd, In sd sides -> sd = "left"%string \/ sd = "right"%string) ->
  (sides_incomplete sides = true <->
   ~ (In "left"%string sides /\ In "right"%string sides)).
Proof.
  intros Hall. unfold sides_incomplete.
  assert (Hfor : forallb (fun sd => String.eqb sd "left" || String.eqb sd "right") sides
                 = true).
  { apply forallb_forall. intros sd Hin.
    destruct (Hall sd Hin) as [-> | ->]; reflexivity. }
  rewrite Hfor, andb_true_r, negb_true_iff, andb_false_iff.
  rewrite <- !not_true_iff_false, !MoreRun.str_in_iff. split.
  - intros [Hn | Hn] [Hl Hr]; contradiction.
  - intros Hn. destruct (in_dec string_dec "left"%string sides) as [Hl | Hl]; [|now left].
    right. intros Hr. apply Hn. auto.
Qed.

End MoreV10.

(** X15. The pair check of the previous exporter,
    [validate_bilateral_pairs], never raises, and its report has one entry
    for each base name of which the registry has exactly one of [base.l]
    and [base.r], and no other entry: the entry names the side that is
    absent, and [found] is not empty and holds only the name that is
    present.  The reported base names are never among the pairs that
    [find_bilateral_pairs] of the current exporter returns for the same
    registry. *)
Theorem X15_validate_bilateral_pairs_reports_half_pairs (reg : registry) :
  let names := get_all_structure_names reg in
  exists report,
    V10Registry.validate_bilateral_pairs reg = Some report /\
    NoDup (map V10Registry.base_name report) /\
    (forall base,
       In base (map V10Registry.base_name report) <->
       (In (base ++ ".l")%string (keys names) /\ ~ In (base ++ ".r")%string (keys names)) \/
       (In (base ++ ".r")%string (keys names) /\ ~ In (base ++ ".l")%string (keys names))) /\
    (forall e, In e report ->
       V10Registry.found e <> [] /\
       ((V10Registry.missing_side e = "right"%string /\
         forall n, In n (V10Registry.found e) ->
                   n = (V10Registry.base_name e ++ ".l")%string) \/
        (V10Registry.missing_side e = "left"%string /\
         forall n, In n (V10Registry.found e) ->
                   n = (V10Registry.base_name e ++ ".r")%string))) /\
    (forall e, In e report ->
       mem (find_bilateral_pairs names) (V10Registry.base_name e) = false).
Proof.
  intros names. unfold V10Registry.validate_bilateral_pairs. fold names.
  destruct (MoreV10.group_inv names) as [Hwf Hinv].
  set (bb := fold_left V10Registry.group_step names []) in *.
  assert (Hne : forall b items, In (b, items) bb -> items <> []).
  { intros b items Hin. apply PyDictFacts.in_get_some in Hin; [|exact Hwf].
    specialize (Hinv b). rewrite Hin in Hinv. apply Hinv. }
  rewrite (MoreV10.check_fold bb [] Hne). cbn [app].
  set (inc := fun e : string * list V10Registry.side_item =>
                V10Registry.sides_incomplete (map V10Registry.item_side (snd e))).
  (* what an entry of [by_base] says about the registry *)
  assert (Hentry : forall b items, In (b, items) bb ->
            (forall sd, In sd (map V10Registry.item_side items) ->
                        sd = "left"%string \/ sd = "right"%string) /\
            (In "left"%string (map V10Registry.item_side items) <->
             In (b ++ ".l")%string (keys names)) /\
            (In "right"%string (map V10Registry.item_side items) <->
             In (b ++ ".r")%string (keys names)) /\
            (In (b ++ ".l")%string (keys names) \/ In (b ++ ".r")%string (keys names)) /\
            (forall it, In it items ->
               (V10Registry.item_name it = (b ++ ".l")%string /\
                V10Registry.item_side it = "left"%string) \/
               (V10Registry.item_name it = (b ++ ".r")%string /\
                V10Registry.item_side it = "right"%string))).
  { intros b items Hin. apply PyDictFacts.in_get_some in Hin; [|exact Hwf].
    specialize (Hinv b). rewrite Hin in Hinv.
    destruct Hinv as [Hnil [Hit [Hl Hr]]].
    split; [|split; [|split; [|split]]].
    - intros sd Hsd. apply in_map_iff in Hsd. destruct Hsd as [it [<- Hi]].
      destruct (Hit it Hi) as [[_ [-> _]] | [_ [-> _]]]; auto.
    - split; [|exact Hl]. intros Hsd. apply in_map_iff in Hsd.
      destruct Hsd as [it [Hs Hi]].
      destruct (Hit it Hi) as [[_ [_ Hk]] | [_ [Hs' _]]]; [exact Hk | congruence].
    - split; [|exact Hr]. intros Hsd. apply in_map_iff in Hsd.
      destruct Hsd as [it [Hs Hi]].
      destruct (Hit it Hi) as [[_ [Hs' _]] | [_ [_ Hk]]]; [congruence | exact Hk].
    - destruct items as [|it rest]; [contradiction|].
      destruct (Hit it (or_introl eq_refl)) as [[_ [_ Hk]] | [_ [_ Hk]]]; auto.
    - intros it Hi. destruct (Hit it Hi) as [[H1 [H2 _]] | [H1 [H2 _]]]; auto. }
  assert (Hinc : forall b items, In (b, items) bb ->
            (inc (b, items) = true <->
             ~ (In (b ++ ".l")%string (keys names) /\ In (b ++ ".r")%string (keys names)))).
  { intros b items Hin. destruct (Hentry b items Hin) as [Hsd [Hl [Hr _]]].
    unfold inc. cbn [snd]. rewrite (MoreV10.sides_incomplete_iff _ Hsd).
    now rewrite Hl, Hr. }
  exists (map V10Registry.report_of (filter inc bb)).
  split; [reflexivity|].
  assert (Hbases : map V10Registry.base_name (map V10Registry.report_of (filter inc bb))
                   = keys (filter inc bb)).
  { rewrite map_map. reflexivity. }
  split; [|split; [|split]].
  - rewrite Hbases. unfold keys.
    assert (Hnd : forall (l : dict (list V10Registry.side_item)),
               NoDup (map fst l) -> NoDup (map fst (filter inc l))).
    { induction l as [|x l IH]; intros Hx; [constructor|].
      inversion Hx as [|? ? Hnot Hx']; subst. cbn [filter].
      destruct (inc x); [|now apply IH].
      cbn [map]. constructor; [|now apply IH].
      intros Hin. apply Hnot. apply in_map_iff in Hin.
      destruct Hin as [y [Hy Hin]]. apply filter_In in Hin.
      apply in_map_iff. exists y. tauto. }
    apply Hnd. exact Hwf.
  - intros base. rewrite Hbases. unfold keys. rewrite in_map_iff. split.
    + intros [[b items] [Hb Hin]]. cbn [fst] in Hb. subst b.
      apply filter_In in Hin. destruct Hin as [Hin Hi].
      apply (Hinc base items Hin) in Hi.
      destruct (Hentry base items Hin) as [_ [_ [_ [[Hk | Hk] _]]]].
      * left. split; [exact Hk|]. intros Hr. apply Hi. auto.
      * right. split; [exact Hk|]. intros Hl. apply Hi. auto.
    + intros Hhalf.
      assert (Hsome : exists items, PyDict.get bb base = Some items).
      { specialize (Hinv base). destruct (PyDict.get bb base) as [items|];
          [now exists items|]. destruct Hinv as [Hnl Hnr].
        destruct Hhalf as [[Hk _] | [Hk _]]; contradiction. }
      destruct Hsome as [items Hget]. apply PyDictFacts.get_some_in in Hget.
      exists (base, items). split; [reflexivity|].
      apply filter_In. split; [exact Hget|].
      apply (Hinc base items Hget). intros [Hl Hr].
      destruct Hhalf as [[_ Hn] | [_ Hn]]; contradiction.
  - intros e He. apply in_map_iff in He. destruct He as [[b items] [<- Hin]].
    apply filter_In in Hin. destruct Hin as [Hin Hi].
    apply (Hinc b items Hin) in Hi.
    destruct (Hentry b items Hin) as [_ [Hl [Hr [_ Hit]]]].
    unfold V10Registry.report_of. cbn [fst snd V10Registry.found
      V10Registry.missing_side V10Registry.base_name].
    split.
    { specialize (Hne b items Hin). destruct items; [contradiction | discriminate]. }
    destruct (str_in "left" (map V10Registry.item_side items)) eqn:Hs.
    + left. split; [reflexivity|]. intros n Hn. apply in_map_iff in Hn.
      destruct Hn as [it [<- Hit']].
      destruct (Hit it Hit') as [[H1 _] | [_ H2]]; [exact H1|].
      exfalso. apply Hi. split.
      * apply Hl. now apply MoreRun.str_in_iff.
      * apply Hr. apply in_map_iff. now exists it.
    + right. split; [reflexivity|]. intros n Hn. apply in_map_iff in Hn.
      destruct Hn as [it [<- Hit']].
      destruct (Hit it Hit') as [[_ H2] | [H1 _]]; [|exact H1].
      exfalso. apply not_true_iff_false in Hs. apply Hs.
      apply MoreRun.str_in_iff. apply in_map_iff. now exists it.
  - intros e He. apply in_map_iff in He. destruct He as [[b items] [<- Hin]].
    apply filter_In in Hin. destruct Hin as [Hin Hi].
    apply (Hinc b items Hin) in Hi.
    cbn [V10Registry.report_of V10Registry.base_name fst].
    apply not_true_iff_false. intros Hm. apply Bilateral.pairs_mem_iff in Hm.
    contradiction.
Qed.

(** A registry with a pair, a left name alone, a right name alone and a
    repeated name: the two half pairs are reported, in the order in which
    their bases first appear. *)
Example validate_bilateral_pairs_report :
  V10Registry.validate_bilateral_pairs
    [("torso"%string,
      RegionList ["x.l"; "y"; "z.r"; "w.l"; "w.r"; "x.l"]%string)] =
  Some [V10Registry.mk_incomplete "x" "right" ["x.l"] "torso";
        V10Registry.mk_incomplete "z" "left" ["z.r"] "torso"]%string.
Proof. reflexivity. Qed.

(** ** Ends of a run, and the mirrored centre *)

Module MoreFloat.

(** Negation of a binary64 number only changes the sign. *)
Lemma opp_involutive (x : float) : (- (- x))%float = x.
Proof.
  apply FloatAxioms.Prim2SF_inj. rewrite !FloatAxioms.opp_spec.
  destruct (FloatOps.Prim2SF x) as [[]|[]| |[] ? ?]; reflexivity.
Qed.

Lemma mirror_involutive (c : point) : mirror_center_x (mirror_center_x c) = c.
Proof. destruct c as [[c0 c1] c2]. cbn. now rewrite opp_involutive. Qed.

End MoreFloat.

(** X16. When no name of the export set resolves to an object of the
    scene, [export_torso] returns without a report right after its scene
    update: it makes no directory, creates no collection and writes
    nothing. *)
Theorem X16_nothing_found_ends_the_run (H : Host) (reg : registry) (s : Scene) :
  snd (view_layer_update s) = Ok tt ->
  (forall name, In name (keys (export_set reg)) ->
                find_structure_in_blender (lookup_session s) name = None) ->
  export_torso (Some reg) s = (lookup_session s, Ok None).
Proof.
  intros Hupd Hnone. unfold export_torso.
  pose proof (WholeRun.find_all_spec (lookup_session s) (export_set reg))
    as [_ [Hin _]].
  unfold export_set, lookup_session in *.
  destruct (filter_for_export (get_all_structure_names reg)
              (find_bilateral_pairs (get_all_structure_names reg)))
    as [exp skipped]. cbn [fst] in *.
  unfold bind at 1. destruct (view_layer_update s) as [s1 [[]|]]; [|discriminate].
  cbn [fst] in *. unfold bind, read. cbn [fst snd].
  destruct (find_all_registry_objects s1 exp) as [[|[k o] found] missing_names];
    [reflexivity|].
  exfalso. cbn [fst] in Hin.
  destruct (Hin k o (or_introl eq_refl)) as [Hk Hfind].
  rewrite (Hnone k Hk) in Hfind. discriminate.
Qed.

Lemma X16_witness :
  export_torso (H := Toy.host) (Some Toy.pelvis_registry) (Toy.mk_scene [] None) =
  (Toy.mk_scene [] None, Ok None).
Proof.
  apply (X16_nothing_found_ends_the_run Toy.host Toy.pelvis_registry (Toy.mk_scene [] None)).
  - reflexivity.
  - intros name _. reflexivity.
Defined.

(** X17. In a complete run a record has a mirrored centre exactly when it
    is marked bilateral, and mirroring that centre again gives the centre
    of the record back; mirroring changes neither the second nor the third
    coordinate. *)
Theorem X17_mirrored_center_mirrors_back
    (H : Host) (reg : registry) (s s' : Scene)
    (rep : ExportReport) (md : metadata) (st : stats_t) :
  export_torso (Some reg) s = (s', Ok (Some (rep, md, st))) ->
  forall id m,
    In (id, m) (md_structures md) ->
    match mirroredCenter m with
    | Some mirrored =>
        bilateral m = true /\
        mirror_center_x mirrored = center m /\
        mirror_center_x (center m) = mirrored /\
        snd mirrored = snd (center m) /\
        snd (fst mirrored) = snd (fst (center m))
    | None => bilateral m = false
    end.
Proof.
  intros Hrun id m Hin.
  apply WholeRun.complete_run_ok in Hrun.
  destruct Hrun as [rs [Hok [Hmd _]]]. rewrite Hmd in Hin.
  destruct Hok as [_ [_ [_ [_ [Hrec _]]]]]. apply Hrec in Hin.
  apply WholeRun.record_fields in Hin.
  destruct Hin as [_ [_ [_ [_ [_ [Hmc _]]]]]]. rewrite Hmc.
  destruct (bilateral m); [|reflexivity].
  split; [reflexivity|]. split; [apply MoreFloat.mirror_involutive|].
  split; [reflexivity|].
  destruct (center m) as [[c0 c1] c2]. split; reflexivity.
Qed.

Lemma X17_witness :
  exists s' rep md st,
    export_torso (H := Toy.host) (Some Toy.pelvis_registry) Toy.pelvis_scene =
      (s', Ok (Some (rep, md, st))) /\
    forall id m,
      In (id, m) (md_structures md) ->
      match mirroredCenter m with
      | Some mirrored => mirror_center_x mirrored = center m
      | None => bilateral m = false
      end.
Proof.
  do 4 eexists. split.
  - vm_compute. reflexivity.
  - intros id m Hin.
    pose proof (X17_mirrored_center_mirrors_back Toy.host Toy.pelvis_registry
                  Toy.pelvis_scene _ _ _ _ eq_refl id m Hin) as Hx.
    destruct (mirroredCenter m); [apply Hx | exact Hx].
Defined.
